(** * The hash-chained audit log of the OR1ON kernel

    A shallow embedding of [audit-trail/audit_system.py] (class [AuditTrail])
    and [audit-chain/verify-chain.py] (class [AuditChainVerifier]), together
    with the two Python library functions the chain depends on:
    [hashlib.sha256] (FIPS 180-4) and [json.dumps(..., sort_keys=True)]. *)

From Stdlib Require Import NArith ZArith String Ascii List Lia.
From stdpp Require Import base numbers option list gmap.
Import ListNotations.

(** ** Python strings

    A Python [str] is a sequence of Unicode code points; lone surrogates
    (U+D800..U+DFFF) are legal elements of a [str]. *)

Module PyStr.

Abbreviation pystr := (list N).

(** Literals of the source, which are all ASCII. *)
Fixpoint py (s : string) : pystr :=
  match s with
  | EmptyString => []
  | String c r => N_of_ascii c :: py r
  end.

(** Literals that contain double quotes are written with apostrophes:
    [pyq] reads an apostrophe as the double quote. *)
Definition pyq (s : string) : pystr :=
  map (fun c => if (c =? 39)%N then 34%N else c) (py s).

(** Code points that are characters: below U+110000 and no surrogate. *)
Definition scalar (c : N) : Prop :=
  (c < 0xD800 \/ 0xDFFF < c /\ c < 0x110000)%N.

#[global] Instance scalar_dec c : Decision (scalar c).
Proof. unfold scalar. apply _. Defined.

(** Texts that [str.encode()] maps to themselves. *)
Definition ascii_text (s : pystr) : Prop := Forall (fun c => (c < 128)%N) s.

(** [a < b], [a <= b] on [str]: lexicographic order on code points. *)
Fixpoint str_le (a b : pystr) : bool :=
  match a, b with
  | [], _ => true
  | _ :: _, [] => false
  | x :: a', y :: b' =>
      if (x <? y)%N then true
      else if (y <? x)%N then false
      else str_le a' b'
  end.

Definition str_ge (a b : pystr) : bool := str_le b a.

(** Truthiness of an [Optional[str]]: [None] and the empty string are
    falsy. *)
Definition truthy (o : option pystr) : bool :=
  match o with
  | None => false
  | Some [] => false
  | Some (_ :: _) => true
  end.

(** [str(n)] for a non-negative integer, and zero padding as done by the
    [%0wd] conversions of [datetime.isoformat]. *)
Definition digit (d : N) : N := (48 + d)%N.

Fixpoint decimal_aux (fuel : nat) (n : N) (acc : pystr) : pystr :=
  match fuel with
  | O => acc
  | S f =>
      let acc' := digit (n mod 10)%N :: acc in
      if (n <? 10)%N then acc' else decimal_aux f (n / 10)%N acc'
  end.

Definition decimal (n : N) : pystr := decimal_aux (S (N.to_nat (N.log2 n))) n [].

Definition zero_pad (w : nat) (s : pystr) : pystr :=
  repeat (digit 0) (w - length s) ++ s.

End PyStr.
Export PyStr.

(** ** hashlib.sha256

    SHA-256 after FIPS 180-4, on messages given as lists of octets. *)

Module Sha256.
Local Open Scope N_scope.

Definition mask32 : N := 0xFFFFFFFF.
Definition wrap32 (x : N) : N := N.land x mask32.
Definition add32 (x y : N) : N := wrap32 (x + y).
Definition not32 (x : N) : N := N.lxor (wrap32 x) mask32.
Definition rotr (n x : N) : N :=
  N.lor (N.shiftr x n) (wrap32 (N.shiftl x (32 - n))).

Definition Ch (x y z : N) : N := N.lxor (N.land x y) (N.land (not32 x) z).
Definition Maj (x y z : N) : N :=
  N.lxor (N.lxor (N.land x y) (N.land x z)) (N.land y z).
Definition bigsigma0 (x : N) : N :=
  N.lxor (N.lxor (rotr 2 x) (rotr 13 x)) (rotr 22 x).
Definition bigsigma1 (x : N) : N :=
  N.lxor (N.lxor (rotr 6 x) (rotr 11 x)) (rotr 25 x).
Definition smallsigma0 (x : N) : N :=
  N.lxor (N.lxor (rotr 7 x) (rotr 18 x)) (N.shiftr x 3).
Definition smallsigma1 (x : N) : N :=
  N.lxor (N.lxor (rotr 17 x) (rotr 19 x)) (N.shiftr x 10).

(** The constants are not tabulated: FIPS 180-4 defines the sixty-four round
    constants as the first thirty-two bits of the fractional parts of the
    cube roots of the first sixty-four primes, and the initial hash value as
    those of the square roots of the first eight. *)
Definition is_prime (n : N) : bool :=
  forallb (fun d => negb (n mod N.of_nat d =? 0)) (seq 2 (N.to_nat n - 2)).

Definition primes : list N :=
  Eval vm_compute in firstn 64 (filter (fun n => is_prime n = true)
                                       (map N.of_nat (seq 2 310))).

(** The integer cube root, found bit by bit from the top. *)
Definition cube_root (n : N) : N :=
  fold_left (fun r b => let r' := r + 2 ^ N.of_nat b in
                        if r' * r' * r' <=? n then r' else r)
            (rev (seq 0 40)) 0.

Definition fraction_of_cube_root (p : N) : N := wrap32 (cube_root (p * 2 ^ 96)).
Definition fraction_of_square_root (p : N) : N := wrap32 (N.sqrt (p * 2 ^ 64)).

Definition round_constants : list N :=
  Eval vm_compute in map fraction_of_cube_root primes.

Record regs := Regs { ra : N; rb : N; rc : N; rd : N;
                      re : N; rf : N; rg : N; rh : N }.

Definition regs_of_list (l : list N) : regs :=
  Regs (nth 0 l 0) (nth 1 l 0) (nth 2 l 0) (nth 3 l 0)
       (nth 4 l 0) (nth 5 l 0) (nth 6 l 0) (nth 7 l 0).

Definition initial_hash : regs :=
  Eval vm_compute in regs_of_list (map fraction_of_square_root (firstn 8 primes)).

(** Padding: the bit 1, zero bits up to 448 mod 512, the bit length on 64
    bits, all big endian. *)
Definition big_endian (width : nat) (x : N) : list N :=
  map (fun i => N.land (N.shiftr x (8 * N.of_nat i)) 0xFF) (rev (seq 0 width)).

Definition pad (msg : list N) : list N :=
  let len := N.of_nat (length msg) in
  let zeros := (119 - len mod 64) mod 64 in
  msg ++ 0x80 :: repeat 0 (N.to_nat zeros) ++ big_endian 8 (8 * len).

Fixpoint words (bytes : list N) : list N :=
  match bytes with
  | b0 :: b1 :: b2 :: b3 :: rest =>
      (N.shiftl b0 24 + N.shiftl b1 16 + N.shiftl b2 8 + b3) :: words rest
  | _ => []
  end.

Fixpoint blocks (fuel : nat) (ws : list N) : list (list N) :=
  match fuel with
  | O => []
  | S f =>
      match ws with
      | [] => []
      | _ => firstn 16 ws :: blocks f (skipn 16 ws)
      end
  end.

(** Message schedule. [recent] holds W(t-1), W(t-2), ..., most recent
    first. *)
Fixpoint extend (n : nat) (recent : list N) : list N :=
  match n with
  | O => recent
  | S n' =>
      let w := add32 (add32 (smallsigma1 (nth 1 recent 0)) (nth 6 recent 0))
                     (add32 (smallsigma0 (nth 14 recent 0)) (nth 15 recent 0)) in
      extend n' (w :: recent)
  end.

Definition schedule (block : list N) : list N := rev (extend 48 (rev block)).

Definition round (s : regs) (kw : N * N) : regs :=
  let t1 := add32 (add32 (add32 (rh s) (bigsigma1 (re s)))
                         (add32 (Ch (re s) (rf s) (rg s)) (fst kw))) (snd kw) in
  let t2 := add32 (bigsigma0 (ra s)) (Maj (ra s) (rb s) (rc s)) in
  Regs (add32 t1 t2) (ra s) (rb s) (rc s) (add32 (rd s) t1) (re s) (rf s) (rg s).

Definition compress (h : regs) (block : list N) : regs :=
  let s := fold_left round (combine round_constants (schedule block)) h in
  Regs (add32 (ra h) (ra s)) (add32 (rb h) (rb s))
       (add32 (rc h) (rc s)) (add32 (rd h) (rd s))
       (add32 (re h) (re s)) (add32 (rf h) (rf s))
       (add32 (rg h) (rg s)) (add32 (rh h) (rh s)).

Definition digest_bytes (h : regs) : list N :=
  flat_map (big_endian 4) [ra h; rb h; rc h; rd h; re h; rf h; rg h; rh h].

Definition sha256 (msg : list N) : list N :=
  let ws := words (pad msg) in
  digest_bytes (fold_left compress (blocks (length ws) ws) initial_hash).

(** [.hexdigest()]: two lowercase hexadecimal digits per octet. *)
Definition hex_digit (d : N) : N := if d <? 10 then 48 + d else 87 + d.

Definition hex_byte (b : N) : pystr := [hex_digit (b / 16); hex_digit (b mod 16)].

Definition hexdigest (msg : list N) : pystr := flat_map hex_byte (sha256 msg).

End Sha256.

(** ** Exceptions

    Fallible code returns in [result]; [Raise] carries the Python exception
    class. *)

Inductive exn :=
  | IndexError | KeyError | TypeError | UnicodeEncodeError
  | FileNotFoundError | JSONDecodeError
  | OSError | UnicodeDecodeError | RecursionError | ValueError.

Inductive result (A : Type) :=
  | Ok (a : A)
  | Raise (e : exn).
Arguments Ok {A} a.
Arguments Raise {A} e.

#[global] Instance result_ret : MRet result := fun A a => Ok a.
#[global] Instance result_bind : MBind result := fun A B k m =>
  match m with
  | Ok a => k a
  | Raise e => Raise e
  end.

(** ** str.encode()

    UTF-8; a surrogate code point (or a value that is no code point) raises
    [UnicodeEncodeError]. *)

Module Utf8.
Local Open Scope N_scope.

Definition continuation (x : N) : N := 0x80 + x mod 64.

Definition encode_char (c : N) : result (list N) :=
  if c <? 0x80 then Ok [c]
  else if c <? 0x800 then Ok [0xC0 + c / 64; continuation c]
  else if (0xD800 <=? c) && (c <=? 0xDFFF) then Raise UnicodeEncodeError
  else if c <? 0x10000 then
    Ok [0xE0 + c / 4096; continuation (c / 64); continuation c]
  else if c <? 0x110000 then
    Ok [0xF0 + c / 262144; continuation (c / 4096);
        continuation (c / 64); continuation c]
  else Raise UnicodeEncodeError.

Fixpoint encode (s : pystr) : result (list N) :=
  match s with
  | [] => Ok []
  | c :: r =>
      b ← encode_char c;
      bs ← encode r;
      Ok (b ++ bs)
  end.

End Utf8.

(** ** json.dumps(d, sort_keys=True)

    for a dict whose keys are [str] and whose values are [str], [bool] or
    [None], with the default [ensure_ascii=True] and the default separators. *)

Module Json.
Local Open Scope N_scope.

Inductive value :=
  | JNull
  | JBool (b : bool)
  | JString (s : pystr).

#[global] Instance value_eq_dec : EqDecision value.
Proof. solve_decision. Defined.

Definition quote : N := 34.
Definition backslash : N := 92.

Definition hex4 (n : N) : pystr :=
  [ Sha256.hex_digit (n / 4096 mod 16); Sha256.hex_digit (n / 256 mod 16);
    Sha256.hex_digit (n / 16 mod 16); Sha256.hex_digit (n mod 16) ].

Definition u_escape (n : N) : pystr := backslash :: 117 :: hex4 n.

(** [ESCAPE_ASCII] replaces the backslash, the quote and every character
    outside [' '..'~']; [ESCAPE_DCT] has the short forms, the rest is
    [\uXXXX], as a surrogate pair beyond the basic plane. *)
Definition escape_char (c : N) : pystr :=
  if c =? backslash then [backslash; backslash]
  else if c =? quote then [backslash; quote]
  else if (32 <=? c) && (c <=? 126) then [c]
  else if c =? 8 then [backslash; 98]
  else if c =? 12 then [backslash; 102]
  else if c =? 10 then [backslash; 110]
  else if c =? 13 then [backslash; 114]
  else if c =? 9 then [backslash; 116]
  else if c <? 0x10000 then u_escape c
  else
    let n := c - 0x10000 in
    u_escape (N.lor 0xD800 (N.land (N.shiftr n 10) 0x3FF))
    ++ u_escape (N.lor 0xDC00 (N.land n 0x3FF)).

Definition encode_basestring_ascii (s : pystr) : pystr :=
  quote :: flat_map escape_char s ++ [quote].

Definition dumps_value (v : value) : pystr :=
  match v with
  | JNull => py "null"
  | JBool true => py "true"
  | JBool false => py "false"
  | JString s => encode_basestring_ascii s
  end.

(** [s < t] on keys, and the stable insertion of an item into a sorted
    list of items. *)
Definition str_lt (a b : pystr) : bool := negb (str_le b a).

Fixpoint insert_item (kv : pystr * value) (l : list (pystr * value))
  : list (pystr * value) :=
  match l with
  | [] => [kv]
  | kv' :: r =>
      if str_lt (fst kv) (fst kv') then kv :: l else kv' :: insert_item kv r
  end.

Definition sorted_items (d : list (pystr * value)) : list (pystr * value) :=
  fold_right insert_item [] d.

Definition dumps_item (kv : pystr * value) : pystr :=
  encode_basestring_ascii (fst kv) ++ py ": " ++ dumps_value (snd kv).

Fixpoint join (sep : pystr) (l : list pystr) : pystr :=
  match l with
  | [] => []
  | [x] => x
  | x :: r => x ++ sep ++ join sep r
  end.

(** The dict is given as its items in insertion order (keys distinct). *)
Definition dumps_sorted (d : list (pystr * value)) : pystr :=
  match d with
  | [] => py "{}"
  | _ => py "{" ++ join (py ", ") (map dumps_item (sorted_items d)) ++ py "}"
  end.

(** The escaped text of a string, without the enclosing quotes. *)
Definition esc (s : pystr) : pystr := flat_map escape_char s.

(** Reading back: the value of a hexadecimal digit, of four of them, and the
    character at the front of an escaped text ([None] at the closing
    quote). *)
Definition unhex (d : N) : N := if d <? 58 then d - 48 else d - 87.

Definition unhex4 (a b c d : N) : N :=
  4096 * unhex a + 256 * unhex b + 16 * unhex c + unhex d.

Definition unescape_char (s : pystr) : option (N * pystr) :=
  match s with
  | [] => None
  | c :: r =>
      if c =? quote then None
      else if c =? backslash then
        match r with
        | [] => None
        | k :: r1 =>
            if k =? 117 then
              match r1 with
              | a :: b :: c' :: d :: r2 =>
                  let hi := unhex4 a b c' d in
                  if (0xD800 <=? hi) && (hi <=? 0xDBFF) then
                    match r2 with
                    | _ :: _ :: a' :: b' :: c'' :: d' :: r3 =>
                        Some (0x10000 + (hi - 0xD800) * 1024
                              + (unhex4 a' b' c'' d' - 0xDC00), r3)
                    | _ => None
                    end
                  else Some (hi, r2)
              | _ => None
              end
            else if k =? 98 then Some (8, r1)
            else if k =? 102 then Some (12, r1)
            else if k =? 110 then Some (10, r1)
            else if k =? 114 then Some (13, r1)
            else if k =? 116 then Some (9, r1)
            else Some (k, r1)
        end
      else Some (c, r)
  end.

End Json.

(** ** Sequence indexing

    [l[i]] for a Python list: a negative index counts from the end, an index
    out of range raises [IndexError]. *)

Definition getitem {A} (l : list A) (i : Z) : result A :=
  let j := if (i <? 0)%Z then (i + Z.of_nat (length l))%Z else i in
  if (j <? 0)%Z then Raise IndexError
  else match l !! Z.to_nat j with
       | Some x => Ok x
       | None => Raise IndexError
       end.

(** ** datetime.utcnow().isoformat()

    The clock is an input of the model: every call of [datetime.utcnow()] in
    the source is a [datetime] argument of the embedding. A naive datetime
    prints as [YYYY-MM-DDTHH:MM:SS], followed by [.ffffff] when the microsecond
    is not zero. *)

Record datetime := Datetime {
  year : N; month : N; day : N;
  hour : N; minute : N; second : N; microsecond : N }.

Definition isoformat (d : datetime) : pystr :=
  zero_pad 4 (decimal (year d)) ++ py "-" ++ zero_pad 2 (decimal (month d))
  ++ py "-" ++ zero_pad 2 (decimal (day d)) ++ py "T"
  ++ zero_pad 2 (decimal (hour d)) ++ py ":" ++ zero_pad 2 (decimal (minute d))
  ++ py ":" ++ zero_pad 2 (decimal (second d))
  ++ (if (microsecond d =? 0)%N then []
      else py "." ++ zero_pad 6 (decimal (microsecond d))).

(** ** audit_system.py *)

Module AuditSystem.

Inductive AuditEventType :=
  | SYSTEM_INIT | KERNEL_OPERATION | ETHICAL_DECISION | AI_PROCESSING
  | MEMORY_ACCESS | SENTIENT_ACTIVITY | PROOF_VERIFICATION | SECURITY_EVENT
  | DATA_ACCESS | CONFIGURATION_CHANGE.

Definition value (t : AuditEventType) : pystr :=
  match t with
  | SYSTEM_INIT => py "system_initialization"
  | KERNEL_OPERATION => py "kernel_operation"
  | ETHICAL_DECISION => py "ethical_decision"
  | AI_PROCESSING => py "ai_processing"
  | MEMORY_ACCESS => py "memory_access"
  | SENTIENT_ACTIVITY => py "sentient_activity"
  | PROOF_VERIFICATION => py "proof_verification"
  | SECURITY_EVENT => py "security_event"
  | DATA_ACCESS => py "data_access"
  | CONFIGURATION_CHANGE => py "configuration_change"
  end.

(** The caller's metadata dict is opaque to the audit trail; it is kept as
    its items. *)
Definition metadata_dict := list (pystr * pystr).

(** An audit entry is a dict with exactly these eight keys. [chain_hash] is
    [None] until [log_event] has stamped the entry. *)
Record entry := Entry {
  event_id : pystr;
  timestamp : pystr;
  event_type : pystr;
  description : pystr;
  actor : pystr;
  metadata : metadata_dict;
  sensitivity : pystr;
  chain_hash : option pystr }.

Definition set_chain_hash (e : entry) (h : option pystr) : entry :=
  Entry (event_id e) (timestamp e) (event_type e) (description e)
        (actor e) (metadata e) (sensitivity e) h.

Record chain_entry := ChainEntry {
  ce_event_id : pystr;
  ce_timestamp : pystr;
  ce_hash : option pystr }.

Record AuditTrail := Trail {
  version : pystr;
  audit_log : list entry;
  event_index : gmap (list N) (list (list N));
  chain_integrity : list chain_entry;
  public_audit_enabled : bool }.

(** [AuditTrail.__init__] *)
Definition init : AuditTrail := Trail (py "1.0.0") [] ∅ [] true.

(** [_generate_event_id]: the first sixteen hexadecimal digits of the digest
    of [f"{timestamp}:{count}"]. *)
Definition _generate_event_id (self : AuditTrail) (now : datetime) : result pystr :=
  let timestamp := isoformat now in
  let count := N.of_nat (length (audit_log self)) in
  bytes ← Utf8.encode (timestamp ++ py ":" ++ decimal count);
  Ok (firstn 16 (Sha256.hexdigest bytes)).

Definition json_of_hash (h : option pystr) : Json.value :=
  match h with
  | None => Json.JNull
  | Some s => Json.JString s
  end.

(** The dict [entry_data] of [_compute_chain_hash], before the optional
    [prev_hash] item. *)
Definition entry_data (e : entry) : list (pystr * Json.value) :=
  [ (py "event_id", Json.JString (event_id e));
    (py "timestamp", Json.JString (timestamp e));
    (py "event_type", Json.JString (event_type e));
    (py "description", Json.JString (description e)) ].

(** [_compute_chain_hash(entry, prev_index=None)] *)
Definition _compute_chain_hash (self : AuditTrail) (e : entry)
    (prev_index : option Z) : result pystr :=
  data ←
    match prev_index with
    | Some p =>
        if (0 <=? p)%Z then
          prev ← getitem (audit_log self) p;
          Ok (entry_data e ++ [(py "prev_hash", json_of_hash (chain_hash prev))])
        else Ok (entry_data e)
    | None => Ok (entry_data e)
    end;
  let hash_input := Json.dumps_sorted data in
  bytes ← Utf8.encode hash_input;
  Ok (Sha256.hexdigest bytes).

(** [_index_event] *)
Definition _index_event (self : AuditTrail) (eid : pystr)
    (event_type : AuditEventType) : AuditTrail :=
  let type_key := value event_type in
  let index :=
    match event_index self !! type_key with
    | None => <[type_key := []]> (event_index self)
    | Some _ => event_index self
    end in
  let ids := default [] (index !! type_key) in
  Trail (version self) (audit_log self) (<[type_key := ids ++ [eid]]> index)
        (chain_integrity self) (public_audit_enabled self).

(** [_update_integrity_chain] *)
Definition _update_integrity_chain (self : AuditTrail) (e : entry) : AuditTrail :=
  Trail (version self) (audit_log self) (event_index self)
        (chain_integrity self ++ [ChainEntry (event_id e) (timestamp e) (chain_hash e)])
        (public_audit_enabled self).

Definition append_entry (self : AuditTrail) (e : entry) : AuditTrail :=
  Trail (version self) (audit_log self ++ [e]) (event_index self)
        (chain_integrity self) (public_audit_enabled self).

(** [log_event]. [now_id] is the clock read by [_generate_event_id],
    [now_ts] the one read for the entry's timestamp. [metadata or {}] maps
    [None] and the empty dict to an empty dict. *)
Definition log_event (now_id now_ts : datetime)
    (event_type : AuditEventType) (description actor : pystr)
    (metadata : option metadata_dict) (sensitivity : pystr)
    (self : AuditTrail) : result (pystr * AuditTrail) :=
  eid ← _generate_event_id self now_id;
  let audit_entry :=
    Entry eid (isoformat now_ts) (value event_type) description actor
          (default [] metadata) sensitivity None in
  h ← _compute_chain_hash self audit_entry None;
  let audit_entry := set_chain_hash audit_entry (Some h) in
  let self := append_entry self audit_entry in
  let self := _index_event self eid event_type in
  let self := _update_integrity_chain self audit_entry in
  Ok (eid, self).

(** [verify_integrity] *)
Record issue := Issue { issue_event_id : pystr; issue_text : pystr }.

Record verification := Verification {
  v_timestamp : pystr;
  total_events : nat;
  integrity_verified : bool;
  issues : list issue }.

Definition flag (v : verification) (e : entry) : verification :=
  Verification (v_timestamp v) (total_events v) false
    (issues v ++ [Issue (event_id e) (py "Chain hash mismatch")]).

(** The body of the [for i, entry in enumerate(self.audit_log)] loop, run on
    the entries from position [i] on. *)
Fixpoint verify_loop (self : AuditTrail) (i : nat) (entries : list entry)
    (v : verification) : result verification :=
  match entries with
  | [] => Ok v
  | e :: rest =>
      expected_hash ←
        _compute_chain_hash self e
          (if (0 <? i)%nat then Some (Z.of_nat i - 1)%Z else None);
      let v := if bool_decide (chain_hash e = Some expected_hash) then v
               else flag v e in
      verify_loop self (S i) rest v
  end.

Definition verify_integrity (self : AuditTrail) (now : datetime)
  : result verification :=
  verify_loop self 0 (audit_log self)
    (Verification (isoformat now) (length (audit_log self)) true []).

(** [query_events]. A filter dict is a finite map from keys to the values
    compared with [==]. *)
Definition apply_filter (filters : gmap (list N) (list N)) (key : pystr)
    (field : entry -> pystr) (results : list entry) : list entry :=
  match filters !! key with
  | Some v => filter (fun e => field e = v) results
  | None => results
  end.

Definition dict_truthy (filters : option (gmap (list N) (list N))) : bool :=
  match filters with
  | None => false
  | Some d => negb (bool_decide (d = ∅))
  end.

Definition query_events (self : AuditTrail)
    (filters : option (gmap (list N) (list N)))
    (start_time end_time : option pystr) : list entry :=
  let results := audit_log self in
  let results :=
    if dict_truthy filters then
      let d := default ∅ filters in
      let results := apply_filter d (py "event_type") event_type results in
      let results := apply_filter d (py "actor") actor results in
      apply_filter d (py "sensitivity") sensitivity results
    else results in
  let results :=
    if truthy start_time then
      filter (fun e => str_ge (timestamp e) (default [] start_time) = true) results
    else results in
  if truthy end_time then
    filter (fun e => str_le (timestamp e) (default [] end_time) = true) results
  else results.

(** [export_public_audit_data]. An exported event is a dict, kept as its
    items in insertion order. *)
Definition public_event (e : entry) : list (pystr * pystr) :=
  [ (py "event_id", event_id e);
    (py "timestamp", timestamp e);
    (py "event_type", event_type e);
    (py "description", description e);
    (py "actor", actor e) ].

Record public_export := PublicExport {
  pe_version : pystr;
  export_timestamp : pystr;
  total_public_events : nat;
  events : list (list (pystr * pystr));
  integrity_status : verification }.

Definition is_public (e : entry) : Prop := sensitivity e = py "public".

Definition export_public_audit_data (self : AuditTrail)
    (now_export now_verify : datetime) : result public_export :=
  let public_events := map public_event (filter is_public (audit_log self)) in
  status ← verify_integrity self now_verify;
  Ok (PublicExport (version self) (isoformat now_export)
        (length public_events) public_events status).

(** [get_statistics] *)
Record statistics := Statistics {
  st_total_events : nat;
  st_event_types : gmap (list N) nat;
  st_public_events : nat;
  st_chain_length : nat;
  oldest_event : option pystr;
  newest_event : option pystr }.

Definition count_event_types (log : list entry) : gmap (list N) nat :=
  fold_left (fun (event_types : gmap (list N) nat) (event : entry) =>
               <[event_type event := default 0%nat (event_types !! event_type event) + 1]>
                 event_types)
            log ∅.

Definition list_truthy {A} (l : list A) : bool :=
  match l with [] => false | _ => true end.

Definition get_statistics (self : AuditTrail) : result statistics :=
  let event_types := count_event_types (audit_log self) in
  let public_events := length (filter is_public (audit_log self)) in
  oldest ←
    (if list_truthy (audit_log self)
     then e ← getitem (audit_log self) 0; Ok (Some (timestamp e))
     else Ok None);
  newest ←
    (if list_truthy (audit_log self)
     then e ← getitem (audit_log self) (-1); Ok (Some (timestamp e))
     else Ok None);
  Ok (Statistics (length (audit_log self)) event_types public_events
        (length (chain_integrity self)) oldest newest).

(** *** Vocabulary of the properties *)

(** A call of [log_event] with the two clock readings it makes. *)
Record call := Call {
  c_now_id : datetime;
  c_now_ts : datetime;
  c_event_type : AuditEventType;
  c_description : pystr;
  c_actor : pystr;
  c_metadata : option metadata_dict;
  c_sensitivity : pystr }.

Definition do_call (c : call) (self : AuditTrail) : result (pystr * AuditTrail) :=
  log_event (c_now_id c) (c_now_ts c) (c_event_type c) (c_description c)
            (c_actor c) (c_metadata c) (c_sensitivity c) self.

(** The states reached from a fresh [AuditTrail()] by calls of [log_event]
    only. *)
Inductive built : AuditTrail -> Prop :=
  | built_init : built init
  | built_log c self eid self' :
      built self -> do_call c self = Ok (eid, self') -> built self'.

(** An assignment [self.audit_log[i][key] = v] to a key other than
    [chain_hash]. *)
Inductive mutation :=
  | SetEventId (v : pystr)
  | SetTimestamp (v : pystr)
  | SetEventType (v : pystr)
  | SetDescription (v : pystr)
  | SetActor (v : pystr)
  | SetMetadata (v : metadata_dict)
  | SetSensitivity (v : pystr).

Definition mutate (m : mutation) (e : entry) : entry :=
  match m with
  | SetEventId v =>
      Entry v (timestamp e) (event_type e) (description e) (actor e)
            (metadata e) (sensitivity e) (chain_hash e)
  | SetTimestamp v =>
      Entry (event_id e) v (event_type e) (description e) (actor e)
            (metadata e) (sensitivity e) (chain_hash e)
  | SetEventType v =>
      Entry (event_id e) (timestamp e) v (description e) (actor e)
            (metadata e) (sensitivity e) (chain_hash e)
  | SetDescription v =>
      Entry (event_id e) (timestamp e) (event_type e) v (actor e)
            (metadata e) (sensitivity e) (chain_hash e)
  | SetActor v =>
      Entry (event_id e) (timestamp e) (event_type e) (description e) v
            (metadata e) (sensitivity e) (chain_hash e)
  | SetMetadata v =>
      Entry (event_id e) (timestamp e) (event_type e) (description e) (actor e)
            v (sensitivity e) (chain_hash e)
  | SetSensitivity v =>
      Entry (event_id e) (timestamp e) (event_type e) (description e) (actor e)
            (metadata e) v (chain_hash e)
  end.

(** The mutation really changes the entry. *)
Definition changes (m : mutation) (e : entry) : Prop := mutate m e <> e.

(** The old and the new value of a mutated [str] field. *)
Definition old_new (m : mutation) (e : entry) : pystr * pystr :=
  match m with
  | SetEventId v => (event_id e, v)
  | SetTimestamp v => (timestamp e, v)
  | SetEventType v => (event_type e, v)
  | SetDescription v => (description e, v)
  | SetActor v => (actor e, v)
  | SetMetadata _ => ([], [])
  | SetSensitivity v => (sensitivity e, v)
  end.

(** The keys that [_compute_chain_hash] copies into [entry_data]. *)
Definition digested (m : mutation) : bool :=
  match m with
  | SetEventId _ | SetTimestamp _ | SetEventType _ | SetDescription _ => true
  | SetActor _ | SetMetadata _ | SetSensitivity _ => false
  end.

(** The assignment made on the entry at position [i]. The properties take
    [i] inside the log; at a position outside it Python raises [IndexError]
    and nothing is assigned, and [tamper] changes nothing. *)
Definition tamper (self : AuditTrail) (i : nat) (m : mutation) : AuditTrail :=
  Trail (version self) (alter (mutate m) i (audit_log self)) (event_index self)
        (chain_integrity self) (public_audit_enabled self).

(** The text hashed when an entry is written, and the text hashed when the
    entry at position [i] of [log] is verified. *)
Definition writer_input (e : entry) : pystr := Json.dumps_sorted (entry_data e).

Definition verifier_data (log : list entry) (i : nat) (e : entry)
  : list (pystr * Json.value) :=
  match i with
  | O => entry_data e
  | S j =>
      match log !! j with
      | Some prev => entry_data e ++ [(py "prev_hash", json_of_hash (chain_hash prev))]
      | None => entry_data e
      end
  end.

Definition verifier_input (log : list entry) (i : nat) (e : entry) : pystr :=
  Json.dumps_sorted (verifier_data log i e).

Definition expected_hash (log : list entry) (i : nat) (e : entry) : pystr :=
  Sha256.hexdigest (verifier_input log i e).

Definition matches (log : list entry) (ie : nat * entry) : Prop :=
  chain_hash ie.2 = Some (expected_hash log ie.1 ie.2).

#[global] Instance matches_dec log ie : Decision (matches log ie).
Proof. unfold matches. apply _. Defined.

Definition mismatching (log : list entry) : list (nat * entry) :=
  filter (fun ie => ~ matches log ie) (imap pair log).

Definition issue_of (ie : nat * entry) : issue :=
  Issue (event_id ie.2) (py "Chain hash mismatch").

(** SHA-256 has collisions, none is known: a statement that needs two given
    messages to hash apart says so with [no_collision]. *)
Definition no_collision (a b : pystr) : Prop :=
  a <> b -> Sha256.hexdigest a <> Sha256.hexdigest b.

(** The event id that [_generate_event_id] returns at a given log length,
    and the entry that [log_event] appends. *)
Definition event_id_at (now : datetime) (count : nat) : pystr :=
  firstn 16 (Sha256.hexdigest (isoformat now ++ py ":" ++ decimal (N.of_nat count))).

Definition stamped (now_id now_ts : datetime) (count : nat)
    (event_type : AuditEventType) (description actor : pystr)
    (metadata : option metadata_dict) (sensitivity : pystr) : entry :=
  let e := Entry (event_id_at now_id count) (isoformat now_ts) (value event_type)
                 description actor (default [] metadata) sensitivity None in
  set_chain_hash e (Some (Sha256.hexdigest (writer_input e))).

(** An entry whose stored hash is the digest of its own four fields, with
    no previous hash. *)
Definition self_stamped (e : entry) : Prop :=
  chain_hash e = Some (Sha256.hexdigest (writer_input e)).

Definition mismatching_from (log : list entry) (i : nat) (rest : list entry)
  : list (nat * entry) :=
  filter (fun ie => ~ matches log ie) (imap (fun k e => ((i + k)%nat, e)) rest).

(** Two entries that [_compute_chain_hash] and [verify_integrity] cannot
    tell apart: same [entry_data], same stored hash. *)
Definition same_digest_view (e e' : entry) : Prop :=
  entry_data e = entry_data e' /\ chain_hash e = chain_hash e'.

(** The serialised [entry_data], field by field: the four digested fields in
    key order, with the [prev_hash] item when there is one. *)
Definition render (d e t : pystr) (prev : option Json.value) (s : pystr) : pystr :=
  pyq "{'description': '" ++ Json.esc d ++ Json.quote ::
  pyq ", 'event_id': '" ++ Json.esc e ++ Json.quote ::
  pyq ", 'event_type': '" ++ Json.esc t ++ Json.quote ::
  match prev with
  | None => pyq ", 'timestamp': '" ++ Json.esc s ++ Json.quote :: py "}"
  | Some v =>
      pyq ", 'prev_hash': " ++ Json.dumps_value v
      ++ pyq ", 'timestamp': '" ++ Json.esc s ++ Json.quote :: py "}"
  end.

(** What [query_events] selects, as the test it applies to one entry: an
    exact match on every key of [filters] among the three it reads, and an
    inclusive bound for every bound that is neither [None] nor the empty
    string. *)
Definition field_ok (filters : option (gmap (list N) (list N))) (key : pystr)
    (x : pystr) : bool :=
  match filters with
  | Some d => match d !! key with
              | Some v => bool_decide (x = v)
              | None => true
              end
  | None => true
  end.

Definition lower_ok (start_time : option pystr) (ts : pystr) : bool :=
  match start_time with
  | Some (c :: s) => str_ge ts (c :: s)
  | _ => true
  end.

Definition upper_ok (end_time : option pystr) (ts : pystr) : bool :=
  match end_time with
  | Some (c :: s) => str_le ts (c :: s)
  | _ => true
  end.

Definition selected (filters : option (gmap (list N) (list N)))
    (start_time end_time : option pystr) (e : entry) : bool :=
  field_ok filters (py "event_type") (event_type e)
  && field_ok filters (py "actor") (actor e)
  && field_ok filters (py "sensitivity") (sensitivity e)
  && lower_ok start_time (timestamp e)
  && upper_ok end_time (timestamp e).

(** *** A session *)

Fixpoint run_calls (cs : list call) (self : AuditTrail) : result AuditTrail :=
  match cs with
  | [] => Ok self
  | c :: r => '(_, self') ← do_call c self; run_calls r self'
  end.

(** The state after the given calls on a fresh trail. *)
Definition after (cs : list call) : AuditTrail :=
  match run_calls cs init with
  | Ok self => self
  | Raise _ => init
  end.

Definition boot_call : call :=
  Call (Datetime 2024 1 2 3 4 5 0) (Datetime 2024 1 2 3 4 5 123)
       SYSTEM_INIT (py "boot") (py "kernel") None (py "public").

Definition decision_call : call :=
  Call (Datetime 2024 1 2 3 4 6 0) (Datetime 2024 1 2 3 4 6 456)
       ETHICAL_DECISION (py "decide") (py "ethics") None (py "internal").

Definition boot_entry : entry :=
  stamped (c_now_id boot_call) (c_now_ts boot_call) 0 SYSTEM_INIT
          (py "boot") (py "kernel") None (py "public").

Definition decision_entry : entry :=
  stamped (c_now_id decision_call) (c_now_ts decision_call) 1 ETHICAL_DECISION
          (py "decide") (py "ethics") None (py "internal").

End AuditSystem.

(** ** verify-chain.py *)

Module VerifyChain.

(** *** The parsed file

    A [float]: plus or minus [mantissa * 2 ** exponent], an infinity, or the
    one [nan] object that [json] returns for every [NaN] of a file. *)
Inductive pyfloat :=
  | Finite (negative : bool) (mantissa : N) (exponent : Z)
  | Infinite (negative : bool)
  | NaN.

(** The value that [json.load] returns: [None], a [bool], an [int], a
    [float], a [str], a list, or a dict, which is kept as its items in
    insertion order (the keys are [str] and distinct: of a key that the file
    repeats, [json] keeps the last value). *)
#[warnings="-register-all"]
Inductive json :=
  | JNull
  | JBool (b : bool)
  | JInt (n : Z)
  | JFloat (x : pyfloat)
  | JString (s : pystr)
  | JArray (items : list json)
  | JObject (members : list (pystr * json)).

(** The failures of [open] and [json.load] that no handler of
    [load_audit_log] catches: an [OSError] other than [FileNotFoundError]
    (a directory, no permission), content that is not text in the encoding
    of the locale, nesting deeper than the interpreter's recursion limit,
    an integer literal longer than the interpreter's limit on digits. *)
Inductive failure := CannotOpen | NotText | TooDeep | IntTooLong.

Definition exception_of (f : failure) : exn :=
  match f with
  | CannotOpen => OSError
  | NotText => UnicodeDecodeError
  | TooDeep => RecursionError
  | IntTooLong => ValueError
  end.

(** What [open] and [json.load] find at a path: no file, a file that cannot
    be loaded for another reason, a file that is not JSON (with the text of
    the decoder's exception), or a value. *)
Inductive file :=
  | Missing
  | Unreadable (f : failure)
  | Malformed (message : pystr)
  | Parsed (data : json).

(** *** The environment

    What the tool prints depends on three things outside its source: the
    [repr] of a [float] and of a [str], which are interpolated when a value
    of the file is a number, a list or a dict, and the code points that
    [sys.stdout] encodes (in a UTF-8 locale all but the surrogates; with the
    [surrogateescape] handler also U+DC80 to U+DCFF; with a legacy code page
    far fewer, and neither the check mark nor the cross). They are the
    parameters of the model. *)
Class Environment := {
  float_repr : pyfloat -> pystr;
  str_repr : pystr -> pystr;
  stdout_encodes : N -> bool }.

(** *** Operations of Python on these values *)

Fixpoint lookup_key (key : pystr) (members : list (pystr * json)) : option json :=
  match members with
  | [] => None
  | (k, v) :: r => if bool_decide (k = key) then Some v else lookup_key key r
  end.

(** [v[key]] for a [str] key: only a dict has such items. *)
Definition subscript (v : json) (key : pystr) : result json :=
  match v with
  | JObject members =>
      match lookup_key key members with
      | Some x => Ok x
      | None => Raise KeyError
      end
  | _ => Raise TypeError
  end.

(** [v[i]] for an [int]: an item of a list, a character of a [str]; no key
    of a dict of the file is an [int]. *)
Definition item (v : json) (i : Z) : result json :=
  match v with
  | JArray items => getitem items i
  | JString s => c ← getitem s i; Ok (JString [c])
  | JObject _ => Raise KeyError
  | _ => Raise TypeError
  end.

(** [len(v)] *)
Definition len (v : json) : result nat :=
  match v with
  | JArray items => Ok (length items)
  | JObject members => Ok (length members)
  | JString s => Ok (length s)
  | _ => Raise TypeError
  end.

(** The values that [enumerate(v)] yields: the items of a list, the keys of
    a dict, the characters of a [str]. *)
Definition iterate (v : json) : result (list json) :=
  match v with
  | JArray items => Ok items
  | JObject members => Ok (map (fun kv => JString kv.1) members)
  | JString s => Ok (map (fun c => JString [c]) s)
  | _ => Raise TypeError
  end.

(** [x == y] on floats, and between a float and an [int]: the values are
    compared exactly; [nan] equals nothing. *)
Definition signed (negative : bool) (m : N) : Z :=
  if negative then (- Z.of_N m)%Z else Z.of_N m.

Definition float_eq (x y : pyfloat) : bool :=
  match x, y with
  | Finite s m e, Finite s' m' e' =>
      let k := Z.min e e' in
      (signed s m * 2 ^ (e - k) =? signed s' m' * 2 ^ (e' - k))%Z
  | Infinite s, Infinite s' => Bool.eqb s s'
  | _, _ => false
  end.

Definition float_eq_int (x : pyfloat) (n : Z) : bool :=
  match x with
  | Finite s m e =>
      if (0 <=? e)%Z then (signed s m * 2 ^ e =? n)%Z
      else (signed s m =? n * 2 ^ (- e))%Z
  | _ => false
  end.

Definition is_nan (v : json) : bool :=
  match v with
  | JFloat NaN => true
  | _ => false
  end.

(** [a == b]. A [bool] is an [int]; numbers compare by value; a [str]
    equals the [str] of the same code points; lists compare item by item
    and dicts key by key, where two items are equal when they are the same
    object or compare equal: the [nan] object is equal to itself inside a
    list or a dict, and not outside. The source's [a != b] is the
    negation. *)
Fixpoint py_eq (a b : json) {struct a} : bool :=
  match a, b with
  | JNull, JNull => true
  | JBool x, JBool y => Bool.eqb x y
  | JBool x, JInt n => (Z.b2z x =? n)%Z
  | JInt n, JBool x => (n =? Z.b2z x)%Z
  | JBool x, JFloat f => float_eq_int f (Z.b2z x)
  | JFloat f, JBool x => float_eq_int f (Z.b2z x)
  | JInt n, JInt m => (n =? m)%Z
  | JInt n, JFloat f => float_eq_int f n
  | JFloat f, JInt n => float_eq_int f n
  | JFloat f, JFloat g => float_eq f g
  | JString s, JString t => bool_decide (s = t)
  | JArray l, JArray m =>
      (fix all2 (l m : list json) {struct l} : bool :=
         match l, m with
         | [], [] => true
         | x :: l', y :: m' =>
             ((is_nan x && is_nan y) || py_eq x y) && all2 l' m'
         | _, _ => false
         end) l m
  | JObject l, JObject m =>
      (length l =? length m)%nat
      && (fix all (l : list (pystr * json)) {struct l} : bool :=
            match l with
            | [] => true
            | (k, x) :: l' =>
                match lookup_key k m with
                | Some y => ((is_nan x && is_nan y) || py_eq x y) && all l'
                | None => false
                end
            end) l
  | _, _ => false
  end.

(** [str(n)] for an [int]. *)
Definition str_int (n : Z) : pystr :=
  if (n <? 0)%Z then py "-" ++ decimal (Z.to_N (- n)) else decimal (Z.to_N n).

(** *** Standard output and exceptions

    A computation takes the text written to standard output so far and
    returns the text written when it stops, with its value or the exception
    it raised. *)

Definition IO (A : Type) : Type := pystr -> pystr * result A.

Definition io_ret {A} (a : A) : IO A := fun out => (out, Ok a).

Definition io_bind {A B} (m : IO A) (k : A -> IO B) : IO B :=
  fun out =>
    match m out with
    | (out', Ok a) => k a out'
    | (out', Raise e) => (out', Raise e)
    end.

Notation "x <- m ;; k" := (io_bind m (fun x => k))
  (at level 100, m at next level, right associativity).
Notation "m ;;; k" := (io_bind m (fun _ => k))
  (at level 100, right associativity).

Definition raise {A} (e : exn) : IO A := fun out => (out, Raise e).

(** A value or an exception of an operation that writes nothing. *)
Definition lift {A} (r : result A) : IO A := fun out => (out, r).

Definition newline : pystr := [10%N].

Definition cross_mark : N := 0x274C.
Definition check_mark : N := 0x2705.
Definition link_symbol : N := 0x1F517.
Definition resonance_seal : pystr := [0x2298; 0x221E; 0x29C8; 0x221E; 0x2298]%N.

Section Program.
Context `{Environment}.

(** [repr(v)], and [str(v)] as an f-string interpolates it: a [str] is
    interpolated as it is, and shown by its [repr] inside a list or a
    dict. *)
Fixpoint repr (v : json) : pystr :=
  match v with
  | JNull => py "None"
  | JBool true => py "True"
  | JBool false => py "False"
  | JInt n => str_int n
  | JFloat x => float_repr x
  | JString s => str_repr s
  | JArray items => py "[" ++ Json.join (py ", ") (map repr items) ++ py "]"
  | JObject members =>
      py "{"
      ++ Json.join (py ", ")
           (map (fun '(k, x) => str_repr k ++ py ": " ++ repr x) members)
      ++ py "}"
  end.

Definition str (v : json) : pystr :=
  match v with
  | JString s => s
  | _ => repr v
  end.

(** Every encoding that standard output can have encodes the newline and
    the ten digits; of the other code points it encodes those that the
    environment says. *)
Definition always_encoded (c : N) : bool :=
  (c =? 10)%N || ((48 <=? c)%N && (c <=? 57)%N).

Definition encodes (s : pystr) : bool :=
  forallb (fun c => always_encoded c || stdout_encodes c) s.

(** [sys.stdout.write(s)] encodes the whole of [s] before it writes any of
    it, and raises [UnicodeEncodeError] when a code point has no encoding;
    [print(s)] writes [s] and then the newline. *)
Definition write (s : pystr) : IO unit :=
  fun out =>
    if encodes s then (out ++ s, Ok tt) else (out, Raise UnicodeEncodeError).

Definition print (s : pystr) : IO unit := write s ;;; write newline.

(** [load_audit_log]: each handler prints its message and re-raises; an
    exception of another class, such as the [TypeError] of subscripting a
    value that is no dict, passes through. The path is printed as given
    ([Path] leaves a normalised relative path unchanged). *)
Definition load_audit_log (path : pystr) (f : file) : IO json :=
  match f with
  | Missing =>
      print (cross_mark :: py " Error: Audit log file not found at " ++ path) ;;;
      raise FileNotFoundError
  | Unreadable e => raise (exception_of e)
  | Malformed message =>
      print (cross_mark :: py " Error: Invalid JSON in audit log: " ++ message) ;;;
      raise JSONDecodeError
  | Parsed data =>
      match subscript data (py "audit_log") with
      | Ok audit_log => io_ret audit_log
      | Raise KeyError =>
          print (cross_mark
                 :: py " Error: Invalid audit log format - missing 'audit_log' key") ;;;
          raise KeyError
      | Raise e => raise e
      end
  end.

(** The body of [for i, entry in enumerate(entries)], run on the values
    from position [i] on; [entries] is the value that is iterated,
    [verified] the flag so far. *)
Fixpoint verify_loop (entries : json) (i : nat) (rest : list json)
    (verified : bool) : IO bool :=
  match rest with
  | [] => io_ret verified
  | entry :: rest' =>
      entry_id <- lift (subscript entry (py "entry_id")) ;;
      current_hash <- lift (subscript entry (py "hash")) ;;
      previous_hash <- lift (subscript entry (py "previous_hash")) ;;
      print (py "Entry " ++ decimal (N.of_nat (i + 1)) ++ py ": " ++ str entry_id) ;;;
      timestamp <- lift (subscript entry (py "timestamp")) ;;
      print (py "  Timestamp: " ++ str timestamp) ;;;
      event_type <- lift (subscript entry (py "event_type")) ;;
      print (py "  Event: " ++ str event_type) ;;;
      print (py "  Hash: " ++ str current_hash) ;;;
      verified' <-
        (if (0 <? i)%nat then
           previous <- lift (item entries (Z.of_nat i - 1)) ;;
           expected_previous <- lift (subscript previous (py "hash")) ;;
           if py_eq previous_hash expected_previous then
             print (py "  " ++ check_mark :: py " Chain link verified") ;;;
             io_ret verified
           else
             print (py "  " ++ cross_mark
                    :: py " VERIFICATION FAILED: Previous hash mismatch") ;;;
             io_ret false
         else
           print (py "  " ++ check_mark :: py " Genesis block") ;;;
           io_ret verified) ;;
      print [] ;;;
      verify_loop entries (S i) rest' verified'
  end.

(** [verify_chain], on the value of [self.audit_log]. *)
Definition verify_chain (audit_log : json) : IO bool :=
  entries <- lift (subscript audit_log (py "entries")) ;;
  print (link_symbol :: py " Verifying OR1ON Audit Chain...") ;;;
  chain_id <- lift (subscript audit_log (py "chain_id")) ;;
  print (py "Chain ID: " ++ str chain_id) ;;;
  genesis <- lift (subscript audit_log (py "genesis_timestamp")) ;;
  print (py "Genesis: " ++ str genesis) ;;;
  total <- lift (len entries) ;;
  print (py "Total Entries: " ++ decimal (N.of_nat total) ++ newline) ;;;
  items <- lift (iterate entries) ;;
  verified <- verify_loop entries 0 items true ;;
  status <- lift (subscript audit_log (py "chain_status")) ;;
  print (newline ++ py "Chain Status:") ;;;
  active <- lift (subscript status (py "active")) ;;
  print (py "  Active: " ++ str active) ;;;
  verified_flag <- lift (subscript status (py "verified")) ;;
  print (py "  Verified: " ++ str verified_flag) ;;;
  public <- lift (subscript status (py "public")) ;;
  print (py "  Public: " ++ str public) ;;;
  (if verified then
     print (newline ++ check_mark :: py " AUDIT CHAIN VERIFICATION SUCCESSFUL") ;;;
     print (resonance_seal ++ py " Chain integrity confirmed")
   else
     print (newline ++ cross_mark :: py " AUDIT CHAIN VERIFICATION FAILED")) ;;;
  io_ret verified.

(** The [__main__] block: the path is the constant ["audit-log.json"], the
    command line is not read, and the value of [verify_chain] is dropped.
    The interpreter exits with status 0 when the block completes and with
    status 1 when an exception escapes it. *)
Definition main_block (fs : list N -> file) : IO unit :=
  let path := py "audit-log.json" in
  audit_log <- load_audit_log path (fs path) ;;
  verify_chain audit_log ;;;
  io_ret tt.

Definition exit_status {A} (r : result A) : Z :=
  match r with
  | Ok _ => 0
  | Raise _ => 1
  end.

Definition main (argv : list (list N)) (fs : list N -> file) : pystr * Z :=
  let '(out, r) := main_block fs [] in (out, exit_status r).

(** *** Vocabulary of the properties *)

(** An entry, and an export, in which the verifier finds what it reads,
    with the values under the keys it reads. *)
Record full_entry := FullEntry {
  f_entry_id : json;
  f_timestamp : json;
  f_event_type : json;
  f_hash : json;
  f_previous_hash : json }.

Record full_log := FullLog {
  f_chain_id : json;
  f_genesis_timestamp : json;
  f_active : json;
  f_verified : json;
  f_public : json;
  f_entries : list full_entry }.

Definition value_of {A} (r : result A) : option A :=
  match r with
  | Ok a => Some a
  | Raise _ => None
  end.

Definition full_of_entry (e : json) : option full_entry :=
  match subscript e (py "entry_id"), subscript e (py "timestamp"),
        subscript e (py "event_type"), subscript e (py "hash"),
        subscript e (py "previous_hash") with
  | Ok i, Ok t, Ok k, Ok h, Ok p => Some (FullEntry i t k h p)
  | _, _, _, _, _ => None
  end.

Fixpoint full_of_entries (es : list json) : option (list full_entry) :=
  match es with
  | [] => Some []
  | e :: r =>
      match full_of_entry e, full_of_entries r with
      | Some f, Some fr => Some (f :: fr)
      | _, _ => None
      end
  end.

(** The export that the verifier reads in a value: the value is a dict with
    the four keys, [chain_status] is a dict with its three keys, and
    [entries] can be iterated and yields dicts with the five keys: a list of
    such dicts or, with no entry, an empty list, dict or [str]. *)
Definition full_of_log (audit_log : json) : option full_log :=
  match subscript audit_log (py "chain_id"),
        subscript audit_log (py "genesis_timestamp"),
        subscript audit_log (py "chain_status"),
        subscript audit_log (py "entries") with
  | Ok c, Ok g, Ok status, Ok entries =>
      match subscript status (py "active"), subscript status (py "verified"),
            subscript status (py "public"),
            value_of (iterate entries) ≫= full_of_entries with
      | Ok a, Ok v, Ok p, Some fes => Some (FullLog c g a v p fes)
      | _, _, _, _ => None
      end
  | _, _, _, _ => None
  end.

(** The export with exactly these keys. *)
Definition entry_of_full (f : full_entry) : json :=
  JObject [ (py "entry_id", f_entry_id f); (py "timestamp", f_timestamp f);
            (py "event_type", f_event_type f); (py "hash", f_hash f);
            (py "previous_hash", f_previous_hash f) ].

Definition log_of_full (l : full_log) : json :=
  JObject [ (py "chain_id", f_chain_id l);
            (py "genesis_timestamp", f_genesis_timestamp l);
            (py "chain_status",
             JObject [ (py "active", f_active l); (py "verified", f_verified l);
                       (py "public", f_public l) ]);
            (py "entries", JArray (map entry_of_full (f_entries l))) ].

(** The file that holds an export under the key [audit_log]. *)
Definition document (audit_log : json) : json :=
  JObject [(py "audit_log", audit_log)].

(** The check made on one entry, given the stored hash of the entry before
    it: none on the first entry, [==] of the stored previous hash with that
    stored hash on the others. *)
Definition link_ok (prev : option json) (e : full_entry) : bool :=
  match prev with
  | None => true
  | Some ph => py_eq (f_previous_hash e) ph
  end.

Fixpoint links_ok (prev : option json) (es : list full_entry) : bool :=
  match es with
  | [] => true
  | e :: r => link_ok prev e && links_ok (Some (f_hash e)) r
  end.

(** The texts that are printed for an export, each by one [print]. *)
Definition link_line (prev : option json) (e : full_entry) : pystr :=
  match prev with
  | None => py "  " ++ check_mark :: py " Genesis block"
  | Some ph =>
      if py_eq (f_previous_hash e) ph
      then py "  " ++ check_mark :: py " Chain link verified"
      else py "  " ++ cross_mark :: py " VERIFICATION FAILED: Previous hash mismatch"
  end.

Definition entry_report (i : nat) (prev : option json) (e : full_entry)
  : list pystr :=
  [ py "Entry " ++ decimal (N.of_nat (i + 1)) ++ py ": " ++ str (f_entry_id e);
    py "  Timestamp: " ++ str (f_timestamp e);
    py "  Event: " ++ str (f_event_type e);
    py "  Hash: " ++ str (f_hash e);
    link_line prev e;
    [] ].

Fixpoint reports (i : nat) (prev : option json) (es : list full_entry)
  : list pystr :=
  match es with
  | [] => []
  | e :: r => entry_report i prev e ++ reports (S i) (Some (f_hash e)) r
  end.

Definition success_line : pystr := check_mark :: py " AUDIT CHAIN VERIFICATION SUCCESSFUL".
Definition failure_line : pystr := cross_mark :: py " AUDIT CHAIN VERIFICATION FAILED".
Definition seal_line : pystr := resonance_seal ++ py " Chain integrity confirmed".

Definition report_texts (l : full_log) : list pystr :=
  [ link_symbol :: py " Verifying OR1ON Audit Chain...";
    py "Chain ID: " ++ str (f_chain_id l);
    py "Genesis: " ++ str (f_genesis_timestamp l);
    py "Total Entries: " ++ decimal (N.of_nat (length (f_entries l))) ++ newline ]
  ++ reports 0 None (f_entries l)
  ++ [ newline ++ py "Chain Status:";
       py "  Active: " ++ str (f_active l);
       py "  Verified: " ++ str (f_verified l);
       py "  Public: " ++ str (f_public l) ]
  ++ (if links_ok None (f_entries l)
      then [newline ++ success_line; seal_line]
      else [newline ++ failure_line]).

(** What [print] writes for each of some texts in turn, when all are
    encoded; the texts that are printed before the first that is not. *)
Definition unlines (texts : list pystr) : pystr :=
  flat_map (fun text => text ++ newline) texts.

Fixpoint encoded_prefix (texts : list pystr) : list pystr :=
  match texts with
  | [] => []
  | text :: r => if encodes text then text :: encoded_prefix r else []
  end.

(** The whole report of an export. *)
Definition chain_report (l : full_log) : pystr := unlines (report_texts l).

(** The lines of a text: its parts that end in a newline, and what follows
    the last newline when that is not empty. *)
Fixpoint lines_from (line : pystr) (text : pystr) : list pystr :=
  match text with
  | [] => match line with [] => [] | _ => [line] end
  | c :: r =>
      if (c =? 10)%N then line :: lines_from [] r
      else lines_from (line ++ [c]) r
  end.

Definition lines (text : pystr) : list pystr := lines_from [] text.

(** A text that holds no line boundary: neither the newline nor another of
    the characters at which [str.splitlines] breaks a line. *)
Definition line_break (c : N) : bool :=
  existsb (N.eqb c) [10; 11; 12; 13; 28; 29; 30; 133; 0x2028; 0x2029]%N.

Definition single_line (text : pystr) : bool :=
  forallb (fun c => negb (line_break c)) text.

(** The lines of the report of an export whose printed values hold no
    line boundary. *)
Definition report_lines (l : full_log) : list pystr :=
  [ link_symbol :: py " Verifying OR1ON Audit Chain...";
    py "Chain ID: " ++ str (f_chain_id l);
    py "Genesis: " ++ str (f_genesis_timestamp l);
    py "Total Entries: " ++ decimal (N.of_nat (length (f_entries l)));
    [] ]
  ++ reports 0 None (f_entries l)
  ++ [ [];
       py "Chain Status:";
       py "  Active: " ++ str (f_active l);
       py "  Verified: " ++ str (f_verified l);
       py "  Public: " ++ str (f_public l);
       [] ]
  ++ (if links_ok None (f_entries l)
      then [success_line; seal_line]
      else [failure_line]).

(** The values of an export that the report interpolates. *)
Definition printed_values (l : full_log) : list json :=
  [f_chain_id l; f_genesis_timestamp l; f_active l; f_verified l; f_public l]
  ++ flat_map (fun e => [f_entry_id e; f_timestamp e; f_event_type e; f_hash e])
       (f_entries l).

(** Printing some texts in turn, and then running [k]. *)
Fixpoint printing {A} (texts : list pystr) (k : IO A) : IO A :=
  match texts with
  | [] => k
  | text :: r => print text ;;; printing r k
  end.

(** Two exports that differ only in the stored hash of their single entry. *)
Definition forged_entry (h : pystr) : full_entry :=
  FullEntry (JString (py "e-1"))
            (JString (py "2024-01-02T03:04:05"))
            (JString (py "system_initialization"))
            (JString h)
            (JString []).

Definition forged_full (h : pystr) : full_log :=
  FullLog (JString (py "or1on")) (JString (py "2024-01-02T03:04:05"))
          (JBool true) (JBool true) (JBool true)
          [forged_entry h].

Definition forged_log (h : pystr) : json := log_of_full (forged_full h).

(** The claim that an accepted export has, in every entry, the hash that
    some digest function gives for the entry's other fields. *)
Definition rederives_digests : Prop :=
  exists digest : json -> json -> json -> json -> json,
    forall audit_log out out' l e,
      verify_chain audit_log out = (out', Ok true) ->
      full_of_log audit_log = Some l -> e ∈ f_entries l ->
      f_hash e = digest (f_entry_id e) (f_timestamp e) (f_event_type e)
                        (f_previous_hash e).

(** An export whose second entry does not name the hash of the first, and the
    file system that holds it at the path the tool reads. *)
Definition broken_log : json :=
  log_of_full
    (FullLog (JString (py "or1on")) (JString (py "2024-01-02T03:04:05"))
             (JBool true) (JBool true) (JBool true)
             [ forged_entry (py "aaaa");
               FullEntry (JString (py "e-2"))
                         (JString (py "2024-01-02T03:04:06"))
                         (JString (py "ethical_decision"))
                         (JString (py "cccc"))
                         (JString (py "bbbb")) ]).

Definition broken_fs (path : list N) : file :=
  if bool_decide (path = py "audit-log.json")
  then Parsed (document broken_log)
  else Missing.

(** An export whose first entry has no [previous_hash] key. *)
Definition genesis_without_previous_hash : json :=
  JObject [ (py "chain_id", JString (py "or1on"));
            (py "genesis_timestamp", JString (py "2024-01-02T03:04:05"));
            (py "chain_status",
             JObject [ (py "active", JBool true); (py "verified", JBool true);
                       (py "public", JBool true) ]);
            (py "entries",
             JArray [ JObject [ (py "entry_id", JString (py "e-1"));
                                (py "timestamp", JString (py "2024-01-02T03:04:05"));
                                (py "event_type", JString (py "system_initialization"));
                                (py "hash", JString (py "aaaa")) ] ]) ].

End Program.

(** An environment for the examples: standard output in UTF-8 with the
    default error handler, which encodes every code point but the
    surrogates. The examples hold no float and print no list or dict, so
    that neither [repr] is called; both are set to return the empty text. *)
Definition utf8_stdout : Environment :=
  {| float_repr := fun _ => [];
     str_repr := fun _ => [];
     stdout_encodes := fun c => bool_decide (scalar c) |}.

End VerifyChain.

(** ** Further vocabulary for audit_system.py *)

Module AuditVocabulary.
Import AuditSystem.

(** The characters of [hexdigest()]: [0-9a-f]. *)
Definition is_hex_digit (c : N) : Prop :=
  (48 <= c /\ c <= 57 \/ 97 <= c /\ c <= 102)%N.

#[global] Instance is_hex_digit_dec c : Decision (is_hex_digit c).
Proof. unfold is_hex_digit. apply _. Defined.

Definition hex_text (n : nat) (s : pystr) : Prop :=
  length s = n /\ Forall is_hex_digit s.

(** The item that [_update_integrity_chain] appends for an entry. *)
Definition chain_entry_of (e : entry) : chain_entry :=
  ChainEntry (event_id e) (timestamp e) (chain_hash e).

(** The entries of one event type, and their ids in log order. *)
Definition of_type (k : pystr) (log : list entry) : list entry :=
  filter (fun e => event_type e = k) log.

Definition ids_of_type (k : pystr) (log : list entry) : list pystr :=
  map event_id (of_type k log).

(** What a dict that holds a non-empty list or a positive count per key
    answers for a key. *)
Definition nonempty {A} (l : list A) : option (list A) :=
  match l with [] => None | _ => Some l end.

Definition positive (n : nat) : option nat :=
  match n with O => None | _ => Some n end.

(** The issue that [verify_integrity] appends for an entry. *)
Definition mismatch_issue (e : entry) : issue :=
  Issue (event_id e) (py "Chain hash mismatch").

(** An assignment [self.audit_log[i]["chain_hash"] = h]; at a position
    outside the log Python raises [IndexError] and nothing is assigned. *)
Definition overwrite_hash (self : AuditTrail) (i : nat) (h : option pystr)
  : AuditTrail :=
  Trail (version self) (alter (fun e => set_chain_hash e h) i (audit_log self))
        (event_index self) (chain_integrity self) (public_audit_enabled self).

(** [del self.audit_log[n:]]: the log cut back to its first [n] entries. *)
Definition truncate (self : AuditTrail) (n : nat) : AuditTrail :=
  Trail (version self) (take n (audit_log self)) (event_index self)
        (chain_integrity self) (public_audit_enabled self).

(** The index that [verify_integrity] passes to [_compute_chain_hash] for
    the entry at position [i]. *)
Definition prev_index (i : nat) : option Z :=
  if (0 <? i)%nat then Some (Z.of_nat i - 1)%Z else None.

(** The values of the four keys that [_compute_chain_hash] copies. *)
Definition digested_fields (e : entry) : list pystr :=
  [event_id e; timestamp e; event_type e; description e].

(** The fields of a datetime from the most to the least significant, and
    the order of datetimes in time: the lexicographic order of the
    fields. *)
Definition fields (d : datetime) : list N :=
  [year d; month d; day d; hour d; minute d; second d; microsecond d].

Fixpoint lex_le (a b : list N) : bool :=
  match a, b with
  | x :: a', y :: b' =>
      if (x <? y)%N then true else if (y <? x)%N then false else lex_le a' b'
  | _, _ => true
  end.

Definition not_after (d1 d2 : datetime) : bool := lex_le (fields d1) (fields d2).

(** The fields fit the widths that [isoformat] prints them in, as they do
    for every [datetime] of Python (years 1 to 9999). *)
Definition in_range (d : datetime) : Prop :=
  (year d < 10000 /\ month d < 100 /\ day d < 100 /\ hour d < 100
   /\ minute d < 100 /\ second d < 100 /\ microsecond d < 1000000)%N.

(** The [w] decimal digits of [n], most significant first. *)
Fixpoint digits (w : nat) (n : N) : pystr :=
  match w with
  | O => []
  | S w' => digits w' (n / 10) ++ [digit (n mod 10)]
  end.

(** The entry that [log_event] appends for a call made when the log has
    [i] entries. *)
Definition entry_of_call (i : nat) (c : call) : entry :=
  stamped (c_now_id c) (c_now_ts c) i (c_event_type c) (c_description c)
          (c_actor c) (c_metadata c) (c_sensitivity c).

End AuditVocabulary.

(** ** Further vocabulary for verify-chain.py *)

Module ChainVocabulary.
Import VerifyChain.

(** The same export with other entries. *)
Definition with_entries (l : full_log) (es : list full_entry) : full_log :=
  FullLog (f_chain_id l) (f_genesis_timestamp l) (f_active l) (f_verified l)
          (f_public l) es.

(** The stored hash that the entry at position [i] is compared with. *)
Definition stored_before (es : list full_entry) (i : nat) : option json :=
  match i with
  | O => None
  | S j => f_hash <$> es !! j
  end.

(** A line other than a given line [v]; a printed text none of whose lines
    is [v]; computations that print only such texts, always ([plainly]) or
    whenever they raise ([quiet]). *)
Definition plain (v line : pystr) : Prop := line <> v.

Definition plain_text (v text : pystr) : Prop :=
  Forall (plain v) (lines (text ++ newline)).

Definition plainly {A} (v : pystr) (m : IO A) : Prop :=
  forall out, exists texts,
    (m out).1 = out ++ unlines texts /\ Forall (plain_text v) texts.

Definition quiet {A} (v : pystr) (m : IO A) : Prop :=
  forall out, exists texts,
    (m out).1 = out ++ unlines texts
    /\ ((exists e, (m out).2 = Raise e) -> Forall (plain_text v) texts).

(** The values that the tool interpolates in what it prints for an export,
    whatever the shape of the export: those it finds under the keys it
    reads. *)
Definition member (v : json) (key : pystr) : list json :=
  match subscript v key with
  | Ok x => [x]
  | Raise _ => []
  end.

Definition items_of (v : json) : list json :=
  match iterate v with
  | Ok items => items
  | Raise _ => []
  end.

Definition interpolated (audit_log : json) : list json :=
  member audit_log (py "chain_id")
  ++ member audit_log (py "genesis_timestamp")
  ++ flat_map (fun entries =>
                 flat_map (fun e => member e (py "entry_id")
                                    ++ member e (py "timestamp")
                                    ++ member e (py "event_type")
                                    ++ member e (py "hash"))
                          (items_of entries))
              (member audit_log (py "entries"))
  ++ flat_map (fun status => member status (py "active")
                             ++ member status (py "verified")
                             ++ member status (py "public"))
              (member audit_log (py "chain_status")).

Section Reports.
Context `{Environment}.

(** The first text printed for the entry at position [i]. *)
Definition entry_line (i : nat) (e : full_entry) : pystr :=
  py "Entry " ++ decimal (N.of_nat (i + 1)) ++ py ": " ++ str (f_entry_id e).

(** A file in which no text that the tool interpolates holds a line
    boundary: the message of the decoder, the values found under the keys
    that are read. *)
Definition single_lined (f : file) : Prop :=
  match f with
  | Missing | Unreadable _ => True
  | Malformed message => single_line message = true
  | Parsed data =>
      forallb (fun v => single_line (str v))
              (flat_map interpolated (member data (py "audit_log"))) = true
  end.

End Reports.

(** The messages of the three handlers of [load_audit_log]. *)
Definition not_found_message (path : pystr) : pystr :=
  cross_mark :: py " Error: Audit log file not found at " ++ path.

Definition invalid_json_message (message : pystr) : pystr :=
  cross_mark :: py " Error: Invalid JSON in audit log: " ++ message.

Definition missing_key_message : pystr :=
  cross_mark :: py " Error: Invalid audit log format - missing 'audit_log' key".

(** What a run has written when it printed nothing but one text, if
    standard output encodes it. *)
Definition written `{Environment} (text : pystr) : pystr :=
  if encodes text then text ++ newline else [].

(** An export of two entries, the second naming the stored hash of the
    first; and the same two hash columns under other labels, another first
    [previous_hash] and a declared status of [False]. *)
Definition linked_full : full_log :=
  FullLog (JString (py "or1on")) (JString (py "2024-01-02T03:04:05"))
          (JBool true) (JBool true) (JBool true)
          [ forged_entry (py "aaaa");
            FullEntry (JString (py "e-2"))
                      (JString (py "2024-01-02T03:04:06"))
                      (JString (py "ethical_decision"))
                      (JString (py "cccc"))
                      (JString (py "aaaa")) ].

Definition relabelled_full : full_log :=
  FullLog JNull (JString (py "1970-01-01T00:00:00"))
          (JBool false) (JBool false) (JBool false)
          [ FullEntry JNull JNull JNull
                      (JString (py "aaaa")) (JString (py "zzzz"));
            FullEntry (JString (py "x")) JNull (JBool true)
                      (JString (py "cccc")) (JString (py "aaaa")) ].

(** A file system whose export has no [previous_hash] in its first entry. *)
Definition keyless_fs (path : list N) : file :=
  if bool_decide (path = py "audit-log.json")
  then Parsed (document genesis_without_previous_hash)
  else Missing.

(** A file system whose export has no [chain_status], and a [chain_id] of
    two lines, the second of which reads as the line of a successful
    verification. *)
Definition mimicking_fs (path : list N) : file :=
  if bool_decide (path = py "audit-log.json")
  then Parsed (document
                 (JObject [ (py "chain_id",
                             JString (py "x" ++ newline ++ success_line));
                            (py "genesis_timestamp",
                             JString (py "2024-01-02T03:04:05"));
                            (py "entries", JArray []) ]))
  else Missing.

(** An export whose single entry has an id that is a lone surrogate, which
    UTF-8 does not encode; one whose [entries] is a number. *)
Definition surrogate_full : full_log :=
  FullLog (JString (py "or1on")) (JString (py "2024-01-02T03:04:05"))
          (JBool true) (JBool true) (JBool true)
          [ FullEntry (JString [0xD83D%N])
                      (JString (py "2024-01-02T03:04:05"))
                      (JString (py "system_initialization"))
                      (JString (py "aaaa"))
                      (JString []) ].

Definition numbered_log : json :=
  JObject [ (py "chain_id", JString (py "or1on"));
            (py "genesis_timestamp", JString (py "2024-01-02T03:04:05"));
            (py "chain_status",
             JObject [ (py "active", JBool true); (py "verified", JBool true);
                       (py "public", JBool true) ]);
            (py "entries", JInt 5) ].

End ChainVocabulary.

(** ** public_interface.py

    [PublicAuditInterface] is the caller of the audit trail: it reads
    [get_statistics], [query_events] and [verify_integrity] of the
    [AuditTrail] object it was given. That object is shared with the code
    that logs events, so it is part of the state the interface runs in, next
    to the interface's own attributes. [hasattr(self.audit_trail, ...)] holds
    for an [AuditTrail]. The kernel is read only through its [version]
    attribute ([None]: it has none). The methods that read the memory kernel
    ([get_memory_audit_data], [get_real_world_links_summary]) and the
    constant [get_proof_verification_stats] are not embedded. *)

Module PublicInterface.
Import AuditSystem.

Record access_entry := AccessEntry {
  a_timestamp : pystr;
  access_type : pystr;
  a_description : pystr }.

(** The clock is a sequence of readings: [ticks] counts the calls of
    [datetime.utcnow()] made so far. *)
Record state := State {
  clock : nat -> datetime;
  ticks : nat;
  audit_trail : AuditTrail;
  pi_version : pystr;
  kernel_version : option pystr;
  access_log : list access_entry }.

(** [PublicAuditInterface(audit_trail, kernel, memory_kernel)] *)
Definition init (clock : nat -> datetime) (audit_trail : AuditTrail)
    (kernel_version : option pystr) : state :=
  State clock 0 audit_trail (py "1.0.0") kernel_version [].

(** A method: it changes the state and returns or raises. *)
Definition M (A : Type) : Type := state -> state * result A.

Definition ret {A} (a : A) : M A := fun s => (s, Ok a).

Definition bind {A B} (m : M A) (k : A -> M B) : M B :=
  fun s =>
    match m s with
    | (s', Ok a) => k a s'
    | (s', Raise e) => (s', Raise e)
    end.

Notation "x <- m ;; k" := (bind m (fun x => k))
  (at level 100, m at next level, right associativity).
Notation "m ;;; k" := (bind m (fun _ => k))
  (at level 100, right associativity).

Definition utcnow : M datetime :=
  fun s => (State (clock s) (S (ticks s)) (audit_trail s) (pi_version s)
                  (kernel_version s) (access_log s),
            Ok (clock s (ticks s))).

(** Reading an attribute of [self], and calling a method of the trail. *)
Definition attribute {A} (f : state -> A) : M A := fun s => (s, Ok (f s)).

Definition on_trail {A} (f : AuditTrail -> result A) : M A :=
  fun s => (s, f (audit_trail s)).

Definition set_access_log (log : list access_entry) : M unit :=
  fun s => (State (clock s) (ticks s) (audit_trail s) (pi_version s)
                  (kernel_version s) log, Ok tt).

(** The slice [l[i:]]: a negative [i] counts from the end, and the start is
    clipped to the list. *)
Definition slice_from {A} (i : Z) (l : list A) : list A :=
  let len := Z.of_nat (length l) in
  let start := if (i <? 0)%Z then Z.max (len + i) 0 else Z.min i len in
  drop (Z.to_nat start) l.

(** [_log_access] *)
Definition _log_access (access_type description : pystr) : M unit :=
  now <- utcnow ;;
  let log_entry := AccessEntry (isoformat now) access_type description in
  access_log <- attribute access_log ;;
  let access_log := access_log ++ [log_entry] in
  if (10000 <? Z.of_nat (length access_log))%Z
  then set_access_log (slice_from (-10000) access_log)
  else set_access_log access_log.

(** [get_system_status] *)
Record system_status := SystemStatus {
  ss_timestamp : pystr;
  system_version : pystr;
  operational_status : pystr;
  audit_trail_enabled : bool;
  transparency_level : pystr }.

Definition get_system_status : M system_status :=
  now <- utcnow ;;
  kernel_version <- attribute kernel_version ;;
  let status :=
    SystemStatus (isoformat now) (default (py "unknown") kernel_version)
                 (py "active") true (py "full") in
  _log_access (py "SYSTEM_STATUS") (py "Public system status query") ;;;
  ret status.

(** [str(n)] for an [int], and the text of [{time_window}] in an f-string
    for an [Optional[int]]. *)
Definition str_int (z : Z) : pystr :=
  if (z <? 0)%Z then py "-" ++ decimal (Z.to_N (- z)) else decimal (Z.to_N z).

Definition format_optional_int (o : option Z) : pystr :=
  match o with
  | None => py "None"
  | Some z => str_int z
  end.

(** [get_audit_summary(time_window=24)] *)
Record audit_summary := AuditSummary {
  as_timestamp : pystr;
  time_window_hours : option Z;
  audit_statistics : statistics }.

Definition get_audit_summary (time_window : option Z) : M audit_summary :=
  now <- utcnow ;;
  audit_statistics <- on_trail get_statistics ;;
  _log_access (py "AUDIT_SUMMARY")
    (py "Audit summary requested for " ++ format_optional_int time_window
     ++ py "h window") ;;;
  ret (AuditSummary (isoformat now) time_window audit_statistics).

(** [get_ethical_compliance_report] *)
Record compliance_report := ComplianceReport {
  cr_timestamp : pystr;
  compliance_status : pystr;
  active_protocols : list pystr;
  recent_evaluations : list pystr }.

Definition get_ethical_compliance_report : M compliance_report :=
  now <- utcnow ;;
  let report :=
    ComplianceReport (isoformat now) (py "compliant")
      [ py "transparency"; py "accountability"; py "harm_prevention";
        py "privacy_preservation"; py "fairness" ] [] in
  _log_access (py "ETHICAL_REPORT") (py "Ethical compliance report requested") ;;;
  ret report.

(** [get_sentient_systems_status]: the inner dicts are kept as their items. *)
Record sentient_status := SentientStatus {
  sn_timestamp : pystr;
  sentient_systems : list (pystr * list (pystr * pystr)) }.

Definition get_sentient_systems_status : M sentient_status :=
  now <- utcnow ;;
  let status :=
    SentientStatus (isoformat now)
      [ (py "eira",
         [ (py "status", py "active"); (py "mode", py "emergent");
           (py "public_info", py "Emergent Intelligence with Resonant Awareness") ]);
        (py "orion",
         [ (py "status", py "active"); (py "mode", py "emergent");
           (py "public_info",
            py "Omniscient Reasoning Intelligence and Observation Network") ]) ] in
  _log_access (py "SENTIENT_STATUS") (py "Sentient systems status requested") ;;;
  ret status.

(** *** [query_public_events]

    A filter dict is a Python object: [filters or {}] is the caller's dict
    itself when that dict is not empty, and a new dict otherwise, and the
    assignment of the [sensitivity] key is made on that object. The dicts
    of one call live in a store, a reference is a position in it; the
    caller's dict, when there is one, is at position 0. A dict is its items
    in insertion order. *)
Definition dict := list (pystr * pystr).

(** [d[k] = v] *)
Fixpoint setitem (k v : pystr) (d : dict) : dict :=
  match d with
  | [] => [(k, v)]
  | (k', v') :: r =>
      if bool_decide (k' = k) then (k', v) :: r else (k', v') :: setitem k v r
  end.

Definition as_filters (d : dict) : gmap (list N) (list N) := list_to_map d.

(** [filters or {}], given the reference of [filters] when it is a dict. *)
Definition or_new_dict (filters : option nat) (store : list dict) : nat * list dict :=
  match filters with
  | Some r =>
      match store !! r with
      | Some (_ :: _) => (r, store)
      | _ => (length store, store ++ [[]])
      end
  | None => (length store, store ++ [[]])
  end.

Record public_events := PublicEvents {
  pe_timestamp : pystr;
  filters_applied : nat;
  pe_events : list entry }.

(** The text of [{filters}] in an f-string: [None], or the [repr] of the
    dict. [repr] of a [str] depends on the Unicode database; the [repr] of
    a dict is a parameter of the model. *)
Definition format_filters (repr : dict -> pystr) (filters : option dict) : pystr :=
  match filters with
  | None => py "None"
  | Some d => repr d
  end.

(** [query_public_events(filters)] returns the dict of the source, with the
    final store in which its [filters_applied] reference is read. *)
Definition query_public_events (repr : dict -> pystr) (filters : option dict)
  : M (public_events * list dict) :=
  let store := match filters with Some d => [d] | None => [] end in
  let caller := match filters with Some _ => Some 0%nat | None => None end in
  now <- utcnow ;;
  let '(applied, store) := or_new_dict caller store in
  let '(public_filters, store) := or_new_dict caller store in
  let store := alter (setitem (py "sensitivity") (py "public")) public_filters store in
  events <- on_trail (fun trail =>
              Ok (query_events trail
                    (as_filters <$> store !! public_filters) None None)) ;;
  _log_access (py "PUBLIC_EVENTS")
    (py "Public events queried with filters: "
     ++ format_filters repr (caller ≫= fun r => store !! r)) ;;;
  ret (PublicEvents (isoformat now) applied events, store).

(** [verify_system_integrity] *)
Record integrity_verification := IntegrityVerification {
  iv_timestamp : pystr;
  integrity_check : pystr;
  iv_result : verification }.

Definition verify_system_integrity : M integrity_verification :=
  now <- utcnow ;;
  now_verify <- utcnow ;;
  result <- on_trail (fun trail => verify_integrity trail now_verify) ;;
  _log_access (py "INTEGRITY_CHECK") (py "System integrity verification performed") ;;;
  ret (IntegrityVerification (isoformat now) (py "completed") result).

(** [get_public_audit_report] *)
Record public_audit_report := PublicAuditReport {
  pr_timestamp : pystr;
  report_version : pystr;
  pr_system_status : system_status;
  pr_audit_summary : audit_summary;
  ethical_compliance : compliance_report;
  pr_sentient_systems : sentient_status;
  pr_integrity_verification : integrity_verification }.

Definition get_public_audit_report : M public_audit_report :=
  now <- utcnow ;;
  report_version <- attribute pi_version ;;
  system_status <- get_system_status ;;
  audit_summary <- get_audit_summary (Some 24%Z) ;;
  ethical_compliance <- get_ethical_compliance_report ;;
  sentient_systems <- get_sentient_systems_status ;;
  integrity_verification <- verify_system_integrity ;;
  _log_access (py "FULL_REPORT") (py "Comprehensive public audit report generated") ;;;
  ret (PublicAuditReport (isoformat now) report_version system_status audit_summary
         ethical_compliance sentient_systems integrity_verification).

(** [get_access_statistics] *)
Record access_statistics := AccessStatistics {
  total_accesses : nat;
  access_by_type : gmap (list N) nat;
  xs_timestamp : pystr }.

Definition count_access_types (log : list access_entry) : gmap (list N) nat :=
  fold_left (fun (access_types : gmap (list N) nat) (entry : access_entry) =>
               <[access_type entry := default 0%nat (access_types !! access_type entry) + 1]>
                 access_types)
            log ∅.

Definition get_access_statistics : M access_statistics :=
  access_log <- attribute access_log ;;
  let access_types := count_access_types access_log in
  now <- utcnow ;;
  ret (AccessStatistics (length access_log) access_types (isoformat now)).

(** *** Vocabulary of the properties *)

(** A call of one of the methods above, with its result dropped. *)
Inductive request :=
  | GetSystemStatus
  | GetAuditSummary (time_window : option Z)
  | GetEthicalComplianceReport
  | GetSentientSystemsStatus
  | QueryPublicEvents (repr : dict -> pystr) (filters : option dict)
  | VerifySystemIntegrity
  | GetPublicAuditReport
  | GetAccessStatistics.

Definition serve (q : request) : M unit :=
  match q with
  | GetSystemStatus => get_system_status ;;; ret tt
  | GetAuditSummary w => get_audit_summary w ;;; ret tt
  | GetEthicalComplianceReport => get_ethical_compliance_report ;;; ret tt
  | GetSentientSystemsStatus => get_sentient_systems_status ;;; ret tt
  | QueryPublicEvents repr filters => query_public_events repr filters ;;; ret tt
  | VerifySystemIntegrity => verify_system_integrity ;;; ret tt
  | GetPublicAuditReport => get_public_audit_report ;;; ret tt
  | GetAccessStatistics => get_access_statistics ;;; ret tt
  end.

(** The access types a call records, in order. *)
Definition recorded (q : request) : list pystr :=
  match q with
  | GetSystemStatus => [py "SYSTEM_STATUS"]
  | GetAuditSummary _ => [py "AUDIT_SUMMARY"]
  | GetEthicalComplianceReport => [py "ETHICAL_REPORT"]
  | GetSentientSystemsStatus => [py "SENTIENT_STATUS"]
  | QueryPublicEvents _ _ => [py "PUBLIC_EVENTS"]
  | VerifySystemIntegrity => [py "INTEGRITY_CHECK"]
  | GetPublicAuditReport =>
      [ py "SYSTEM_STATUS"; py "AUDIT_SUMMARY"; py "ETHICAL_REPORT";
        py "SENTIENT_STATUS"; py "INTEGRITY_CHECK"; py "FULL_REPORT" ]
  | GetAccessStatistics => []
  end.

(** The last [n] items of a list, and the limit of the access log. *)
Definition newest {A} (n : nat) (l : list A) : list A := drop (length l - n) l.

Definition limit : nat := Z.to_nat 10000.

(** The state after [k] more clock readings, with a new access log. *)
Definition later (s : state) (k : nat) (log : list access_entry) : state :=
  State (clock s) (k + ticks s) (audit_trail s) (pi_version s) (kernel_version s) log.

(** The entry that [_log_access] writes at the clock reading [k]. *)
Definition logged (s : state) (k : nat) (access_type description : pystr)
  : access_entry :=
  AccessEntry (isoformat (clock s k)) access_type description.

(** The entries of one access type. *)
Definition of_access_type (k : pystr) (log : list access_entry) : list access_entry :=
  filter (fun a => access_type a = k) log.

(** The test that [query_public_events] makes on an entry for the caller's
    filters: [event_type] and [actor] as given, [sensitivity] public. *)
Definition publicly_selected (filters : option dict) (e : entry) : Prop :=
  (forall v, (filters ≫= fun d => as_filters d !! py "event_type") = Some v
             -> event_type e = v)
  /\ (forall v, (filters ≫= fun d => as_filters d !! py "actor") = Some v
                -> actor e = v)
  /\ sensitivity e = py "public".

(** The store and the [filters_applied] reference that
    [query_public_events] ends with, and the dict that its f-string
    formats, by the caller's argument. *)
Definition final_store (filters : option dict) : nat * list dict :=
  match filters with
  | None => (0%nat, [[]; [(py "sensitivity", py "public")]])
  | Some [] => (1%nat, [[]; []; [(py "sensitivity", py "public")]])
  | Some (kv :: d) => (0%nat, [setitem (py "sensitivity") (py "public") (kv :: d)])
  end.

Definition formatted (filters : option dict) : option dict :=
  match filters with
  | None => None
  | Some [] => Some []
  | Some (kv :: d) => Some (setitem (py "sensitivity") (py "public") (kv :: d))
  end.

(** A clock for the examples: one microsecond per reading. *)
Definition noon (n : nat) : datetime := Datetime 2024 1 2 12 0 0 (N.of_nat n).

End PublicInterface.

(** The digest, the serialiser, the encoder and the clock format are not to
    be unfolded by [simpl]: they are reasoned about through their lemmas. *)
Arguments Sha256.hexdigest : simpl never.
Arguments Json.dumps_sorted : simpl never.
Arguments Utf8.encode : simpl never.
Arguments isoformat : simpl never.
Arguments decimal : simpl never.
Arguments py : simpl never.
Arguments pyq : simpl never.

(** * Facts

    ** Test vectors for the library functions *)

Example first_and_last_round_constant :
  nth 0 Sha256.round_constants 0%N = 0x428a2f98%N
  /\ nth 63 Sha256.round_constants 0%N = 0xc67178f2%N
  /\ Sha256.ra Sha256.initial_hash = 0x6a09e667%N
  /\ Sha256.rh Sha256.initial_hash = 0x5be0cd19%N.
Proof. repeat split; reflexivity. Qed.

Example sha256_abc :
  Sha256.hexdigest (py "abc")
  = py "ba7816bf8f01cfea414140de5dae2223b00361a396177a9cb410ff61f20015ad".
Proof. vm_compute. reflexivity. Qed.

Example sha256_empty :
  Sha256.hexdigest []
  = py "e3b0c44298fc1c149afbf4c8996fb92427ae41e4649b934ca495991b7852b855".
Proof. vm_compute. reflexivity. Qed.

Example sha256_two_blocks :
  Sha256.hexdigest (py "abcdbcdecdefdefgefghfghighijhijkijkljklmklmnlmnomnopnopq")
  = py "248d6a61d20638b8e5c026930c3e6039a33ce45964ff2167f6ecedd419db06c1".
Proof. vm_compute. reflexivity. Qed.

Example dumps_example :
  Json.dumps_sorted
    [ (py "event_id", Json.JString (py "ab12"));
      (py "timestamp", Json.JString (py "2024-01-01T00:00:00"));
      (py "event_type", Json.JString (py "kernel_operation"));
      (py "description", Json.JString [34; 113; 92; 10; 233; 0x1F600]%N) ]
  = pyq "{'description': '\'q\\\n\u00e9\ud83d\ude00', 'event_id': 'ab12', 'event_type': 'kernel_operation', 'timestamp': '2024-01-01T00:00:00'}".
Proof. vm_compute. reflexivity. Qed.

Example dumps_null_and_controls :
  Json.dumps_sorted
    [ (py "b", Json.JString [127; 31; 0xD83D]%N); (py "a", Json.JNull) ]
  = pyq "{'a': null, 'b': '\u007f\u001f\ud83d'}".
Proof. vm_compute. reflexivity. Qed.

(** ** The hashed text is ASCII, so encoding it never fails *)

Ltac ascii_literal := apply (bool_decide_unpack _); vm_compute; reflexivity.

Lemma ascii_text_app a b : ascii_text a -> ascii_text b -> ascii_text (a ++ b).
Proof. apply Forall_app_2. Qed.

Lemma encode_cons c r :
  Utf8.encode (c :: r)
  = (b ← Utf8.encode_char c; bs ← Utf8.encode r; Ok (b ++ bs)).
Proof. reflexivity. Qed.

Lemma encode_ascii s : ascii_text s -> Utf8.encode s = Ok s.
Proof.
  induction 1 as [|c r Hc _ IH]; [reflexivity|].
  rewrite encode_cons, IH. unfold Utf8.encode_char.
  destruct (N.ltb_spec c 128) as [_|?]; [|lia].
  reflexivity.
Qed.

Lemma hex_digit_ascii d : (d < 16)%N -> (Sha256.hex_digit d < 128)%N.
Proof. intros. unfold Sha256.hex_digit. destruct (d <? 10)%N; lia. Qed.

Lemma hex4_ascii n : ascii_text (Json.hex4 n).
Proof.
  unfold Json.hex4.
  repeat constructor; apply hex_digit_ascii; apply N.mod_lt; lia.
Qed.

Lemma u_escape_ascii n : ascii_text (Json.u_escape n).
Proof.
  unfold Json.u_escape. constructor; [reflexivity|].
  constructor; [reflexivity|]. apply hex4_ascii.
Qed.

Lemma escape_char_ascii c : ascii_text (Json.escape_char c).
Proof.
  unfold Json.escape_char.
  destruct (c =? Json.backslash)%N; [ascii_literal|].
  destruct (c =? Json.quote)%N; [ascii_literal|].
  destruct ((32 <=? c) && (c <=? 126))%N eqn:Hprint.
  { apply andb_prop in Hprint as [_ H]. apply N.leb_le in H.
    constructor; [lia|constructor]. }
  destruct (c =? 8)%N; [ascii_literal|].
  destruct (c =? 12)%N; [ascii_literal|].
  destruct (c =? 10)%N; [ascii_literal|].
  destruct (c =? 13)%N; [ascii_literal|].
  destruct (c =? 9)%N; [ascii_literal|].
  destruct (c <? 65536)%N; [apply u_escape_ascii|].
  apply ascii_text_app; apply u_escape_ascii.
Qed.

Lemma encode_basestring_ascii_ascii s : ascii_text (Json.encode_basestring_ascii s).
Proof.
  unfold Json.encode_basestring_ascii.
  constructor; [reflexivity|]. apply ascii_text_app; [|ascii_literal].
  induction s as [|c r IH]; [constructor|].
  simpl. apply ascii_text_app; [apply escape_char_ascii|exact IH].
Qed.

Lemma dumps_value_ascii v : ascii_text (Json.dumps_value v).
Proof.
  destruct v as [|[]|s]; simpl;
    [ascii_literal|ascii_literal|ascii_literal|apply encode_basestring_ascii_ascii].
Qed.

Lemma join_ascii sep l :
  ascii_text sep -> Forall ascii_text l -> ascii_text (Json.join sep l).
Proof.
  intros Hsep. induction 1 as [|x r Hx Hr IH]; [constructor|].
  destruct r as [|y r']; [exact Hx|].
  change (ascii_text (x ++ sep ++ Json.join sep (y :: r'))).
  repeat apply ascii_text_app; assumption.
Qed.

Lemma dumps_sorted_ascii d : ascii_text (Json.dumps_sorted d).
Proof.
  unfold Json.dumps_sorted. destruct d as [|kv d']; [ascii_literal|].
  apply ascii_text_app; [ascii_literal|].
  apply ascii_text_app; [|ascii_literal].
  apply join_ascii; [ascii_literal|].
  apply List.Forall_forall. intros x Hx. apply in_map_iff in Hx as [kv' [<- _]].
  unfold Json.dumps_item.
  apply ascii_text_app; [apply encode_basestring_ascii_ascii|].
  apply ascii_text_app; [ascii_literal|apply dumps_value_ascii].
Qed.

(** ** The escaped text can be read back

    On strings of scalar values the escaping of [json.dumps] is a prefix
    code: a reader recovers each character from the front of the text. With
    lone surrogates it is not: the pair U+D83D U+DE00 and the single
    character U+1F600 have the same escaped text. *)

Module JsonFacts.
Import Json.
Local Open Scope N_scope.

Example surrogate_pair_collides : esc [0xD83D; 0xDE00] = esc [0x1F600].
Proof. vm_compute. reflexivity. Qed.

Lemma unhex_hex_digit d : d < 16 -> unhex (Sha256.hex_digit d) = d.
Proof.
  intros Hd. unfold unhex, Sha256.hex_digit.
  destruct (N.ltb_spec d 10).
  - destruct (N.ltb_spec (48 + d) 58); lia.
  - destruct (N.ltb_spec (87 + d) 58); lia.
Qed.

Lemma unhex4_hex4 n :
  n < 65536 ->
  unhex4 (Sha256.hex_digit (n / 4096 mod 16)) (Sha256.hex_digit (n / 256 mod 16))
         (Sha256.hex_digit (n / 16 mod 16)) (Sha256.hex_digit (n mod 16)) = n.
Proof.
  intros Hn. unfold unhex4.
  rewrite !unhex_hex_digit by (apply N.mod_lt; lia).
  zify. Z.to_euclidean_division_equations. lia.
Qed.

Lemma unescape_u_escape n r :
  n < 65536 -> ~ (0xD800 <= n <= 0xDBFF) ->
  unescape_char (Json.u_escape n ++ r) = Some (n, r).
Proof.
  intros Hn Hs. unfold Json.u_escape, Json.hex4, unescape_char.
  cbn [app]. change (Json.backslash =? Json.quote) with false.
  change (Json.backslash =? Json.backslash) with true.
  change (117 =? 117) with true. cbv iota beta zeta.
  rewrite (unhex4_hex4 n Hn).
  destruct (N.leb_spec 0xD800 n), (N.leb_spec n 0xDBFF); simpl; try reflexivity.
  exfalso. apply Hs. split; assumption.
Qed.

Lemma unescape_pair hi lo r :
  0xD800 <= hi <= 0xDBFF -> lo < 65536 ->
  unescape_char (Json.u_escape hi ++ Json.u_escape lo ++ r)
  = Some (0x10000 + (hi - 0xD800) * 1024 + (lo - 0xDC00), r).
Proof.
  intros [Hlo Hhi] Hl. unfold Json.u_escape, Json.hex4, unescape_char.
  cbn [app]. change (Json.backslash =? Json.quote) with false.
  change (Json.backslash =? Json.backslash) with true.
  change (117 =? 117) with true. cbv iota beta zeta.
  rewrite (unhex4_hex4 hi) by lia. rewrite (unhex4_hex4 lo Hl).
  destruct (N.leb_spec 0xD800 hi), (N.leb_spec hi 0xDBFF); simpl; try lia.
  reflexivity.
Qed.

Lemma lor_low_bits a :
  forallb (fun y => N.lor a y =? a + y) (map N.of_nat (seq 0 1024)) = true ->
  forall y, y < 1024 -> N.lor a y = a + y.
Proof.
  intros Hall y Hy. rewrite forallb_forall in Hall.
  apply N.eqb_eq, Hall. rewrite <- (N2Nat.id y). apply in_map, in_seq. lia.
Qed.

Lemma surrogate_high n :
  n < 0x100000 ->
  N.lor 0xD800 (N.land (N.shiftr n 10) 0x3FF) = 0xD800 + n / 1024.
Proof.
  intros Hn. rewrite N.shiftr_div_pow2. change (2 ^ 10) with 1024.
  change 0x3FF with (N.ones 10). rewrite N.land_ones. change (2 ^ 10) with 1024.
  assert (n / 1024 < 1024) by (apply N.Div0.div_lt_upper_bound; lia).
  rewrite N.mod_small by assumption.
  apply lor_low_bits; [vm_compute; reflexivity|assumption].
Qed.

Lemma surrogate_low n :
  N.lor 0xDC00 (N.land n 0x3FF) = 0xDC00 + n mod 1024.
Proof.
  change 0x3FF with (N.ones 10). rewrite N.land_ones. change (2 ^ 10) with 1024.
  apply lor_low_bits; [vm_compute; reflexivity|apply N.mod_lt; lia].
Qed.

Lemma unescape_escape_char c r :
  scalar c -> unescape_char (Json.escape_char c ++ r) = Some (c, r).
Proof.
  intros Hc. unfold Json.escape_char.
  destruct (N.eqb_spec c Json.backslash) as [->|Hb]; [reflexivity|].
  destruct (N.eqb_spec c Json.quote) as [->|Hq]; [reflexivity|].
  destruct ((32 <=? c) && (c <=? 126)) eqn:Hprint.
  { simpl. destruct (N.eqb_spec c Json.quote); [contradiction|].
    destruct (N.eqb_spec c Json.backslash); [contradiction|]. reflexivity. }
  destruct (N.eqb_spec c 8) as [->|?]; [reflexivity|].
  destruct (N.eqb_spec c 12) as [->|?]; [reflexivity|].
  destruct (N.eqb_spec c 10) as [->|?]; [reflexivity|].
  destruct (N.eqb_spec c 13) as [->|?]; [reflexivity|].
  destruct (N.eqb_spec c 9) as [->|?]; [reflexivity|].
  unfold scalar in Hc.
  destruct (N.ltb_spec c 0x10000) as [Hbmp|Hastral].
  - apply unescape_u_escape; lia.
  - rewrite <- app_assoc.
    assert (c - 0x10000 < 0x100000) as Hn by lia.
    rewrite (surrogate_high _ Hn), surrogate_low.
    assert ((c - 0x10000) / 1024 < 1024) by (apply N.Div0.div_lt_upper_bound; lia).
    pose proof (N.mod_lt (c - 0x10000) 1024 ltac:(lia)).
    rewrite unescape_pair; [|split; [apply N.le_add_r|lia]|lia].
    do 2 f_equal. zify. Z.to_euclidean_division_equations. lia.
Qed.

Lemma esc_split s1 : forall s2 r1 r2,
  Forall scalar s1 -> Forall scalar s2 ->
  esc s1 ++ Json.quote :: r1 = esc s2 ++ Json.quote :: r2 ->
  s1 = s2 /\ r1 = r2.
Proof.
  induction s1 as [|c1 s1 IH]; intros [|c2 s2] r1 r2 H1 H2 Heq.
  - injection Heq as <-. split; reflexivity.
  - exfalso. apply Forall_cons in H2 as [Hc2 _].
    apply (f_equal unescape_char) in Heq.
    unfold esc in Heq. simpl flat_map in Heq. rewrite <- app_assoc in Heq.
    rewrite (unescape_escape_char c2 _ Hc2) in Heq. discriminate.
  - exfalso. apply Forall_cons in H1 as [Hc1 _].
    apply (f_equal unescape_char) in Heq.
    unfold esc in Heq. simpl flat_map in Heq. rewrite <- app_assoc in Heq.
    rewrite (unescape_escape_char c1 _ Hc1) in Heq. discriminate.
  - apply Forall_cons in H1 as [Hc1 H1]. apply Forall_cons in H2 as [Hc2 H2].
    pose proof (f_equal unescape_char Heq) as Hhead.
    unfold esc in Hhead. simpl flat_map in Hhead. rewrite <- !app_assoc in Hhead.
    rewrite (unescape_escape_char c1 _ Hc1), (unescape_escape_char c2 _ Hc2) in Hhead.
    injection Hhead as -> Hrest.
    destruct (IH s2 r1 r2 H1 H2 Hrest) as [-> ->]. split; reflexivity.
Qed.

End JsonFacts.

(** ** Sequences *)

Lemma getitem_nat {A} (l : list A) j x :
  l !! j = Some x -> getitem l (Z.of_nat j) = Ok x.
Proof.
  intros H. unfold getitem.
  destruct (Z.ltb_spec (Z.of_nat j) 0) as [?|_]; [lia|].
  destruct (Z.ltb_spec (Z.of_nat j) 0) as [?|_]; [lia|].
  rewrite Nat2Z.id, H. reflexivity.
Qed.

Lemma getitem_Forall2 {A} (R : A -> A -> Prop) l l' p :
  Forall2 R l l' ->
  (getitem l p = Raise IndexError /\ getitem l' p = Raise IndexError)
  \/ exists x x', getitem l p = Ok x /\ getitem l' p = Ok x' /\ R x x'.
Proof.
  intros H. unfold getitem. rewrite <- (Forall2_length _ _ _ H).
  destruct (_ <? 0)%Z; [left; auto|].
  set (j := Z.to_nat _).
  destruct (l !! j) as [x|] eqn:Hx.
  - destruct (Forall2_lookup_l _ _ _ _ _ H Hx) as (x' & Hx' & HR).
    rewrite Hx'. right. eauto.
  - left. split; [reflexivity|].
    destruct (l' !! j) as [x'|] eqn:Hx'; [|reflexivity].
    destruct (Forall2_lookup_r _ _ _ _ _ H Hx') as (x & Hx2 & _). congruence.
Qed.

Lemma drop_cons_inv {A} (l : list A) i x rest :
  drop i l = x :: rest -> l !! i = Some x /\ drop (S i) l = rest.
Proof.
  intros H.
  assert (l !! i = Some x) as Hi.
  { rewrite <- (Nat.add_0_r i), <- lookup_drop, H. reflexivity. }
  split; [exact Hi|].
  rewrite (drop_S l x i Hi) in H. injection H as H. exact H.
Qed.

Lemma filter_true {A} (l : list A) (P : A -> Prop) `{forall x, Decision (P x)} :
  (forall x, P x) -> filter P l = l.
Proof.
  intros HP. induction l as [|x l IH]; [reflexivity|].
  rewrite filter_cons_True by apply HP. f_equal. exact IH.
Qed.

Lemma filter_and_bool {A} (l : list A) (p q : A -> bool) :
  filter (fun x => q x = true) (filter (fun x => p x = true) l)
  = filter (fun x => p x && q x = true) l.
Proof.
  rewrite list_filter_filter. apply list_filter_iff. intros x.
  rewrite andb_true_iff. tauto.
Qed.

Lemma filter_all_bool {A} (l : list A) :
  l = filter (fun _ => true = true) l.
Proof. symmetry. apply filter_true. reflexivity. Qed.

(** ** verify-chain.py *)

Module VerifyChainFacts.
Import VerifyChain ChainVocabulary.

Section Runs.
Context `{Environment}.

(** *** Writing and printing *)

Lemma encodes_app a b : encodes (a ++ b) = encodes a && encodes b.
Proof. apply forallb_app. Qed.

Lemma print_run text out :
  print text out
  = if encodes text then (out ++ text ++ newline, Ok tt)
    else (out, Raise UnicodeEncodeError).
Proof.
  unfold print, io_bind, write. destruct (encodes text); [|reflexivity].
  change (encodes newline) with true. cbv iota. rewrite app_assoc. reflexivity.
Qed.

Lemma bind_print {A} text (k : unit -> IO A) out :
  io_bind (print text) k out
  = if encodes text then k tt (out ++ text ++ newline)
    else (out, Raise UnicodeEncodeError).
Proof.
  unfold io_bind at 1. rewrite print_run. destruct (encodes text); reflexivity.
Qed.

Lemma bind_print_ext {A} text (k k' : unit -> IO A) out :
  (forall o, k tt o = k' tt o) ->
  io_bind (print text) k out = io_bind (print text) k' out.
Proof.
  intros Hk. rewrite !bind_print. destruct (encodes text); [apply Hk|reflexivity].
Qed.

Lemma bind_ok {A B} (a : A) (k : A -> IO B) out :
  io_bind (lift (Ok a)) k out = k a out.
Proof. reflexivity. Qed.

Lemma bind_ret {A B} (a : A) (k : A -> IO B) out :
  io_bind (io_ret a) k out = k a out.
Proof. reflexivity. Qed.

Lemma bind_assoc {A B C} (m : IO A) (f : A -> IO B) (k : B -> IO C) out :
  io_bind (io_bind m f) k out = io_bind m (fun a => io_bind (f a) k) out.
Proof. unfold io_bind. destruct (m out) as [o [a|e]]; reflexivity. Qed.

Lemma bind_ext {A B} (m m' : IO A) (k : A -> IO B) out :
  (forall o, m o = m' o) -> io_bind m k out = io_bind m' k out.
Proof. intros Hm. unfold io_bind. rewrite Hm. reflexivity. Qed.

Lemma printing_ext {A} texts (k k' : IO A) : forall out,
  (forall o, k o = k' o) -> printing texts k out = printing texts k' out.
Proof.
  induction texts as [|text r IH]; intros out Hk; cbn [printing]; [apply Hk|].
  apply bind_print_ext. intros o. apply IH, Hk.
Qed.

Lemma printing_app {A} a b (k : IO A) : forall out,
  printing (a ++ b) k out = printing a (printing b k) out.
Proof.
  induction a as [|text a IH]; intros out; cbn [app printing]; [reflexivity|].
  apply bind_print_ext. intros o. apply IH.
Qed.

Lemma printing_bind {A B} texts (m : IO A) (k : A -> IO B) : forall out,
  io_bind (printing texts m) k out = printing texts (io_bind m k) out.
Proof.
  induction texts as [|text r IH]; intros out; cbn [printing]; [reflexivity|].
  rewrite bind_assoc. apply bind_print_ext. intros o. apply IH.
Qed.

Lemma unlines_app a b : unlines (a ++ b) = unlines a ++ unlines b.
Proof. apply flat_map_app. Qed.

Lemma encodes_unlines texts : encodes (unlines texts) = forallb encodes texts.
Proof.
  induction texts as [|text r IH]; [reflexivity|].
  change (unlines (text :: r)) with ((text ++ newline) ++ unlines r).
  rewrite !encodes_app, IH. change (encodes newline) with true.
  rewrite andb_true_r. reflexivity.
Qed.

Lemma encoded_prefix_all texts :
  forallb encodes texts = true -> encoded_prefix texts = texts.
Proof.
  induction texts as [|text r IH]; [reflexivity|]. cbn [forallb encoded_prefix].
  intros Hall. apply andb_true_iff in Hall as [-> Hr]. rewrite (IH Hr). reflexivity.
Qed.

(** Printing texts in turn writes all of them when all are encoded, and
    otherwise those before the first that is not, and raises. *)
Lemma printing_run {A} texts (k : IO A) : forall out,
  printing texts k out
  = if forallb encodes texts then k (out ++ unlines texts)
    else (out ++ unlines (encoded_prefix texts), Raise UnicodeEncodeError).
Proof.
  induction texts as [|text r IH]; intros out; cbn [printing forallb encoded_prefix].
  - cbn [unlines flat_map]. rewrite app_nil_r. reflexivity.
  - rewrite bind_print. destruct (encodes text); cbn [andb].
    + rewrite IH. change (unlines (text :: r)) with ((text ++ newline) ++ unlines r).
      change (unlines (text :: encoded_prefix r))
        with ((text ++ newline) ++ unlines (encoded_prefix r)).
      rewrite <- !app_assoc. reflexivity.
    + cbn [unlines flat_map]. rewrite app_nil_r. reflexivity.
Qed.

(** *** Exports of the shape that the tool reads *)

Lemma full_of_entry_fields e f :
  full_of_entry e = Some f ->
  subscript e (py "entry_id") = Ok (f_entry_id f)
  /\ subscript e (py "timestamp") = Ok (f_timestamp f)
  /\ subscript e (py "event_type") = Ok (f_event_type f)
  /\ subscript e (py "hash") = Ok (f_hash f)
  /\ subscript e (py "previous_hash") = Ok (f_previous_hash f).
Proof.
  unfold full_of_entry.
  destruct (subscript e (py "entry_id")); [|discriminate].
  destruct (subscript e (py "timestamp")); [|discriminate].
  destruct (subscript e (py "event_type")); [|discriminate].
  destruct (subscript e (py "hash")); [|discriminate].
  destruct (subscript e (py "previous_hash")); [|discriminate].
  intros [= <-]. repeat split; reflexivity.
Qed.

Lemma full_of_entries_length es : forall fes,
  full_of_entries es = Some fes -> length fes = length es.
Proof.
  induction es as [|e r IH]; intros fes; cbn [full_of_entries].
  - intros [= <-]. reflexivity.
  - destruct (full_of_entry e); [|discriminate].
    destruct (full_of_entries r); [|discriminate].
    intros [= <-]. cbn [length]. f_equal. apply IH. reflexivity.
Qed.

Lemma full_of_entries_lookup es : forall fes j e,
  full_of_entries es = Some fes -> es !! j = Some e ->
  exists f, full_of_entry e = Some f.
Proof.
  induction es as [|x r IH]; intros fes j e; [discriminate 2|].
  cbn [full_of_entries].
  destruct (full_of_entry x) as [fx|] eqn:Hx; [|discriminate].
  destruct (full_of_entries r) as [fr|] eqn:Hr; [|discriminate].
  intros _. destruct j as [|j].
  - intros [= <-]. eauto.
  - intros Hj. exact (IH fr j e eq_refl Hj).
Qed.

Lemma full_of_entry_dict e f :
  full_of_entry e = Some f -> exists members, e = JObject members.
Proof.
  intros He. apply full_of_entry_fields in He as [Hid _].
  destruct e; try discriminate Hid. eauto.
Qed.

(** A value that yields entries of that shape is a list of them, or
    yields none. *)
Lemma iterate_item entries items fes :
  iterate entries = Ok items -> full_of_entries items = Some fes ->
  forall j e, items !! j = Some e -> item entries (Z.of_nat j) = Ok e.
Proof.
  intros Hit Hfull j e Hj.
  destruct (full_of_entries_lookup _ _ _ _ Hfull Hj) as [f Hf].
  destruct (full_of_entry_dict _ _ Hf) as [members ->].
  destruct entries; try discriminate Hit; cbn [iterate] in Hit;
    injection Hit as <-.
  - rewrite list_lookup_fmap in Hj.
    destruct (s !! j); discriminate Hj.
  - cbn [item]. apply getitem_nat, Hj.
  - rewrite list_lookup_fmap in Hj.
    destruct (members0 !! j); discriminate Hj.
Qed.

Lemma iterate_len entries items :
  iterate entries = Ok items -> len entries = Ok (length items).
Proof.
  destruct entries; try discriminate; cbn [iterate len]; intros [= <-];
    rewrite ?length_map; reflexivity.
Qed.

Lemma verify_loop_full entries items rest : forall i prev frest verified out,
  (forall j e, items !! j = Some e -> item entries (Z.of_nat j) = Ok e) ->
  drop i items = rest ->
  full_of_entries rest = Some frest ->
  match i with
  | O => prev = None
  | S j => exists pe ph, items !! j = Some pe
                         /\ subscript pe (py "hash") = Ok ph /\ prev = Some ph
  end ->
  verify_loop entries i rest verified out
  = printing (reports i prev frest) (io_ret (verified && links_ok prev frest)) out.
Proof.
  induction rest as [|e rest IH];
    intros i prev frest verified out Hitem Hdrop Hfull Hprev.
  - cbn [full_of_entries] in Hfull. injection Hfull as <-.
    cbn [verify_loop reports printing links_ok]. rewrite andb_true_r. reflexivity.
  - cbn [full_of_entries] in Hfull.
    destruct (full_of_entry e) as [f|] eqn:He; [|discriminate].
    destruct (full_of_entries rest) as [fr|] eqn:Hr; [|discriminate].
    injection Hfull as <-.
    destruct (full_of_entry_fields e f He) as (Hid & Hts & Hev & Hh & Hp).
    destruct (drop_cons_inv _ _ _ _ Hdrop) as [Hi Hdrop'].
    assert (exists pe ph, items !! i = Some pe
                          /\ subscript pe (py "hash") = Ok ph
                          /\ Some (f_hash f) = Some ph) as Hnext by eauto.
    cbn [verify_loop reports entry_report app printing].
    rewrite Hid, bind_ok. cbv beta. rewrite Hh, bind_ok. cbv beta.
    rewrite Hp, bind_ok. cbv beta.
    apply bind_print_ext. intros o1. rewrite Hts, bind_ok. cbv beta.
    apply bind_print_ext. intros o2. rewrite Hev, bind_ok. cbv beta.
    apply bind_print_ext. intros o3. apply bind_print_ext. intros o4.
    destruct i as [|j].
    + subst prev. cbn [Nat.ltb Nat.leb link_line links_ok link_ok andb].
      rewrite bind_assoc. apply bind_print_ext. intros o5. rewrite bind_ret.
      apply bind_print_ext. intros o6.
      exact (IH 1%nat (Some (f_hash f)) fr verified o6 Hitem Hdrop' eq_refl Hnext).
    + destruct Hprev as (pe & ph & Hpe & Hph & ->).
      cbn [Nat.ltb Nat.leb link_line links_ok link_ok].
      replace (Z.of_nat (S j) - 1)%Z with (Z.of_nat j) by lia.
      rewrite bind_assoc, (Hitem j pe Hpe), bind_ok. cbv beta.
      rewrite bind_assoc, Hph, bind_ok. cbv beta.
      destruct (py_eq (f_previous_hash f) ph).
      * rewrite bind_assoc. apply bind_print_ext. intros o5. rewrite bind_ret.
        apply bind_print_ext. intros o6. cbn [andb].
        exact (IH (S (S j)) (Some (f_hash f)) fr verified o6 Hitem Hdrop' eq_refl
                  Hnext).
      * rewrite bind_assoc. apply bind_print_ext. intros o5. rewrite bind_ret.
        apply bind_print_ext. intros o6. cbn [andb]. rewrite andb_false_r.
        exact (IH (S (S j)) (Some (f_hash f)) fr false o6 Hitem Hdrop' eq_refl
                  Hnext).
Qed.

Lemma verify_chain_printing log l out :
  full_of_log log = Some l ->
  verify_chain log out
  = printing (report_texts l) (io_ret (links_ok None (f_entries l))) out.
Proof.
  unfold full_of_log.
  destruct (subscript log (py "chain_id")) as [c|] eqn:Hc; [|discriminate].
  destruct (subscript log (py "genesis_timestamp")) as [g|] eqn:Hg; [|discriminate].
  destruct (subscript log (py "chain_status")) as [st|] eqn:Hst; [|discriminate].
  destruct (subscript log (py "entries")) as [es|] eqn:Hes; [|discriminate].
  destruct (subscript st (py "active")) as [a|] eqn:Ha; [|discriminate].
  destruct (subscript st (py "verified")) as [v|] eqn:Hv; [|discriminate].
  destruct (subscript st (py "public")) as [p|] eqn:Hp; [|discriminate].
  destruct (iterate es) as [items|] eqn:Hit; [|discriminate].
  cbn [value_of mbind option_bind].
  destruct (full_of_entries items) as [fes|] eqn:Hfull; [|discriminate].
  intros [= <-].
  unfold verify_chain, report_texts.
  cbn [f_chain_id f_genesis_timestamp f_active f_verified f_public f_entries
       app printing].
  rewrite Hes, bind_ok. cbv beta.
  apply bind_print_ext. intros o1. rewrite Hc, bind_ok. cbv beta.
  apply bind_print_ext. intros o2. rewrite Hg, bind_ok. cbv beta.
  apply bind_print_ext. intros o3.
  rewrite (iterate_len es items Hit), bind_ok. cbv beta.
  rewrite (full_of_entries_length items fes Hfull).
  apply bind_print_ext. intros o4. rewrite Hit, bind_ok. cbv beta.
  rewrite printing_app.
  rewrite (bind_ext _ _ _ o4
             (fun o => verify_loop_full es items items 0%nat None fes true o
                         (iterate_item es items fes Hit Hfull) eq_refl Hfull
                         eq_refl)).
  rewrite printing_bind. apply printing_ext. intros o5.
  cbn [andb]. rewrite bind_ret, Hst, bind_ok. cbv beta.
  cbn [app printing].
  apply bind_print_ext. intros o6. rewrite Ha, bind_ok. cbv beta.
  apply bind_print_ext. intros o7. rewrite Hv, bind_ok. cbv beta.
  apply bind_print_ext. intros o8. rewrite Hp, bind_ok. cbv beta.
  apply bind_print_ext. intros o9.
  destruct (links_ok None fes); cbn [printing].
  - rewrite bind_assoc. apply bind_print_ext. intros o10. reflexivity.
  - reflexivity.
Qed.

(** On an export of that shape the run is the printing of the report. *)
Lemma verify_chain_full log l out :
  full_of_log log = Some l ->
  verify_chain log out
  = if encodes (chain_report l)
    then (out ++ chain_report l, Ok (links_ok None (f_entries l)))
    else (out ++ unlines (encoded_prefix (report_texts l)),
          Raise UnicodeEncodeError).
Proof.
  intros Hl. rewrite (verify_chain_printing log l out Hl), printing_run.
  unfold chain_report. rewrite encodes_unlines. reflexivity.
Qed.

(** *** Other values *)

Lemma fails_lift {A B} (r : result A) (k : A -> IO B) out :
  (forall a, r = Ok a -> exists o e, k a out = (o, Raise e)) ->
  exists o e, io_bind (lift r) k out = (o, Raise e).
Proof.
  intros Hk. destruct r as [a|e]; [exact (Hk a eq_refl)|].
  eexists. eexists. reflexivity.
Qed.

Lemma fails_print {A} text (k : unit -> IO A) out :
  (forall o', exists o e, k tt o' = (o, Raise e)) ->
  exists o e, io_bind (print text) k out = (o, Raise e).
Proof.
  intros Hk. rewrite bind_print. destruct (encodes text); [apply Hk|].
  eexists. eexists. reflexivity.
Qed.

Lemma fails_bind {A B} (m : IO A) (k : A -> IO B) out :
  (forall a o', exists o e, k a o' = (o, Raise e)) ->
  exists o e, io_bind m k out = (o, Raise e).
Proof.
  intros Hk. unfold io_bind. destruct (m out) as [o' [a|e]]; [apply Hk|].
  eexists. eexists. reflexivity.
Qed.

Lemma fails_first {A B} (m : IO A) (k : A -> IO B) out :
  (exists o e, m out = (o, Raise e)) ->
  exists o e, io_bind m k out = (o, Raise e).
Proof.
  intros (o & e & Hm). unfold io_bind. rewrite Hm. eexists. eexists. reflexivity.
Qed.

Lemma verify_loop_incomplete entries rest : forall i verified out,
  full_of_entries rest = None ->
  exists o e, verify_loop entries i rest verified out = (o, Raise e).
Proof.
  induction rest as [|x rest IH]; intros i verified out Hfull; [discriminate|].
  cbn [full_of_entries] in Hfull. cbn [verify_loop].
  apply fails_lift. intros eid Hid. apply fails_lift. intros h Hh.
  apply fails_lift. intros p Hp. apply fails_print. intros o1.
  apply fails_lift. intros ts Hts. apply fails_print. intros o2.
  apply fails_lift. intros ev Hev.
  assert (full_of_entries rest = None) as Hrest.
  { unfold full_of_entry in Hfull. rewrite Hid, Hts, Hev, Hh, Hp in Hfull.
    destruct (full_of_entries rest); [discriminate|reflexivity]. }
  apply fails_bind. intros _ o3. apply fails_bind. intros _ o4.
  apply fails_bind. intros verified' o5. apply fails_bind. intros _ o6.
  apply IH, Hrest.
Qed.

Lemma verify_chain_incomplete log out :
  full_of_log log = None ->
  exists o e, verify_chain log out = (o, Raise e).
Proof.
  intros Hnone. unfold verify_chain.
  apply fails_lift. intros es Hes. apply fails_print. intros o1.
  apply fails_lift. intros c Hc. apply fails_print. intros o2.
  apply fails_lift. intros g Hg. apply fails_print. intros o3.
  apply fails_lift. intros n Hn. apply fails_print. intros o4.
  apply fails_lift. intros items Hit.
  destruct (full_of_entries items) as [fes|] eqn:Hfull.
  - apply fails_bind. intros verified o5.
    apply fails_lift. intros st Hst. apply fails_print. intros o6.
    apply fails_lift. intros a Ha. apply fails_print. intros o7.
    apply fails_lift. intros v Hv. apply fails_print. intros o8.
    apply fails_lift. intros p Hp. exfalso.
    unfold full_of_log in Hnone. rewrite Hc, Hg, Hst, Hes, Ha, Hv, Hp, Hit in Hnone.
    cbn [value_of mbind option_bind] in Hnone. rewrite Hfull in Hnone.
    discriminate Hnone.
  - apply fails_first. apply verify_loop_incomplete, Hfull.
Qed.

Lemma full_of_entries_of_full fes :
  full_of_entries (map entry_of_full fes) = Some fes.
Proof.
  induction fes as [|f fes IH]; [reflexivity|].
  cbn [map full_of_entries]. rewrite IH. destruct f; reflexivity.
Qed.

Lemma full_of_log_of_full l : full_of_log (log_of_full l) = Some l.
Proof.
  unfold full_of_log, log_of_full.
  change (subscript (JObject _) (py "chain_id")) with (Ok (f_chain_id l)).
  change (subscript (JObject _) (py "genesis_timestamp"))
    with (Ok (f_genesis_timestamp l)).
  change (subscript (JObject _) (py "chain_status"))
    with (Ok (JObject [ (py "active", f_active l); (py "verified", f_verified l);
                        (py "public", f_public l) ])).
  change (subscript (JObject _) (py "entries"))
    with (Ok (JArray (map entry_of_full (f_entries l)))).
  cbv iota.
  change (subscript (JObject _) (py "active")) with (Ok (f_active l)).
  change (subscript (JObject _) (py "verified")) with (Ok (f_verified l)).
  change (subscript (JObject _) (py "public")) with (Ok (f_public l)).
  cbn [iterate value_of mbind option_bind].
  rewrite full_of_entries_of_full. destruct l; reflexivity.
Qed.

(** The verdict in words: every entry after the first stores, as its
    previous hash, a value equal to the stored hash of the entry before
    it. *)
Lemma links_ok_spec prev es :
  links_ok prev es = true
  <-> (forall e ph, es !! 0%nat = Some e -> prev = Some ph ->
                    py_eq (f_previous_hash e) ph = true)
      /\ (forall i p e, es !! i = Some p -> es !! S i = Some e ->
                        py_eq (f_previous_hash e) (f_hash p) = true).
Proof.
  revert prev. induction es as [|e0 r IH]; intros prev.
  - split; [|reflexivity]. intros _. split; intros; discriminate.
  - cbn [links_ok]. rewrite andb_true_iff, IH. split.
    + intros [Hhead [Hfirst Hrest]]. split.
      * intros e ph [= <-] ->. exact Hhead.
      * intros [|i] p e Hp He.
        -- injection Hp as <-. exact (Hfirst e (f_hash e0) He eq_refl).
        -- exact (Hrest i p e Hp He).
    + intros [Hhead Hrest]. split; [|split].
      * destruct prev as [ph|]; [|reflexivity].
        exact (Hhead e0 ph eq_refl eq_refl).
      * intros e ph He [= <-]. exact (Hrest 0%nat e0 e eq_refl He).
      * intros i p e Hp He. exact (Hrest (S i) p e Hp He).
Qed.

(** *** Lines *)

Lemma lines_from_newline b : forall a acc,
  lines_from acc (a ++ newline ++ b) = lines_from acc (a ++ newline) ++ lines b.
Proof.
  induction a as [|c a IH]; intros acc; cbn [app lines_from].
  - reflexivity.
  - destruct (c =? 10)%N; [|apply IH].
    cbn [app]. f_equal. apply IH.
Qed.

Lemma lines_from_single s : forall acc,
  single_line s = true -> lines_from acc (s ++ newline) = [acc ++ s].
Proof.
  induction s as [|c s IH]; intros acc; cbn [single_line forallb app lines_from].
  - intros _. rewrite app_nil_r. reflexivity.
  - intros Hs. apply andb_true_iff in Hs as [Hc Hs].
    apply negb_true_iff in Hc. unfold line_break in Hc. cbn [existsb] in Hc.
    apply orb_false_elim in Hc as [Hc _].
    rewrite Hc, (IH _ Hs), <- app_assoc. reflexivity.
Qed.

Lemma lines_single s : single_line s = true -> lines (s ++ newline) = [s].
Proof. apply lines_from_single. Qed.

Lemma lines_unlines texts :
  lines (unlines texts) = flat_map (fun text => lines (text ++ newline)) texts.
Proof.
  induction texts as [|text r IH]; [reflexivity|].
  change (unlines (text :: r)) with ((text ++ newline) ++ unlines r).
  rewrite <- app_assoc. unfold lines at 1. rewrite lines_from_newline, IH.
  reflexivity.
Qed.

Lemma last_line_of_report l :
  last (lines (chain_report l))
  = Some (if links_ok None (f_entries l) then seal_line else failure_line).
Proof.
  unfold chain_report, report_texts.
  rewrite lines_unlines, !app_assoc, flat_map_app.
  destruct (links_ok None (f_entries l)).
  - change (flat_map _ [newline ++ success_line; seal_line])
      with ([[]; success_line] ++ [seal_line]).
    rewrite app_assoc. apply last_snoc.
  - change (flat_map _ [newline ++ failure_line]) with ([[]] ++ [failure_line]).
    rewrite app_assoc. apply last_snoc.
Qed.

(** *** The claims *)

(** C4, as amended: the verifier reads the stored hashes and compares them.
    On a value of the shape it reads ([full_of_log]: the keys it subscripts
    are present and [entries] yields dicts), it prints the report
    [chain_report] (for each entry its id, timestamp, event and hash and
    one of [Genesis block], [Chain link verified] and [VERIFICATION FAILED:
    Previous hash mismatch], then the status and the verdict) and returns
    [links_ok]: true exactly when every entry after the first stores, as
    [previous_hash], a value equal to the stored [hash] of the entry before
    it. This holds when standard output encodes every text of the report;
    otherwise the run stops with [UnicodeEncodeError] after the texts
    before the first that is not encoded. On any other value the run
    raises an exception and returns no verdict. No digest is computed. *)
Theorem verify_chain_compares_stored_hashes log out :
  match full_of_log log with
  | Some l =>
      verify_chain log out
      = (if encodes (chain_report l)
         then (out ++ chain_report l, Ok (links_ok None (f_entries l)))
         else (out ++ unlines (encoded_prefix (report_texts l)),
               Raise UnicodeEncodeError))
      /\ (links_ok None (f_entries l) = true
          <-> forall i p e,
                f_entries l !! i = Some p -> f_entries l !! S i = Some e ->
                py_eq (f_previous_hash e) (f_hash p) = true)
  | None => exists out' e, verify_chain log out = (out', Raise e)
  end.
Proof.
  destruct (full_of_log log) as [l|] eqn:Hl;
    [|exact (verify_chain_incomplete log out Hl)].
  split; [exact (verify_chain_full log l out Hl)|].
  rewrite links_ok_spec. split.
  - intros [_ Hlinks]. exact Hlinks.
  - intros Hlinks. split; [intros e ph _ Hnone; discriminate Hnone|exact Hlinks].
Qed.

Lemma main_parsed argv fs data log :
  fs (py "audit-log.json") = Parsed data ->
  subscript data (py "audit_log") = Ok log ->
  main argv fs
  = let '(out, r) := verify_chain log [] in (out, exit_status r).
Proof.
  intros Hfs Hlog. unfold main, main_block. cbv zeta. rewrite Hfs.
  unfold load_audit_log. rewrite Hlog, bind_ret.
  unfold io_bind, io_ret.
  destruct (verify_chain log []) as [out [b|x]]; reflexivity.
Qed.

Lemma main_not_loaded argv fs :
  main argv fs
  = match fs (py "audit-log.json") with
    | Missing => (written (not_found_message (py "audit-log.json")), 1%Z)
    | Unreadable _ => ([], 1%Z)
    | Malformed message => (written (invalid_json_message message), 1%Z)
    | Parsed data =>
        match subscript data (py "audit_log") with
        | Ok log => let '(out, r) := verify_chain log [] in (out, exit_status r)
        | Raise KeyError => (written missing_key_message, 1%Z)
        | Raise _ => ([], 1%Z)
        end
    end.
Proof.
  destruct (fs (py "audit-log.json")) as [|f|message|data] eqn:Hfs.
  - unfold main, main_block. cbv zeta. rewrite Hfs. unfold load_audit_log.
    rewrite bind_assoc, bind_print. unfold written, not_found_message.
    destruct (encodes _); reflexivity.
  - unfold main, main_block. cbv zeta. rewrite Hfs. reflexivity.
  - unfold main, main_block. cbv zeta. rewrite Hfs. unfold load_audit_log.
    rewrite bind_assoc, bind_print. unfold written, invalid_json_message.
    destruct (encodes _); reflexivity.
  - destruct (subscript data (py "audit_log")) as [log|e] eqn:Hlog.
    + exact (main_parsed argv fs data log Hfs Hlog).
    + unfold main, main_block. cbv zeta. rewrite Hfs. unfold load_audit_log.
      rewrite Hlog. destruct e; try reflexivity.
      rewrite bind_assoc, bind_print. unfold written, missing_key_message.
      destruct (encodes _); reflexivity.
Qed.

(** C7, as amended: the command line is not read, the tool always opens
    [audit-log.json]. When the file holds, under [audit_log], an export of
    the shape that the tool reads and standard output encodes the report,
    the tool prints [chain_report], whose last line is the line of success
    or of failure according to the links, and exits with status 0 in both
    cases. In every other case an exception escapes and the exit status is
    1: no file, a file that cannot be loaded or is not JSON, a value
    without the key [audit_log] or that is no dict, an export of another
    shape, a text that standard output does not encode. Before that, a
    handler of [load_audit_log] has printed its message. *)
Theorem main_exit_status argv fs :
  (forall argv', main argv' fs = main argv fs)
  /\ match fs (py "audit-log.json") with
     | Missing =>
         main argv fs = (written (not_found_message (py "audit-log.json")), 1%Z)
     | Unreadable _ => main argv fs = ([], 1%Z)
     | Malformed message =>
         main argv fs = (written (invalid_json_message message), 1%Z)
     | Parsed data =>
         match subscript data (py "audit_log") with
         | Raise KeyError => main argv fs = (written missing_key_message, 1%Z)
         | Raise _ => main argv fs = ([], 1%Z)
         | Ok log =>
             match full_of_log log with
             | Some l =>
                 if encodes (chain_report l)
                 then main argv fs = (chain_report l, 0%Z)
                      /\ last (lines (chain_report l))
                         = Some (if links_ok None (f_entries l)
                                 then seal_line else failure_line)
                 else (main argv fs).2 = 1%Z
             | None => (main argv fs).2 = 1%Z
             end
         end
     end.
Proof.
  split; [reflexivity|].
  rewrite (main_not_loaded argv fs).
  destruct (fs (py "audit-log.json")) as [|f|message|data]; try reflexivity.
  destruct (subscript data (py "audit_log")) as [log|e];
    [|destruct e; reflexivity].
  destruct (full_of_log log) as [l|] eqn:Hl.
  - rewrite (verify_chain_full log l [] Hl).
    destruct (encodes (chain_report l)); [|reflexivity].
    split; [reflexivity|apply last_line_of_report].
  - destruct (verify_chain_incomplete log [] Hl) as (out' & e & ->). reflexivity.
Qed.

End Runs.

Section Examples.
#[local] Existing Instance utf8_stdout.

(** C4, counterexample: the verifier accepts two exports that differ only in
    the stored hash of their single entry, so the accepted hash is not a
    function of the entry's other fields: no digest is re-derived. *)
Lemma verify_chain_accepts_any_stored_hash :
  verify_chain (forged_log (py "aaaa")) []
  = (chain_report (forged_full (py "aaaa")), Ok true)
  /\ verify_chain (forged_log (py "bbbb")) []
     = (chain_report (forged_full (py "bbbb")), Ok true)
  /\ ~ rederives_digests.
Proof.
  assert (verify_chain (forged_log (py "aaaa")) []
          = (chain_report (forged_full (py "aaaa")), Ok true)) as Ha
    by (vm_compute; reflexivity).
  assert (verify_chain (forged_log (py "bbbb")) []
          = (chain_report (forged_full (py "bbbb")), Ok true)) as Hb
    by (vm_compute; reflexivity).
  split; [exact Ha|]. split; [exact Hb|].
  intros [digest Hd].
  pose proof (Hd _ _ _ (forged_full (py "aaaa")) (forged_entry (py "aaaa")) Ha
                (full_of_log_of_full _) ltac:(apply list_elem_of_here)) as H1.
  pose proof (Hd _ _ _ (forged_full (py "bbbb")) (forged_entry (py "bbbb")) Hb
                (full_of_log_of_full _) ltac:(apply list_elem_of_here)) as H2.
  cbn [forged_entry f_entry_id f_timestamp f_event_type f_hash f_previous_hash]
    in H1, H2.
  rewrite <- H2 in H1. vm_compute in H1. discriminate H1.
Qed.

(** C7, counterexample: on an export whose second entry does not link to the
    first, the tool prints the lines of failure and still exits with status
    0; the extra command-line argument is not read. *)
Lemma failed_verification_exits_with_zero :
  let run := main [py "verify-chain.py"; py "other-export.json"] broken_fs in
  run.2 = 0%Z
  /\ last (lines run.1) = Some failure_line
  /\ (py "  " ++ cross_mark :: py " VERIFICATION FAILED: Previous hash mismatch")
     ∈ lines run.1.
Proof.
  cbv zeta. split; [vm_compute; reflexivity|].
  split; [vm_compute; reflexivity|].
  apply list_elem_of_In. vm_compute. tauto.
Qed.


End Examples.

End VerifyChainFacts.

(** ** audit_system.py *)

Module AuditSystemFacts.
Import AuditSystem.

Ltac result_simpl := cbn [mbind result_bind mret result_ret].

(** *** [log_event] always returns, and stamps the entry with the digest of
    its own fields *)

Lemma decimal_aux_ascii fuel n acc :
  ascii_text acc -> ascii_text (decimal_aux fuel n acc).
Proof.
  revert n acc. induction fuel as [|f IH]; intros n acc Hacc; [exact Hacc|].
  simpl.
  assert (ascii_text (digit (n mod 10) :: acc)) as H.
  { constructor; [|exact Hacc]. unfold digit.
    pose proof (N.mod_lt n 10). lia. }
  destruct (n <? 10)%N; [exact H|]. apply IH, H.
Qed.

Lemma decimal_ascii n : ascii_text (decimal n).
Proof. apply decimal_aux_ascii. constructor. Qed.

Lemma zero_pad_ascii w s : ascii_text s -> ascii_text (zero_pad w s).
Proof.
  intros H. unfold zero_pad. apply ascii_text_app; [|exact H].
  apply List.Forall_forall. intros x Hx. apply repeat_spec in Hx. subst x. reflexivity.
Qed.

Lemma isoformat_ascii d : ascii_text (isoformat d).
Proof.
  unfold isoformat.
  repeat first
    [ apply zero_pad_ascii, decimal_ascii
    | apply ascii_text_app
    | match goal with |- ascii_text (py _) => ascii_literal end ].
  destruct (microsecond d =? 0)%N; [constructor|].
  apply ascii_text_app; [ascii_literal|apply zero_pad_ascii, decimal_ascii].
Qed.

Lemma generate_event_id_ok self now :
  _generate_event_id self now = Ok (event_id_at now (length (audit_log self))).
Proof.
  unfold _generate_event_id. rewrite encode_ascii; [reflexivity|].
  apply ascii_text_app; [apply isoformat_ascii|].
  apply ascii_text_app; [ascii_literal|apply decimal_ascii].
Qed.

Lemma compute_chain_hash_none self e :
  _compute_chain_hash self e None = Ok (Sha256.hexdigest (writer_input e)).
Proof.
  unfold _compute_chain_hash. result_simpl.
  fold (writer_input e). rewrite encode_ascii by apply dumps_sorted_ascii.
  reflexivity.
Qed.

Lemma compute_chain_hash_some self e j :
  (j < length (audit_log self))%nat ->
  _compute_chain_hash self e (Some (Z.of_nat j))
  = Ok (expected_hash (audit_log self) (S j) e).
Proof.
  intros Hj. unfold _compute_chain_hash, expected_hash, verifier_input, verifier_data.
  destruct (lookup_lt_is_Some_2 (audit_log self) j Hj) as [prev Hprev].
  rewrite Hprev.
  rewrite (getitem_nat _ _ _ Hprev).
  destruct (Z.leb_spec 0 (Z.of_nat j)); [|lia]. result_simpl.
  rewrite encode_ascii by apply dumps_sorted_ascii. reflexivity.
Qed.

Lemma log_event_ok now_id now_ts event_type description actor metadata sensitivity self :
  let e := stamped now_id now_ts (length (audit_log self)) event_type
                   description actor metadata sensitivity in
  log_event now_id now_ts event_type description actor metadata sensitivity self
  = Ok (event_id e,
        _update_integrity_chain
          (_index_event (append_entry self e) (event_id e) event_type) e).
Proof.
  unfold log_event. rewrite generate_event_id_ok. result_simpl.
  rewrite compute_chain_hash_none. reflexivity.
Qed.

Lemma log_event_audit_log now_id now_ts event_type description actor metadata
    sensitivity self eid self' :
  log_event now_id now_ts event_type description actor metadata sensitivity self
  = Ok (eid, self') ->
  audit_log self'
  = audit_log self
    ++ [stamped now_id now_ts (length (audit_log self)) event_type
                description actor metadata sensitivity].
Proof. rewrite log_event_ok. intros [= _ <-]. reflexivity. Qed.

Lemma stamped_self_stamped now_id now_ts count event_type description actor
    metadata sensitivity :
  self_stamped (stamped now_id now_ts count event_type description actor
                        metadata sensitivity).
Proof. reflexivity. Qed.

Lemma built_self_stamped self : built self -> Forall self_stamped (audit_log self).
Proof.
  induction 1 as [|c self eid self' _ IH Hcall]; [constructor|].
  unfold do_call in Hcall. apply log_event_audit_log in Hcall. rewrite Hcall.
  apply Forall_app_2; [exact IH|].
  constructor; [apply stamped_self_stamped|constructor].
Qed.

Lemma do_call_ok c self :
  exists e self',
    do_call c self = Ok (event_id e, self')
    /\ audit_log self' = audit_log self ++ [e]
    /\ self_stamped e.
Proof.
  unfold do_call. rewrite log_event_ok. eexists _, _.
  split; [reflexivity|]. split; [reflexivity|]. apply stamped_self_stamped.
Qed.

Lemma built_run_calls cs : forall self s,
  built self -> run_calls cs self = Ok s -> built s.
Proof.
  induction cs as [|c cs IH]; intros self s Hb; cbn [run_calls].
  - intros [= <-]. exact Hb.
  - destruct (do_call c self) as [[eid self']|x] eqn:Hc; [|discriminate].
    result_simpl. apply IH. exact (built_log c self eid self' Hb Hc).
Qed.

Lemma built_after cs : built (after cs).
Proof.
  unfold after. destruct (run_calls cs init) as [s|x] eqn:H.
  - exact (built_run_calls cs init s built_init H).
  - exact built_init.
Qed.

Lemma after_boot : audit_log (after [boot_call]) = [boot_entry].
Proof. vm_compute. reflexivity. Qed.

Lemma after_boot_decision :
  audit_log (after [boot_call; decision_call]) = [boot_entry; decision_entry].
Proof. vm_compute. reflexivity. Qed.

(** *** [verify_integrity] always returns, and lists every mismatch *)

Lemma mismatching_from_cons log i e rest :
  mismatching_from log i (e :: rest)
  = (if decide (matches log (i, e)) then [] else [(i, e)])
    ++ mismatching_from log (S i) rest.
Proof.
  unfold mismatching_from. rewrite imap_cons, filter_cons.
  replace (i + 0)%nat with i by lia.
  assert (imap ((fun k e0 => ((i + k)%nat, e0)) ∘ S) rest
          = imap (fun k e0 => ((S i + k)%nat, e0)) rest) as ->.
  { apply imap_ext. intros k x _. simpl. f_equal. lia. }
  destruct (decide (matches log (i, e))) as [Hm|Hm].
  - rewrite decide_False by (intros H; exact (H Hm)). reflexivity.
  - rewrite decide_True by exact Hm. reflexivity.
Qed.

Lemma expected_hash_in_loop self i e :
  audit_log self !! i = Some e ->
  _compute_chain_hash self e
    (if (0 <? i)%nat then Some (Z.of_nat i - 1)%Z else None)
  = Ok (expected_hash (audit_log self) i e).
Proof.
  intros Hi. destruct i as [|j].
  - simpl. apply compute_chain_hash_none.
  - replace (0 <? S j)%nat with true by (symmetry; apply Nat.ltb_lt; lia).
    replace (Z.of_nat (S j) - 1)%Z with (Z.of_nat j) by lia.
    apply compute_chain_hash_some.
    apply lookup_lt_Some in Hi. lia.
Qed.

Lemma verify_loop_spec self rest : forall i v,
  drop i (audit_log self) = rest ->
  verify_loop self i rest v
  = Ok (Verification (v_timestamp v) (total_events v)
          (integrity_verified v
           && bool_decide (mismatching_from (audit_log self) i rest = []))
          (issues v ++ map issue_of (mismatching_from (audit_log self) i rest))).
Proof.
  induction rest as [|e rest IH]; intros i v Hdrop.
  - simpl. rewrite andb_true_r, app_nil_r. destruct v; reflexivity.
  - destruct (drop_cons_inv _ _ _ _ Hdrop) as [Hi Hdrop'].
    cbn [verify_loop]. rewrite (expected_hash_in_loop self i e Hi). result_simpl.
    rewrite mismatching_from_cons.
    destruct (decide (matches (audit_log self) (i, e))) as [Hm|Hm].
    + rewrite bool_decide_eq_true_2 by exact Hm.
      rewrite (IH (S i) _ Hdrop'). reflexivity.
    + rewrite bool_decide_eq_false_2 by exact Hm.
      rewrite (IH (S i) _ Hdrop'). cbn [flag v_timestamp total_events
        integrity_verified issues app map andb].
      rewrite <- app_assoc, andb_false_r. reflexivity.
Qed.

Lemma verify_integrity_spec self now :
  verify_integrity self now
  = Ok (Verification (isoformat now) (length (audit_log self))
          (bool_decide (mismatching (audit_log self) = []))
          (map issue_of (mismatching (audit_log self)))).
Proof.
  unfold verify_integrity. rewrite (verify_loop_spec self (audit_log self) 0%nat)
    by reflexivity.
  reflexivity.
Qed.

(** *** The hashed text, field by field *)

Lemma sorted_entry_data (a b c d : Json.value) :
  Json.sorted_items [ (py "event_id", a); (py "timestamp", b);
                      (py "event_type", c); (py "description", d) ]
  = [ (py "description", d); (py "event_id", a);
      (py "event_type", c); (py "timestamp", b) ].
Proof. vm_compute. reflexivity. Qed.

Lemma sorted_entry_data_prev (a b c d p : Json.value) :
  Json.sorted_items ([ (py "event_id", a); (py "timestamp", b);
                       (py "event_type", c); (py "description", d) ]
                     ++ [(py "prev_hash", p)])
  = [ (py "description", d); (py "event_id", a);
      (py "event_type", c); (py "prev_hash", p); (py "timestamp", b) ].
Proof. vm_compute. reflexivity. Qed.

Lemma quoted_key_description :
  Json.encode_basestring_ascii (py "description") = pyq "'description'".
Proof. vm_compute. reflexivity. Qed.
Lemma quoted_key_event_id :
  Json.encode_basestring_ascii (py "event_id") = pyq "'event_id'".
Proof. vm_compute. reflexivity. Qed.
Lemma quoted_key_event_type :
  Json.encode_basestring_ascii (py "event_type") = pyq "'event_type'".
Proof. vm_compute. reflexivity. Qed.
Lemma quoted_key_prev_hash :
  Json.encode_basestring_ascii (py "prev_hash") = pyq "'prev_hash'".
Proof. vm_compute. reflexivity. Qed.
Lemma quoted_key_timestamp :
  Json.encode_basestring_ascii (py "timestamp") = pyq "'timestamp'".
Proof. vm_compute. reflexivity. Qed.

Lemma quoted_value s : Json.encode_basestring_ascii s = Json.quote :: Json.esc s ++ [Json.quote].
Proof. reflexivity. Qed.

Ltac render_normalise :=
  cbn [map Json.join]; unfold Json.dumps_item, Json.dumps_value; cbn [fst snd];
  rewrite quoted_key_description, quoted_key_event_id, quoted_key_event_type,
    quoted_key_timestamp, ?quoted_key_prev_hash, !quoted_value;
  unfold render.

Lemma dumps_entry_data e :
  Json.dumps_sorted (entry_data e)
  = render (description e) (event_id e) (event_type e) None (timestamp e).
Proof.
  unfold Json.dumps_sorted, entry_data. rewrite sorted_entry_data.
  render_normalise.
  generalize (Json.esc (description e)), (Json.esc (event_id e)), (Json.esc (event_type e)),
    (Json.esc (timestamp e)).
  intros x1 x2 x3 x4. rewrite <- !app_assoc, <- !app_comm_cons, <- !app_assoc.
  vm_compute. reflexivity.
Qed.

Lemma dumps_entry_data_prev e p :
  Json.dumps_sorted (entry_data e ++ [(py "prev_hash", p)])
  = render (description e) (event_id e) (event_type e) (Some p) (timestamp e).
Proof.
  unfold Json.dumps_sorted, entry_data. rewrite sorted_entry_data_prev.
  cbn [map Json.join]. unfold Json.dumps_item. cbn [fst snd].
  rewrite quoted_key_description, quoted_key_event_id, quoted_key_event_type,
    quoted_key_timestamp, quoted_key_prev_hash.
  unfold render. generalize (Json.dumps_value p). intros x5.
  unfold Json.dumps_value. rewrite !quoted_value.
  generalize (Json.esc (description e)), (Json.esc (event_id e)), (Json.esc (event_type e)),
    (Json.esc (timestamp e)).
  intros x1 x2 x3 x4. rewrite <- !app_assoc, <- !app_comm_cons, <- !app_assoc.
  vm_compute. reflexivity.
Qed.

Lemma peel lit a b r1 r2 :
  Forall scalar a -> Forall scalar b ->
  lit ++ Json.esc a ++ Json.quote :: r1 = lit ++ Json.esc b ++ Json.quote :: r2 ->
  a = b /\ r1 = r2.
Proof.
  intros Ha Hb H. apply app_inv_head in H. exact (JsonFacts.esc_split a b r1 r2 Ha Hb H).
Qed.

Lemma peel_same lit a r1 r2 :
  lit ++ Json.esc a ++ Json.quote :: r1 = lit ++ Json.esc a ++ Json.quote :: r2 -> r1 = r2.
Proof.
  intros H. apply app_inv_head, app_inv_head in H. injection H as H. exact H.
Qed.

Lemma timestamp_key_is_not_prev_hash_key x y :
  pyq ", 'timestamp': '" ++ x <> pyq ", 'prev_hash': " ++ y.
Proof.
  intros H. apply (f_equal (fun l => nth 3 l 0%N)) in H.
  vm_compute in H. discriminate H.
Qed.

Lemma render_differs_description d d' e e' t t' p p' s s' :
  Forall scalar d -> Forall scalar d' -> d <> d' ->
  render d e t p s <> render d' e' t' p' s'.
Proof.
  intros Hd Hd' Hne H. unfold render in H.
  apply peel in H as [H _]; auto.
Qed.

Lemma render_differs_event_id d e e' t t' p p' s s' :
  Forall scalar e -> Forall scalar e' -> e <> e' ->
  render d e t p s <> render d e' t' p' s'.
Proof.
  intros He He' Hne H. unfold render in H.
  apply peel_same in H. apply peel in H as [H _]; auto.
Qed.

Lemma render_differs_event_type d e t t' p p' s s' :
  Forall scalar t -> Forall scalar t' -> t <> t' ->
  render d e t p s <> render d e t' p' s'.
Proof.
  intros Ht Ht' Hne H. unfold render in H.
  apply peel_same, peel_same in H. apply peel in H as [H _]; auto.
Qed.

Lemma render_differs_timestamp d e t p' s s' :
  Forall scalar s -> Forall scalar s' -> s <> s' ->
  render d e t None s <> render d e t p' s'.
Proof.
  intros Hs Hs' Hne H. unfold render in H.
  apply peel_same, peel_same, peel_same in H.
  destruct p' as [v|].
  - exact (timestamp_key_is_not_prev_hash_key _ _ H).
  - apply peel in H as [H _]; auto.
Qed.

Lemma verifier_input_render log i e :
  exists p, verifier_input log i e
            = render (description e) (event_id e) (event_type e) p (timestamp e).
Proof.
  unfold verifier_input, verifier_data.
  destruct i as [|j]; [exists None; apply dumps_entry_data|].
  destruct (log !! j) as [prev|].
  - eexists (Some _). apply dumps_entry_data_prev.
  - exists None. apply dumps_entry_data.
Qed.

Lemma tampered_text_differs log i m e :
  digested m = true -> changes m e ->
  Forall scalar (old_new m e).1 -> Forall scalar (old_new m e).2 ->
  writer_input e <> verifier_input log i (mutate m e).
Proof.
  intros Hdig Hch Hold Hnew.
  destruct (verifier_input_render log i (mutate m e)) as [p ->].
  unfold writer_input. rewrite dumps_entry_data.
  destruct m as [v|v|v|v|v|v|v]; try discriminate Hdig;
    cbn [mutate description event_id event_type timestamp old_new fst snd] in *.
  - apply render_differs_event_id; auto.
    intros Heq. apply Hch. destruct e; cbn in Heq |- *; subst; reflexivity.
  - apply render_differs_timestamp; auto.
    intros Heq. apply Hch. destruct e; cbn in Heq |- *; subst; reflexivity.
  - apply render_differs_event_type; auto.
    intros Heq. apply Hch. destruct e; cbn in Heq |- *; subst; reflexivity.
  - apply render_differs_description; auto.
    intros Heq. apply Hch. destruct e; cbn in Heq |- *; subst; reflexivity.
Qed.

Lemma mutate_chain_hash m e : chain_hash (mutate m e) = chain_hash e.
Proof. destruct m; reflexivity. Qed.

Lemma elem_of_mismatching log i e :
  (i, e) ∈ mismatching log <-> log !! i = Some e /\ ~ matches log (i, e).
Proof.
  unfold mismatching. rewrite list_elem_of_filter, elem_of_lookup_imap.
  split.
  - intros [Hm (j & x & [= -> ->] & Hj)]. auto.
  - intros [Hi Hm]. split; [exact Hm|]. exists i, e. auto.
Qed.

(** The text hashed when an entry after the first is verified has a
    [prev_hash] item, the text hashed when it was written has none: on a log
    written by [log_event] such an entry passes [verify_integrity] only by a
    collision of SHA-256. *)
Lemma written_text_is_not_verified_text log j prev e :
  log !! j = Some prev -> writer_input e <> verifier_input log (S j) e.
Proof.
  intros Hj. unfold writer_input, verifier_input, verifier_data. rewrite Hj.
  rewrite dumps_entry_data, dumps_entry_data_prev. unfold render. intros H.
  apply peel_same, peel_same, peel_same in H.
  exact (timestamp_key_is_not_prev_hash_key _ _ H).
Qed.

Lemma entries_after_the_first_mismatch self i e :
  built self ->
  audit_log self !! S i = Some e ->
  no_collision (writer_input e) (verifier_input (audit_log self) (S i) e) ->
  (S i, e) ∈ mismatching (audit_log self).
Proof.
  intros Hb He Hsha. apply elem_of_mismatching. split; [exact He|].
  unfold matches, expected_hash. cbn [fst snd].
  pose proof (built_self_stamped self Hb) as Hall.
  rewrite Forall_lookup in Hall. specialize (Hall (S i) e He).
  unfold self_stamped in Hall. rewrite Hall.
  intros Heq. apply (f_equal (default [])) in Heq. cbn [default] in Heq.
  revert Heq. unfold id. apply Hsha.
  destruct (lookup_lt_is_Some_2 (audit_log self) i) as [prev Hprev].
  { apply lookup_lt_Some in He. lia. }
  exact (written_text_is_not_verified_text _ i prev e Hprev).
Qed.

(** *** Fields outside the digest *)

Lemma same_digest_view_event_id e e' : same_digest_view e e' -> event_id e = event_id e'.
Proof. intros [H _]. unfold entry_data in H. congruence. Qed.

Lemma compute_chain_hash_same_view s s' e e' idx :
  Forall2 same_digest_view (audit_log s) (audit_log s') ->
  same_digest_view e e' ->
  _compute_chain_hash s e idx = _compute_chain_hash s' e' idx.
Proof.
  intros Hlog [He _]. unfold _compute_chain_hash. rewrite He.
  destruct idx as [p|]; [|reflexivity].
  destruct (0 <=? p)%Z; [|reflexivity].
  destruct (getitem_Forall2 _ _ _ p Hlog) as [[-> ->]|(x & x' & -> & -> & _ & Hh)];
    [reflexivity|].
  result_simpl. rewrite Hh. reflexivity.
Qed.

Lemma verify_loop_same_view s s' :
  Forall2 same_digest_view (audit_log s) (audit_log s') ->
  forall rest rest', Forall2 same_digest_view rest rest' ->
  forall i v, verify_loop s i rest v = verify_loop s' i rest' v.
Proof.
  intros Hlog rest rest' Hrest.
  induction Hrest as [|e e' rest rest' He Hrest IH]; intros i v; [reflexivity|].
  cbn [verify_loop].
  rewrite (compute_chain_hash_same_view s s' e e' _ Hlog He).
  destruct (_compute_chain_hash s' e' _) as [h|x]; [|reflexivity].
  result_simpl. destruct He as [Hd Hh]. rewrite Hh.
  unfold flag. rewrite (same_digest_view_event_id e e' (conj Hd Hh)). apply IH.
Qed.

Lemma undigested_same_view m e : digested m = false -> same_digest_view e (mutate m e).
Proof. destruct m; try discriminate; intros _; split; reflexivity. Qed.

Lemma same_digest_view_refl l : Forall2 same_digest_view l l.
Proof. apply Forall_Forall2_diag, Forall_forall. intros e _. split; reflexivity. Qed.

Lemma tamper_same_view self i m :
  digested m = false ->
  Forall2 same_digest_view (audit_log self) (audit_log (tamper self i m)).
Proof.
  intros Hm. cbn [tamper audit_log]. apply Forall2_alter_r.
  - apply same_digest_view_refl.
  - intros x y _ _ [Hd Hh]. destruct (undigested_same_view m y Hm) as [Hd' Hh'].
    split; congruence.
Qed.

(** Mutating [actor], [metadata] or [sensitivity] changes nothing that
    [verify_integrity] reads. *)
Lemma undigested_mutation_unnoticed self i m now :
  digested m = false ->
  verify_integrity (tamper self i m) now = verify_integrity self now.
Proof.
  intros Hm. unfold verify_integrity.
  pose proof (tamper_same_view self i m Hm) as Hview.
  rewrite <- (Forall2_length _ _ _ Hview).
  symmetry. apply verify_loop_same_view; assumption.
Qed.

(** *** [query_events] as one filter *)

Lemma apply_filter_spec d key field results :
  apply_filter d key field results
  = filter (fun e => field_ok (Some d) key (field e) = true) results.
Proof.
  unfold apply_filter, field_ok. destruct (d !! key) as [v|].
  - apply list_filter_iff. intros e. rewrite bool_decide_eq_true. reflexivity.
  - apply filter_all_bool.
Qed.

Lemma field_ok_empty key x : field_ok (Some ∅) key x = true.
Proof. unfold field_ok. rewrite lookup_empty. reflexivity. Qed.

Lemma filters_spec (filters : option (gmap (list N) (list N))) (log : list entry) :
  (if dict_truthy filters
   then apply_filter (default ∅ filters) (py "sensitivity") sensitivity
          (apply_filter (default ∅ filters) (py "actor") actor
             (apply_filter (default ∅ filters) (py "event_type") event_type log))
   else log)
  = filter (fun e => field_ok filters (py "event_type") (event_type e)
                     && field_ok filters (py "actor") (actor e)
                     && field_ok filters (py "sensitivity") (sensitivity e) = true)
           log.
Proof.
  destruct filters as [d|]; cbn [dict_truthy default].
  - destruct (decide (d = ∅)) as [->|Hne].
    + rewrite bool_decide_eq_true_2 by reflexivity. cbn [negb].
      symmetry. apply filter_true. intros e. rewrite !field_ok_empty. reflexivity.
    + rewrite bool_decide_eq_false_2 by exact Hne. cbn [negb].
      rewrite !apply_filter_spec, !filter_and_bool.
      apply list_filter_iff. intros e. unfold id. rewrite !andb_true_iff. tauto.
  - apply filter_all_bool.
Qed.

Lemma lower_spec start_time (l : list entry) :
  (if truthy start_time
   then filter (fun e => str_ge (timestamp e) (default [] start_time) = true) l
   else l)
  = filter (fun e => lower_ok start_time (timestamp e) = true) l.
Proof.
  destruct start_time as [[|c s]|]; cbn [truthy default lower_ok];
    try apply filter_all_bool.
  reflexivity.
Qed.

Lemma upper_spec end_time (l : list entry) :
  (if truthy end_time
   then filter (fun e => str_le (timestamp e) (default [] end_time) = true) l
   else l)
  = filter (fun e => upper_ok end_time (timestamp e) = true) l.
Proof.
  destruct end_time as [[|c s]|]; cbn [truthy default upper_ok];
    try apply filter_all_bool.
  reflexivity.
Qed.

Lemma query_events_spec self filters start_time end_time :
  query_events self filters start_time end_time
  = filter (fun e => selected filters start_time end_time e = true) (audit_log self).
Proof.
  unfold query_events, selected. cbv zeta.
  rewrite upper_spec, lower_spec, filters_spec, !filter_and_bool.
  apply list_filter_iff. intros e. rewrite !andb_true_iff. tauto.
Qed.

(** *** The claims *)

(** C1, at the failing input: after two calls of [log_event] on a fresh
    trail, and no modification, [verify_integrity] returns
    [integrity_verified = False] and reports the second entry, whose hash
    [log_event] computed without the previous hash. *)
Theorem verify_integrity_flags_second_entry now :
  let self := after [boot_call; decision_call] in
  built self
  /\ audit_log self = [boot_entry; decision_entry]
  /\ verify_integrity self now
     = Ok (Verification (isoformat now) 2 false
             [Issue (event_id decision_entry) (py "Chain hash mismatch")]).
Proof.
  cbv zeta. split; [apply built_after|]. split; [apply after_boot_decision|].
  rewrite verify_integrity_spec, after_boot_decision.
  generalize (isoformat now). intros ts. vm_compute. reflexivity.
Qed.

(** C2, at the failing input: [log_event] stamps every entry with the digest
    of its own four fields only; in the log of two calls the stored hash of
    the second entry is the digest computed with no previous-hash input, and
    differs from the digest computed with the first entry's hash as input. *)
Theorem log_event_hashes_without_previous :
  (forall c self, exists e self',
      do_call c self = Ok (event_id e, self')
      /\ audit_log self' = audit_log self ++ [e]
      /\ chain_hash e = Some (Sha256.hexdigest (Json.dumps_sorted (entry_data e))))
  /\ let self := after [boot_call; decision_call] in
     exists h,
       audit_log self = [boot_entry; decision_entry]
       /\ _compute_chain_hash self decision_entry (Some 0%Z) = Ok h
       /\ chain_hash decision_entry <> Some h
       /\ _compute_chain_hash self decision_entry None
          = Ok (default [] (chain_hash decision_entry)).
Proof.
  split; [exact do_call_ok|].
  cbv zeta. eexists. split; [apply after_boot_decision|].
  split; [|split].
  - rewrite (compute_chain_hash_some _ _ 0%nat); [reflexivity|].
    rewrite after_boot_decision. cbn [length]. lia.
  - rewrite after_boot_decision. vm_compute. discriminate.
  - rewrite compute_chain_hash_none. reflexivity.
Qed.

(** C3, counterexample: on a log of one entry written by [log_event],
    changing the [actor] of the entry leaves [verify_integrity] with
    [integrity_verified = True] and no issue. *)
Lemma actor_tampering_is_not_flagged :
  let self := after [boot_call] in
  let m := SetActor (py "mallory") in
  built self
  /\ audit_log self !! 0%nat = Some boot_entry
  /\ changes m boot_entry
  /\ forall now,
       verify_integrity (tamper self 0 m) now
       = Ok (Verification (isoformat now) 1 true []).
Proof.
  cbv zeta. split; [apply built_after|].
  split; [rewrite after_boot; reflexivity|].
  split; [intros H; vm_compute in H; discriminate H|].
  intros now. rewrite undigested_mutation_unnoticed by reflexivity.
  rewrite verify_integrity_spec, after_boot.
  generalize (isoformat now). intros ts. vm_compute. reflexivity.
Qed.

(** C3, as amended: on a log written by [log_event], assigning a different
    value to [event_id], [timestamp], [event_type] or [description] of entry
    [i] (old and new value without lone surrogates) makes [verify_integrity]
    return [integrity_verified = False] with the entry's current [event_id]
    among the issues, provided SHA-256 does not collide on the text hashed at
    writing and the text hashed at verification; the issues are those of
    every mismatching entry of the whole log, in log order. *)
Theorem tampering_a_digested_field_is_flagged self i e m now :
  built self ->
  audit_log self !! i = Some e ->
  digested m = true ->
  changes m e ->
  Forall scalar (old_new m e).1 ->
  Forall scalar (old_new m e).2 ->
  no_collision (writer_input e)
               (verifier_input (audit_log (tamper self i m)) i (mutate m e)) ->
  exists r,
    verify_integrity (tamper self i m) now = Ok r
    /\ integrity_verified r = false
    /\ Issue (event_id (mutate m e)) (py "Chain hash mismatch") ∈ issues r
    /\ issues r = map issue_of (mismatching (audit_log (tamper self i m))).
Proof.
  intros Hbuilt Hi Hdig Hch Hold Hnew Hsha.
  rewrite verify_integrity_spec. eexists. split; [reflexivity|].
  cbn [integrity_verified issues].
  assert ((i, mutate m e) ∈ mismatching (audit_log (tamper self i m))) as Hin.
  { apply elem_of_mismatching. split.
    - cbn [tamper audit_log]. rewrite list_lookup_alter_eq, Hi. reflexivity.
    - unfold matches, expected_hash. cbn [fst snd]. rewrite mutate_chain_hash.
      pose proof (built_self_stamped self Hbuilt) as Hall.
      rewrite Forall_lookup in Hall. specialize (Hall i e Hi).
      unfold self_stamped in Hall. rewrite Hall.
      intros Heq. apply (f_equal (default [])) in Heq. cbn [default] in Heq.
      revert Heq. unfold id. apply Hsha.
      apply tampered_text_differs; assumption. }
  split; [|split; [|reflexivity]].
  - apply bool_decide_eq_false_2. intros Hnil. rewrite Hnil in Hin.
    inversion Hin.
  - change (Issue (event_id (mutate m e)) (py "Chain hash mismatch"))
      with (issue_of (i, mutate m e)).
    apply list_elem_of_In, in_map, list_elem_of_In. exact Hin.
Qed.

Lemma tampering_a_digested_field_is_flagged_witness :
  let self := after [boot_call] in
  let m := SetDescription (py "reboot") in
  built self
  /\ audit_log self !! 0%nat = Some boot_entry
  /\ digested m = true
  /\ changes m boot_entry
  /\ Forall scalar (old_new m boot_entry).1
  /\ Forall scalar (old_new m boot_entry).2
  /\ no_collision (writer_input boot_entry)
       (verifier_input (audit_log (tamper self 0 m)) 0 (mutate m boot_entry))
  /\ exists r,
       verify_integrity (tamper self 0 m) (Datetime 2024 1 2 3 5 0 0) = Ok r
       /\ integrity_verified r = false
       /\ Issue (event_id (mutate m boot_entry)) (py "Chain hash mismatch") ∈ issues r
       /\ issues r = map issue_of (mismatching (audit_log (tamper self 0 m))).
Proof.
  cbv zeta.
  assert (built (after [boot_call])) as H1 by apply built_after.
  assert (audit_log (after [boot_call]) !! 0%nat = Some boot_entry) as H2
    by (rewrite after_boot; reflexivity).
  assert (changes (SetDescription (py "reboot")) boot_entry) as H4
    by (intros H; vm_compute in H; discriminate H).
  assert (Forall scalar (old_new (SetDescription (py "reboot")) boot_entry).1) as H5
    by (apply (bool_decide_unpack _); vm_compute; reflexivity).
  assert (Forall scalar (old_new (SetDescription (py "reboot")) boot_entry).2) as H6
    by (apply (bool_decide_unpack _); vm_compute; reflexivity).
  assert (no_collision (writer_input boot_entry)
            (verifier_input
               (audit_log (tamper (after [boot_call]) 0 (SetDescription (py "reboot"))))
               0 (mutate (SetDescription (py "reboot")) boot_entry))) as H7
    by (intros _ H; vm_compute in H; discriminate H).
  repeat (split; [assumption || reflexivity|]).
  exact (tampering_a_digested_field_is_flagged _ 0%nat boot_entry
           (SetDescription (py "reboot")) _ H1 H2 eq_refl H4 H5 H6 H7).
Defined.

(** C6: every exported event is [public_event e] for an entry [e] of the log
    with [sensitivity == "public"], and its keys are exactly [event_id],
    [timestamp], [event_type], [description], [actor]: neither [metadata]
    nor [chain_hash]. *)
Theorem export_contains_only_public_events self now_export now_verify :
  exists r,
    export_public_audit_data self now_export now_verify = Ok r
    /\ events r = map public_event (filter is_public (audit_log self))
    /\ total_public_events r = length (events r)
    /\ Forall (fun ev =>
          (exists e, e ∈ audit_log self /\ sensitivity e = py "public"
                     /\ ev = public_event e)
          /\ map fst ev = [py "event_id"; py "timestamp"; py "event_type";
                           py "description"; py "actor"]
          /\ (py "metadata" ∉ map fst ev)
          /\ (py "chain_hash" ∉ map fst ev))
         (events r).
Proof.
  unfold export_public_audit_data. rewrite verify_integrity_spec. result_simpl.
  eexists. split; [reflexivity|]. cbn [events total_public_events].
  split; [reflexivity|]. split; [reflexivity|].
  apply List.Forall_forall. intros ev Hev.
  apply in_map_iff in Hev as (e & <- & He).
  apply list_elem_of_In, list_elem_of_filter in He as [Hpub He].
  split; [exists e; auto|].
  split; [reflexivity|].
  split; cbn [public_event map fst]; intros H; apply list_elem_of_In in H;
    vm_compute in H; intuition discriminate.
Qed.

Lemma unknown_filter_lookup (d : gmap (list N) (list N)) k v key :
  k <> key -> (<[k := v]> d) !! key = d !! key.
Proof. intros H. apply lookup_insert_ne. exact H. Qed.

(** C8, counterexample: a filter on the unknown key [colour] returns the
    whole log, not an empty result. *)
Lemma unknown_filter_key_matches_everything :
  query_events (after [boot_call]) (Some {[py "colour" := py "red"]}) None None
  = [boot_entry]
  /\ query_events (after [boot_call]) (Some {[py "colour" := py "red"]}) None None <> [].
Proof.
  assert (query_events (after [boot_call]) (Some {[py "colour" := py "red"]}) None None
          = [boot_entry]) as H.
  { rewrite query_events_spec, after_boot. vm_compute. reflexivity. }
  split; [exact H|]. rewrite H. discriminate.
Qed.

(** C8, as amended: a key of [filters] other than [event_type], [actor] and
    [sensitivity] is ignored: the query returns what it returns without that
    key, and does not fail. *)
Theorem unknown_filter_key_is_ignored (self : AuditTrail)
    (d : gmap (list N) (list N)) (k v : pystr) (start_time end_time : option pystr) :
  k <> py "event_type" -> k <> py "actor" -> k <> py "sensitivity" ->
  query_events self (Some (<[k := v]> d)) start_time end_time
  = query_events self (Some d) start_time end_time.
Proof.
  intros H1 H2 H3. rewrite !query_events_spec.
  apply list_filter_iff. intros e. unfold selected, field_ok.
  rewrite !lookup_insert_ne by assumption. reflexivity.
Qed.

Lemma unknown_filter_key_is_ignored_witness :
  py "colour" <> py "event_type" /\ py "colour" <> py "actor"
  /\ py "colour" <> py "sensitivity"
  /\ query_events (after [boot_call]) (Some (<[py "colour" := py "red"]> ∅)) None None
     = query_events (after [boot_call]) (Some ∅) None None.
Proof.
  assert (py "colour" <> py "event_type") as H1 by (vm_compute; discriminate).
  assert (py "colour" <> py "actor") as H2 by (vm_compute; discriminate).
  assert (py "colour" <> py "sensitivity") as H3 by (vm_compute; discriminate).
  repeat (split; [assumption|]).
  exact (unknown_filter_key_is_ignored _ ∅ _ _ None None H1 H2 H3).
Defined.

(** C9, counterexample: with the empty string as [end_time] the query
    returns an entry although no timestamp of the log is below or equal to
    the empty string: an empty bound is no bound. *)
Lemma empty_end_time_is_no_bound :
  query_events (after [boot_call]) None None (Some []) = [boot_entry]
  /\ filter (fun e => str_le (timestamp e) [] = true) (audit_log (after [boot_call])) = []
  /\ query_events (after [boot_call]) None None (Some [])
     <> filter (fun e => str_le (timestamp e) [] = true) (audit_log (after [boot_call])).
Proof.
  assert (query_events (after [boot_call]) None None (Some []) = [boot_entry]) as H1
    by (unfold query_events; cbn [dict_truthy truthy]; apply after_boot).
  assert (filter (fun e => str_le (timestamp e) [] = true)
                 (audit_log (after [boot_call])) = []) as H2
    by (rewrite after_boot; vm_compute; reflexivity).
  split; [exact H1|]. split; [exact H2|]. rewrite H1, H2. discriminate.
Qed.

(** C9, as amended: [query_events] returns the entries of the log, in log
    order, that pass [selected]: equal to the filter value on each of
    [event_type], [actor], [sensitivity] present in [filters], and within
    every bound that is neither [None] nor the empty string, bounds
    included. With no filter and no bound it returns the whole log; it
    never fails. *)
Theorem query_events_selects self filters start_time end_time :
  query_events self filters start_time end_time
  = filter (fun e => selected filters start_time end_time e = true) (audit_log self)
  /\ query_events self None None None = audit_log self
  /\ sublist (query_events self filters start_time end_time) (audit_log self)
  /\ forall e, e ∈ query_events self filters start_time end_time
               <-> e ∈ audit_log self
                   /\ selected filters start_time end_time e = true.
Proof.
  split; [apply query_events_spec|]. split; [reflexivity|].
  rewrite query_events_spec. split; [apply sublist_filter|].
  intros e. rewrite list_elem_of_filter. tauto.
Qed.

(** C10: [get_statistics] returns on every state; on an empty log it returns
    zero counts, an empty [event_types] and [None] for the oldest and the
    newest event. *)
Theorem get_statistics_total :
  (forall self, exists st, get_statistics self = Ok st)
  /\ forall v index chain enabled,
       get_statistics (Trail v [] index chain enabled)
       = Ok (Statistics 0 ∅ 0 (length chain) None None).
Proof.
  split; [|reflexivity].
  intros self. unfold get_statistics.
  destruct (audit_log self) as [|e l] eqn:Hlog; [eexists; reflexivity|].
  cbn [list_truthy].
  assert (getitem (e :: l) 0 = Ok e) as -> by reflexivity. result_simpl.
  assert (exists x, getitem (e :: l) (-1) = Ok x) as [x ->].
  { unfold getitem. cbn [Z.ltb Z.compare length].
    destruct (Z.ltb_spec (-1 + Z.of_nat (S (length l))) 0) as [?|_]; [lia|].
    replace (Z.to_nat (-1 + Z.of_nat (S (length l)))) with (length l) by lia.
    destruct (lookup_lt_is_Some_2 (e :: l) (length l)) as [x ->];
      [cbn [length]; lia|].
    eexists. reflexivity. }
  result_simpl. eexists. reflexivity.
Qed.

Lemma genesis_matches self e0 rest :
  built self -> audit_log self = e0 :: rest -> matches (audit_log self) (0%nat, e0).
Proof.
  intros Hb Hlog. pose proof (built_self_stamped self Hb) as Hall.
  rewrite Hlog in Hall. apply Forall_cons in Hall as [H0 _]. exact H0.
Qed.



End AuditSystemFacts.

(** ** audit_system.py: invariants of the log, the index and the chain *)

Module AuditTrailFacts.
Import AuditSystem AuditSystemFacts AuditVocabulary.

(** *** The shape of a digest *)

Lemma big_endian_bytes w x : Forall (fun b => (b < 256)%N) (Sha256.big_endian w x).
Proof.
  unfold Sha256.big_endian. apply List.Forall_forall. intros b Hb.
  apply in_map_iff in Hb as (i & <- & _).
  change 0xFF%N with (N.ones 8). rewrite N.land_ones.
  apply N.mod_lt. discriminate.
Qed.

Lemma sha256_bytes msg :
  length (Sha256.sha256 msg) = 32%nat
  /\ Forall (fun b => (b < 256)%N) (Sha256.sha256 msg).
Proof.
  unfold Sha256.sha256, Sha256.digest_bytes.
  generalize (fold_left Sha256.compress
                (Sha256.blocks (length (Sha256.words (Sha256.pad msg)))
                               (Sha256.words (Sha256.pad msg)))
                Sha256.initial_hash).
  intros h. split.
  - cbn [flat_map]. rewrite !length_app. reflexivity.
  - cbn [flat_map]. repeat apply Forall_app_2; try apply big_endian_bytes.
    constructor.
Qed.

Lemma hex_digit_is_hex d : (d < 16)%N -> is_hex_digit (Sha256.hex_digit d).
Proof.
  intros Hd. unfold is_hex_digit, Sha256.hex_digit.
  destruct (N.ltb_spec d 10); lia.
Qed.

Lemma hex_of_bytes bs :
  Forall (fun b => (b < 256)%N) bs ->
  length (flat_map Sha256.hex_byte bs) = (2 * length bs)%nat
  /\ Forall is_hex_digit (flat_map Sha256.hex_byte bs).
Proof.
  induction 1 as [|b bs Hb _ [IHl IHf]]; [split; [reflexivity|constructor]|].
  cbn [flat_map]. split.
  - rewrite length_app, IHl. cbn [Sha256.hex_byte length]. lia.
  - apply Forall_app_2; [|exact IHf]. unfold Sha256.hex_byte.
    constructor; [|constructor; [|constructor]]; apply hex_digit_is_hex.
    + apply N.Div0.div_lt_upper_bound. exact Hb.
    + apply N.mod_lt. discriminate.
Qed.

Lemma hexdigest_hex msg : hex_text 64 (Sha256.hexdigest msg).
Proof.
  destruct (sha256_bytes msg) as [Hl Hb].
  destruct (hex_of_bytes _ Hb) as [Hl' Hf].
  split; [|exact Hf]. unfold Sha256.hexdigest. rewrite Hl', Hl. reflexivity.
Qed.

Lemma event_id_at_hex now count : hex_text 16 (event_id_at now count).
Proof.
  unfold event_id_at.
  destruct (hexdigest_hex (isoformat now ++ py ":" ++ decimal (N.of_nat count)))
    as [Hl Hf].
  split.
  - rewrite length_take, Hl. reflexivity.
  - apply Forall_take. exact Hf.
Qed.

(** *** Induction on the calls of [log_event] *)

Lemma built_ind_log (P : AuditTrail -> Prop) :
  P init ->
  (forall c self, built self -> P self ->
     let e := stamped (c_now_id c) (c_now_ts c) (length (audit_log self))
                      (c_event_type c) (c_description c) (c_actor c)
                      (c_metadata c) (c_sensitivity c) in
     P (_update_integrity_chain
          (_index_event (append_entry self e) (event_id e) (c_event_type c)) e)) ->
  forall self, built self -> P self.
Proof.
  intros Hinit Hstep self Hb. induction Hb as [|c self eid self' Hb IH Hcall].
  - exact Hinit.
  - unfold do_call in Hcall. rewrite log_event_ok in Hcall.
    injection Hcall as _ <-. apply Hstep; assumption.
Qed.

(** X1: in every log written by [log_event], each [event_id] is a text of
    16 hexadecimal digits and each [chain_hash] is a text of 64 hexadecimal
    digits, never [None]. *)
Theorem ids_and_hashes_are_hex self :
  built self ->
  Forall (fun e => hex_text 16 (event_id e)
                   /\ exists h, chain_hash e = Some h /\ hex_text 64 h)
         (audit_log self).
Proof.
  revert self. apply built_ind_log; [constructor|].
  intros c self _ IH e. cbn [_update_integrity_chain _index_event append_entry audit_log].
  apply Forall_app_2; [exact IH|]. constructor; [|constructor].
  split; [apply event_id_at_hex|]. eexists. split; [reflexivity|apply hexdigest_hex].
Qed.

Lemma ids_and_hashes_are_hex_witness :
  built (after [boot_call; decision_call])
  /\ Forall (fun e => hex_text 16 (event_id e)
                      /\ exists h, chain_hash e = Some h /\ hex_text 64 h)
            (audit_log (after [boot_call; decision_call])).
Proof.
  split; [apply built_after|].
  exact (ids_and_hashes_are_hex _ (built_after [boot_call; decision_call])).
Defined.

(** *** [get_statistics], field by field *)

Lemma getitem_first {A} (x : A) l : getitem (x :: l) 0 = Ok x.
Proof. reflexivity. Qed.

Lemma getitem_minus_one {A} (l : list A) x :
  last l = Some x -> getitem l (-1) = Ok x.
Proof.
  intros Hx. unfold getitem. cbn [Z.ltb Z.compare].
  assert (l <> []) as Hne by (intros ->; discriminate).
  assert (0 < length l)%nat as Hlen by (destruct l; [contradiction|cbn; lia]).
  destruct (Z.ltb_spec (-1 + Z.of_nat (length l)) 0) as [?|_]; [lia|].
  replace (Z.to_nat (-1 + Z.of_nat (length l))) with (Nat.pred (length l)) by lia.
  rewrite <- last_lookup, Hx. reflexivity.
Qed.

(** The counting loop of [get_statistics] and [get_access_statistics]. *)
Lemma count_by_key {A} (key : A -> pystr) k (log : list A) :
  forall m : gmap (list N) nat,
  fold_left (fun (counts : gmap (list N) nat) (x : A) =>
               <[key x := default 0%nat (counts !! key x) + 1]> counts) log m !! k
  = match length (filter (fun x => key x = k) log) with
    | O => m !! k
    | S n => Some (default 0%nat (m !! k) + S n)%nat
    end.
Proof.
  induction log as [|e log IH]; intros m; [reflexivity|].
  cbn [fold_left]. rewrite IH, filter_cons.
  destruct (decide (key e = k)) as [->|Hne].
  - cbn [length]. rewrite lookup_insert_eq. cbn [default].
    destruct (length (filter _ log)); unfold id; f_equal; lia.
  - rewrite lookup_insert_ne by exact Hne. reflexivity.
Qed.

Lemma count_event_types_lookup log k :
  count_event_types log !! k = positive (length (of_type k log)).
Proof.
  unfold count_event_types, of_type.
  rewrite (count_by_key event_type), lookup_empty.
  destruct (length _); reflexivity.
Qed.

Lemma get_statistics_spec self :
  get_statistics self
  = Ok (Statistics (length (audit_log self)) (count_event_types (audit_log self))
          (length (filter is_public (audit_log self)))
          (length (chain_integrity self))
          (timestamp <$> head (audit_log self))
          (timestamp <$> last (audit_log self))).
Proof.
  unfold get_statistics. destruct (audit_log self) as [|e l] eqn:Hlog; [reflexivity|].
  cbn [list_truthy]. rewrite getitem_first. result_simpl.
  destruct (last (e :: l)) as [x|] eqn:Hlast.
  - rewrite (getitem_minus_one _ x Hlast). reflexivity.
  - apply last_None in Hlast. discriminate.
Qed.

(** X4: on every trail [get_statistics] returns, with [total_events] the
    length of the log, [event_types] holding for each type that occurs the
    number of its entries and no key for a type that does not occur,
    [public_events] the number of entries whose sensitivity is ["public"]
    (at most [total_events]), and [oldest_event] and [newest_event] the
    timestamps of the first and the last entry ([None] on an empty log). *)
Theorem statistics_count_the_log self :
  exists st,
    get_statistics self = Ok st
    /\ st_total_events st = length (audit_log self)
    /\ (forall k, st_event_types st !! k = positive (length (of_type k (audit_log self))))
    /\ st_public_events st = length (filter is_public (audit_log self))
    /\ (st_public_events st <= st_total_events st)%nat
    /\ oldest_event st = timestamp <$> head (audit_log self)
    /\ newest_event st = timestamp <$> last (audit_log self).
Proof.
  rewrite get_statistics_spec. eexists. split; [reflexivity|].
  cbn [st_total_events st_event_types st_public_events oldest_event newest_event].
  split; [reflexivity|]. split; [intros k; apply count_event_types_lookup|].
  split; [reflexivity|]. split; [apply length_filter|]. split; reflexivity.
Qed.

(** X2: in every state reached by [log_event], [chain_integrity] holds one
    item per log entry, in log order, with the entry's [event_id],
    [timestamp] and [chain_hash]; so [get_statistics] reports a
    [chain_length] equal to [total_events]. *)
Theorem chain_integrity_mirrors_log self :
  built self ->
  chain_integrity self = map chain_entry_of (audit_log self)
  /\ exists st, get_statistics self = Ok st
                /\ st_chain_length st = st_total_events st.
Proof.
  intros Hb.
  assert (chain_integrity self = map chain_entry_of (audit_log self)) as Hmirror.
  { revert self Hb. apply built_ind_log; [reflexivity|].
    intros c self _ IH e.
    cbn [_update_integrity_chain _index_event append_entry audit_log chain_integrity].
    rewrite map_app, IH. reflexivity. }
  split; [exact Hmirror|].
  rewrite get_statistics_spec. eexists. split; [reflexivity|].
  cbn [st_chain_length st_total_events]. rewrite Hmirror. apply length_map.
Qed.

Lemma chain_integrity_mirrors_log_witness :
  built (after [boot_call; decision_call])
  /\ chain_integrity (after [boot_call; decision_call])
     = map chain_entry_of (audit_log (after [boot_call; decision_call]))
  /\ exists st, get_statistics (after [boot_call; decision_call]) = Ok st
                /\ st_chain_length st = st_total_events st.
Proof.
  split; [apply built_after|].
  exact (chain_integrity_mirrors_log _ (built_after [boot_call; decision_call])).
Defined.

(** *** The type index *)

Lemma keys_differ :
  py "event_type" <> py "actor" /\ py "event_type" <> py "sensitivity"
  /\ py "actor" <> py "sensitivity".
Proof. repeat split; vm_compute; discriminate. Qed.

Lemma query_by_sensitivity self v :
  query_events self (Some {[py "sensitivity" := v]}) None None
  = filter (fun e => sensitivity e = v) (audit_log self).
Proof.
  destruct keys_differ as (_ & H2 & H3).
  rewrite query_events_spec. apply list_filter_iff. intros e.
  unfold selected, field_ok. cbn [lower_ok upper_ok].
  rewrite !lookup_singleton_ne by (intros H; symmetry in H; contradiction).
  rewrite lookup_singleton_eq. cbn [andb]. rewrite !andb_true_r.
  apply bool_decide_eq_true.
Qed.

Lemma query_by_event_type self k :
  query_events self (Some {[py "event_type" := k]}) None None
  = of_type k (audit_log self).
Proof.
  destruct keys_differ as (H1 & H2 & _).
  rewrite query_events_spec. apply list_filter_iff. intros e.
  unfold selected, field_ok. cbn [lower_ok upper_ok].
  rewrite (lookup_singleton_ne _ (py "actor")) by assumption.
  rewrite (lookup_singleton_ne _ (py "sensitivity")) by assumption.
  rewrite lookup_singleton_eq. cbn [andb]. rewrite !andb_true_r.
  apply bool_decide_eq_true.
Qed.

Lemma ids_of_type_snoc k log e :
  ids_of_type k (log ++ [e])
  = ids_of_type k log ++ (if decide (event_type e = k) then [event_id e] else []).
Proof.
  unfold ids_of_type, of_type. rewrite filter_app, map_app. f_equal.
  rewrite filter_cons, filter_nil. destruct (decide (event_type e = k)); reflexivity.
Qed.

Lemma default_nonempty {A} (l : list A) : default [] (nonempty l) = l.
Proof. destruct l; reflexivity. Qed.

Lemma index_event_lookup self eid ty k :
  event_index (_index_event self eid ty) !! k
  = if decide (value ty = k)
    then Some (default [] (event_index self !! k) ++ [eid])
    else event_index self !! k.
Proof.
  unfold _index_event. cbn [event_index].
  destruct (decide (value ty = k)) as [<-|Hne].
  - rewrite lookup_insert_eq. f_equal. f_equal.
    destruct (event_index self !! value ty) eqn:H; [rewrite H; reflexivity|].
    rewrite lookup_insert_eq. reflexivity.
  - rewrite lookup_insert_ne by exact Hne.
    destruct (event_index self !! value ty); [reflexivity|].
    rewrite lookup_insert_ne by exact Hne. reflexivity.
Qed.

Lemma event_index_lookup self :
  built self ->
  forall k, event_index self !! k = nonempty (ids_of_type k (audit_log self)).
Proof.
  revert self.
  apply (built_ind_log (fun self =>
    forall k, event_index self !! k = nonempty (ids_of_type k (audit_log self))));
    [intros k; apply lookup_empty|].
  intros c self _ IH e k.
  cbn [_update_integrity_chain event_index audit_log].
  rewrite index_event_lookup.
  change (audit_log (_index_event (append_entry self e) (event_id e) (c_event_type c)))
    with (audit_log self ++ [e]).
  change (event_index (append_entry self e)) with (event_index self).
  rewrite ids_of_type_snoc, IH, default_nonempty.
  change (event_type e) with (value (c_event_type c)).
  destruct (decide (value (c_event_type c) = k)) as [Hk|Hk].
  - destruct (ids_of_type k (audit_log self)); reflexivity.
  - rewrite app_nil_r. reflexivity.
Qed.

(** X3: in every state reached by [log_event], [event_index] has a key
    exactly for the event types that occur in the log, and the list under a
    key is the [event_id]s of the entries of that type in log order: the ids
    of the entries that [query_events] returns for the filter
    [{"event_type": k}]. *)
Theorem event_index_lists_ids_by_type self k :
  built self ->
  event_index self !! k = nonempty (ids_of_type k (audit_log self))
  /\ (event_index self !! k = None <-> Forall (fun e => event_type e <> k) (audit_log self))
  /\ default [] (event_index self !! k)
     = map event_id (query_events self (Some {[py "event_type" := k]}) None None).
Proof.
  intros Hb. pose proof (event_index_lookup self Hb k) as Hk.
  split; [exact Hk|]. split.
  - rewrite Hk. unfold ids_of_type, of_type. split.
    + intros Hnone. apply Forall_forall. intros e He Heq.
      assert (e ∈ filter (fun e0 => event_type e0 = k) (audit_log self)) as Hin
        by (apply list_elem_of_filter; auto).
      destruct (filter (fun e0 => event_type e0 = k) (audit_log self));
        [inversion Hin|discriminate Hnone].
    + intros Hall.
      destruct (filter (fun e0 => event_type e0 = k) (audit_log self)) as [|x l] eqn:Hf;
        [reflexivity|].
      assert (x ∈ filter (fun e0 => event_type e0 = k) (audit_log self)) as Hin
        by (rewrite Hf; left).
      apply list_elem_of_filter in Hin as [Hx Hin].
      rewrite Forall_forall in Hall. destruct (Hall x Hin Hx).
  - rewrite Hk, default_nonempty, query_by_event_type. reflexivity.
Qed.

Lemma event_index_lists_ids_by_type_witness :
  built (after [boot_call; decision_call])
  /\ event_index (after [boot_call; decision_call]) !! py "ethical_decision"
     = nonempty (ids_of_type (py "ethical_decision")
                   (audit_log (after [boot_call; decision_call])))
  /\ (event_index (after [boot_call; decision_call]) !! py "ethical_decision" = None
      <-> Forall (fun e => event_type e <> py "ethical_decision")
                 (audit_log (after [boot_call; decision_call])))
  /\ default [] (event_index (after [boot_call; decision_call]) !! py "ethical_decision")
     = map event_id
         (query_events (after [boot_call; decision_call])
            (Some {[py "event_type" := py "ethical_decision"]}) None None).
Proof.
  split; [apply built_after|].
  exact (event_index_lists_ids_by_type _ (py "ethical_decision")
           (built_after [boot_call; decision_call])).
Defined.

(** *** What [verify_integrity] reports on a log written by [log_event] *)

Lemma mismatching_from_all log rest : forall i,
  (forall k e, rest !! k = Some e -> ~ matches log ((i + k)%nat, e)) ->
  mismatching_from log i rest = imap (fun k e => ((i + k)%nat, e)) rest.
Proof.
  induction rest as [|e rest IH]; intros i H; [reflexivity|].
  rewrite mismatching_from_cons, imap_cons.
  rewrite decide_False by (pose proof (H 0%nat e eq_refl) as H0;
                           rewrite Nat.add_0_r in H0; exact H0).
  rewrite IH.
  - cbn [app]. f_equal; [f_equal; lia|]. apply imap_ext. intros k x _.
    cbn. f_equal. lia.
  - intros k x Hk. replace (S i + k)%nat with (i + S k)%nat by lia.
    apply H. exact Hk.
Qed.

Lemma issues_of_imap (f : nat -> nat) (rest : list entry) :
  map issue_of (imap (fun k e => (f k, e)) rest) = map mismatch_issue rest.
Proof.
  revert f. induction rest as [|e rest IH]; intros f; [reflexivity|].
  rewrite imap_cons. cbn [map]. f_equal. exact (IH (f ∘ S)).
Qed.

(** X5: on every log written by [log_event], [verify_integrity] accepts the
    first entry and reports one issue for each later entry, in log order,
    so that [integrity_verified] is true exactly for logs of at most one
    entry; provided that, for each later entry, SHA-256 does not collide
    on the text hashed when the entry was written and the text hashed when
    it is verified (two texts that differ). *)
Theorem only_the_first_entry_verifies self now :
  built self ->
  (forall i e, audit_log self !! S i = Some e ->
     no_collision (writer_input e) (verifier_input (audit_log self) (S i) e)) ->
  verify_integrity self now
  = Ok (Verification (isoformat now) (length (audit_log self))
          (bool_decide (length (audit_log self) <= 1)%nat)
          (map mismatch_issue (drop 1 (audit_log self)))).
Proof.
  intros Hb Hsha. rewrite verify_integrity_spec.
  destruct (audit_log self) as [|e0 rest] eqn:Hlog; [reflexivity|].
  change (mismatching (e0 :: rest)) with (mismatching_from (e0 :: rest) 0 (e0 :: rest)).
  rewrite mismatching_from_cons.
  rewrite decide_True
    by (rewrite <- Hlog; apply (genesis_matches self e0 rest Hb Hlog)).
  cbn [app drop]. rewrite mismatching_from_all.
  - rewrite issues_of_imap. do 2 f_equal.
    destruct rest; [reflexivity|].
    rewrite bool_decide_eq_false_2 by discriminate.
    rewrite bool_decide_eq_false_2 by (cbn [length]; lia). reflexivity.
  - intros k e Hk. cbn [Nat.add].
    assert (audit_log self !! S k = Some e) as He by (rewrite Hlog; exact Hk).
    pose proof (entries_after_the_first_mismatch self k e Hb He) as Hin.
    rewrite Hlog in Hin. specialize (Hin (Hsha k e Hk)).
    apply elem_of_mismatching in Hin. exact (proj2 Hin).
Qed.

Lemma only_the_first_entry_verifies_witness :
  built (after [boot_call; decision_call])
  /\ (forall i e, audit_log (after [boot_call; decision_call]) !! S i = Some e ->
        no_collision (writer_input e)
          (verifier_input (audit_log (after [boot_call; decision_call])) (S i) e))
  /\ verify_integrity (after [boot_call; decision_call]) (Datetime 2024 1 2 3 5 0 0)
     = Ok (Verification (isoformat (Datetime 2024 1 2 3 5 0 0))
             (length (audit_log (after [boot_call; decision_call])))
             (bool_decide (length (audit_log (after [boot_call; decision_call])) <= 1)%nat)
             (map mismatch_issue (drop 1 (audit_log (after [boot_call; decision_call]))))).
Proof.
  assert (forall i e, audit_log (after [boot_call; decision_call]) !! S i = Some e ->
            no_collision (writer_input e)
              (verifier_input (audit_log (after [boot_call; decision_call])) (S i) e))
    as Hsha.
  { rewrite after_boot_decision. intros i e He. destruct i as [|i].
    - change (Some decision_entry = Some e) in He. injection He as <-.
      intros _. vm_compute. discriminate.
    - change ((@nil entry) !! i = Some e) in He. rewrite lookup_nil in He.
      discriminate He. }
  split; [apply built_after|]. split; [exact Hsha|].
  exact (only_the_first_entry_verifies _ _ (built_after _) Hsha).
Defined.

(** *** [verify_integrity] and the end of the log *)

Lemma filter_ext_in {A} (P Q : A -> Prop) `{forall x, Decision (P x)}
    `{forall x, Decision (Q x)} (l : list A) :
  (forall x, x ∈ l -> (P x <-> Q x)) -> filter P l = filter Q l.
Proof.
  induction l as [|x l IH]; intros HPQ; [reflexivity|].
  rewrite !filter_cons.
  rewrite IH by (intros y Hy; apply HPQ; right; exact Hy).
  pose proof (HPQ x (list_elem_of_here x l)) as Hx.
  destruct (decide (P x)) as [HP|HP], (decide (Q x)) as [HQ|HQ];
    try reflexivity; tauto.
Qed.

Lemma expected_hash_app l1 l2 i e :
  (i <= length l1)%nat -> expected_hash (l1 ++ l2) i e = expected_hash l1 i e.
Proof.
  intros Hi. unfold expected_hash, verifier_input, verifier_data.
  destruct i as [|j]; [reflexivity|].
  rewrite lookup_app_l by lia. reflexivity.
Qed.

Lemma mismatching_app l1 l2 :
  mismatching (l1 ++ l2)
  = mismatching l1 ++ mismatching_from (l1 ++ l2) (length l1) l2.
Proof.
  unfold mismatching, mismatching_from. rewrite imap_app, filter_app. f_equal.
  apply filter_ext_in. intros [i e] Hin.
  apply elem_of_lookup_imap in Hin. destruct Hin as (j & x & [= -> ->] & Hj).
  unfold matches. cbn [fst snd].
  rewrite expected_hash_app by (apply lookup_lt_Some in Hj; lia). reflexivity.
Qed.

(** X6: the verdict of [verify_integrity] on an entry depends only on the
    entries before it. Cutting the log back to its first [n] entries
    leaves a prefix of the issues, so a log that verified still verifies
    after its newest entries are deleted (with [total_events] the new
    length); appending an entry keeps every issue reported before. *)
Theorem earlier_verdicts_are_stable self n e now :
  exists r rt ra,
    verify_integrity self now = Ok r
    /\ verify_integrity (truncate self n) now = Ok rt
    /\ verify_integrity (append_entry self e) now = Ok ra
    /\ issues rt `prefix_of` issues r
    /\ issues r `prefix_of` issues ra
    /\ (integrity_verified r = true -> integrity_verified rt = true)
    /\ total_events rt = Nat.min n (length (audit_log self))
    /\ total_events ra = S (length (audit_log self)).
Proof.
  rewrite !verify_integrity_spec. do 3 eexists.
  split; [reflexivity|]. split; [reflexivity|]. split; [reflexivity|].
  cbn [issues integrity_verified total_events truncate append_entry audit_log].
  assert (mismatching (audit_log self)
          = mismatching (take n (audit_log self))
            ++ mismatching_from (audit_log self) (length (take n (audit_log self)))
                 (drop n (audit_log self))) as Hcut.
  { rewrite <- (take_drop n (audit_log self)) at 1 3. apply mismatching_app. }
  split; [|split; [|split; [|split]]].
  - rewrite Hcut, map_app. eexists. reflexivity.
  - rewrite mismatching_app, map_app. eexists. reflexivity.
  - rewrite Hcut. intros H. apply bool_decide_eq_true in H.
    apply app_eq_nil in H. apply bool_decide_eq_true. exact (proj1 H).
  - apply length_take.
  - rewrite length_app. cbn [length]. lia.
Qed.

(** X7: [_compute_chain_hash] and [verify_integrity] agree when the index
    is passed. If a trail verifies, and an entry carries as [chain_hash]
    the value of [_compute_chain_hash(entry, i)] for [i] the index of the
    last entry ([None] on an empty log), then the trail with this entry
    appended verifies, with no issue. *)
Theorem chained_entry_is_accepted self e h now now' r :
  verify_integrity self now = Ok r ->
  integrity_verified r = true ->
  _compute_chain_hash self e (prev_index (length (audit_log self))) = Ok h ->
  chain_hash e = Some h ->
  verify_integrity (append_entry self e) now'
  = Ok (Verification (isoformat now') (S (length (audit_log self))) true []).
Proof.
  intros Hr Hok Hh He. rewrite verify_integrity_spec in Hr. injection Hr as <-.
  cbn [integrity_verified] in Hok. apply bool_decide_eq_true in Hok.
  rewrite verify_integrity_spec. cbn [append_entry audit_log].
  rewrite mismatching_app, Hok, mismatching_from_cons. cbn [app].
  assert (matches (audit_log self ++ [e]) (length (audit_log self), e)) as Hm.
  { unfold matches. cbn [fst snd]. rewrite He. f_equal.
    assert ((audit_log self ++ [e]) !! length (audit_log self) = Some e) as Hi.
    { rewrite lookup_app_r by lia. rewrite Nat.sub_diag. reflexivity. }
    pose proof (expected_hash_in_loop (append_entry self e) _ e Hi) as Hx.
    cbn [append_entry audit_log] in Hx.
    rewrite expected_hash_app in * by lia.
    unfold prev_index in Hh.
    destruct (length (audit_log self)) as [|j] eqn:Hlen.
    - cbn [Nat.ltb Nat.leb] in Hh, Hx.
      rewrite compute_chain_hash_none in Hh, Hx. congruence.
    - replace (0 <? S j)%nat with true in Hh, Hx by (symmetry; apply Nat.ltb_lt; lia).
      replace (Z.of_nat (S j) - 1)%Z with (Z.of_nat j) in Hh, Hx by lia.
      rewrite compute_chain_hash_some in Hh by lia.
      injection Hh as <-. reflexivity. }
  rewrite decide_True by exact Hm.
  rewrite length_app. cbn [length]. rewrite Nat.add_1_r. reflexivity.
Qed.

Lemma chained_entry_is_accepted_witness :
  let self := after [boot_call] in
  let h := expected_hash (audit_log self) 1 decision_entry in
  let e := set_chain_hash decision_entry (Some h) in
  let now := Datetime 2024 1 2 3 5 0 0 in
  verify_integrity self now = Ok (Verification (isoformat now) 1 true [])
  /\ integrity_verified (Verification (isoformat now) 1 true []) = true
  /\ _compute_chain_hash self e (prev_index (length (audit_log self))) = Ok h
  /\ chain_hash e = Some h
  /\ verify_integrity (append_entry self e) now
     = Ok (Verification (isoformat now) (S (length (audit_log self))) true []).
Proof.
  cbv zeta.
  assert (verify_integrity (after [boot_call]) (Datetime 2024 1 2 3 5 0 0)
          = Ok (Verification (isoformat (Datetime 2024 1 2 3 5 0 0)) 1 true [])) as H1
    by (vm_compute; reflexivity).
  assert (_compute_chain_hash (after [boot_call])
            (set_chain_hash decision_entry
               (Some (expected_hash (audit_log (after [boot_call])) 1 decision_entry)))
            (prev_index (length (audit_log (after [boot_call]))))
          = Ok (expected_hash (audit_log (after [boot_call])) 1 decision_entry)) as H3
    by (vm_compute; reflexivity).
  split; [exact H1|]. split; [reflexivity|]. split; [exact H3|]. split; [reflexivity|].
  exact (chained_entry_is_accepted _ _ _ _ _ _ H1 eq_refl H3 eq_refl).
Defined.

(** X13: in a log written by [log_event], assigning any other value to the
    [chain_hash] of the first entry (another text, or [None]) is always
    detected: [verify_integrity] returns [integrity_verified = False] and
    the first issue names the first entry. No assumption on SHA-256 is
    needed. *)
Theorem overwriting_the_first_hash_is_flagged self e0 rest h now :
  built self ->
  audit_log self = e0 :: rest ->
  h <> chain_hash e0 ->
  exists r,
    verify_integrity (overwrite_hash self 0 h) now = Ok r
    /\ integrity_verified r = false
    /\ head (issues r) = Some (mismatch_issue e0).
Proof.
  intros Hb Hlog Hh. rewrite verify_integrity_spec. eexists. split; [reflexivity|].
  cbn [integrity_verified issues overwrite_hash audit_log]. rewrite Hlog.
  cbn [alter list_alter].
  change (mismatching (set_chain_hash e0 h :: rest))
    with (mismatching_from (set_chain_hash e0 h :: rest) 0
            (set_chain_hash e0 h :: rest)).
  rewrite mismatching_from_cons.
  assert (~ matches (set_chain_hash e0 h :: rest) (0%nat, set_chain_hash e0 h)) as Hm.
  { unfold matches, expected_hash, verifier_input, verifier_data. cbn [fst snd].
    change (Json.dumps_sorted (entry_data (set_chain_hash e0 h)))
      with (writer_input e0).
    pose proof (built_self_stamped self Hb) as Hall. rewrite Hlog in Hall.
    apply Forall_cons in Hall as [H0 _]. unfold self_stamped in H0.
    cbn [set_chain_hash chain_hash]. rewrite <- H0. exact Hh. }
  rewrite decide_False by exact Hm. cbn [app map head].
  split; [|reflexivity]. apply bool_decide_eq_false_2. discriminate.
Qed.

Lemma overwriting_the_first_hash_is_flagged_witness :
  built (after [boot_call])
  /\ audit_log (after [boot_call]) = [boot_entry]
  /\ None <> chain_hash boot_entry
  /\ exists r,
       verify_integrity (overwrite_hash (after [boot_call]) 0 None)
         (Datetime 2024 1 2 3 5 0 0) = Ok r
       /\ integrity_verified r = false
       /\ head (issues r) = Some (mismatch_issue boot_entry).
Proof.
  assert (None <> chain_hash boot_entry) as H by (cbn; discriminate).
  split; [apply built_after|]. split; [apply after_boot|]. split; [exact H|].
  exact (overwriting_the_first_hash_is_flagged _ boot_entry [] None _
           (built_after [boot_call]) after_boot H).
Defined.

(** *** The hashed text *)

(** X8: the text that [_compute_chain_hash] hashes for an entry determines
    the four values it is made of: two entries whose [event_id],
    [timestamp], [event_type] and [description] hold no lone surrogate
    give the same JSON text exactly when the four values are equal. Two
    different records of this kind can share a [chain_hash] only by a
    collision of SHA-256. *)
Theorem hashed_text_determines_the_fields e e' :
  Forall (Forall scalar) (digested_fields e) ->
  Forall (Forall scalar) (digested_fields e') ->
  (Json.dumps_sorted (entry_data e) = Json.dumps_sorted (entry_data e')
   <-> digested_fields e = digested_fields e').
Proof.
  intros He He'. unfold digested_fields in *.
  apply Forall_cons in He as [Hi He]. apply Forall_cons in He as [Hs He].
  apply Forall_cons in He as [Ht He]. apply Forall_cons in He as [Hd _].
  apply Forall_cons in He' as [Hi' He']. apply Forall_cons in He' as [Hs' He'].
  apply Forall_cons in He' as [Ht' He']. apply Forall_cons in He' as [Hd' _].
  rewrite !dumps_entry_data. split.
  - intros H.
    destruct (decide (description e = description e')) as [Ed|Ed];
      [|exfalso; exact (render_differs_description _ _ _ _ _ _ _ _ _ _ Hd Hd' Ed H)].
    rewrite <- Ed in H.
    destruct (decide (event_id e = event_id e')) as [Ei|Ei];
      [|exfalso; exact (render_differs_event_id _ _ _ _ _ _ _ _ _ Hi Hi' Ei H)].
    rewrite <- Ei in H.
    destruct (decide (event_type e = event_type e')) as [Et|Et];
      [|exfalso; exact (render_differs_event_type _ _ _ _ _ _ _ _ Ht Ht' Et H)].
    rewrite <- Et in H.
    destruct (decide (timestamp e = timestamp e')) as [Es|Es];
      [|exfalso; exact (render_differs_timestamp _ _ _ _ _ _ Hs Hs' Es H)].
    congruence.
  - intros [= -> -> -> ->]. reflexivity.
Qed.

Lemma hashed_text_determines_the_fields_witness :
  Forall (Forall scalar) (digested_fields boot_entry)
  /\ Forall (Forall scalar) (digested_fields decision_entry)
  /\ (Json.dumps_sorted (entry_data boot_entry)
      = Json.dumps_sorted (entry_data decision_entry)
      <-> digested_fields boot_entry = digested_fields decision_entry).
Proof.
  assert (Forall (Forall scalar) (digested_fields boot_entry)) as H1
    by (apply (bool_decide_unpack _); vm_compute; reflexivity).
  assert (Forall (Forall scalar) (digested_fields decision_entry)) as H2
    by (apply (bool_decide_unpack _); vm_compute; reflexivity).
  split; [exact H1|]. split; [exact H2|].
  exact (hashed_text_determines_the_fields boot_entry decision_entry H1 H2).
Defined.

(** *** [_compute_chain_hash] on every index *)

Lemma getitem_out_of_range {A} (l : list A) z :
  (Z.of_nat (length l) <= z)%Z -> getitem l z = Raise IndexError.
Proof.
  intros Hz. unfold getitem.
  destruct (Z.ltb_spec z 0) as [?|_]; [lia|].
  destruct (Z.ltb_spec z 0) as [?|_]; [lia|].
  rewrite (lookup_ge_None_2 l (Z.to_nat z)) by lia. reflexivity.
Qed.

(** X9: [_compute_chain_hash(entry, prev_index)] by index. A negative
    index is treated as no index; an index at or past the end of the log
    raises [IndexError]; an index inside the log gives the digest of the
    entry's four fields with the [chain_hash] of the indexed entry as
    [prev_hash]; without index it gives the digest of the four fields. In
    the last two cases the call returns 64 hexadecimal digits whatever
    code points the entry holds: encoding the JSON text never fails. *)
Theorem compute_chain_hash_by_index self e :
  (forall z, (z < 0)%Z ->
     _compute_chain_hash self e (Some z) = _compute_chain_hash self e None)
  /\ (forall z, (Z.of_nat (length (audit_log self)) <= z)%Z ->
        _compute_chain_hash self e (Some z) = Raise IndexError)
  /\ (forall z prev, (0 <= z)%Z -> audit_log self !! Z.to_nat z = Some prev ->
        exists h,
          _compute_chain_hash self e (Some z) = Ok h
          /\ h = Sha256.hexdigest
                   (Json.dumps_sorted
                      (entry_data e
                       ++ [(py "prev_hash", json_of_hash (chain_hash prev))]))
          /\ hex_text 64 h)
  /\ exists h, _compute_chain_hash self e None = Ok h
               /\ h = Sha256.hexdigest (Json.dumps_sorted (entry_data e))
               /\ hex_text 64 h.
Proof.
  split; [|split; [|split]].
  - intros z Hz. unfold _compute_chain_hash.
    destruct (Z.leb_spec 0 z) as [?|_]; [lia|]. reflexivity.
  - intros z Hz. unfold _compute_chain_hash.
    destruct (Z.leb_spec 0 z) as [_|?]; [|lia].
    rewrite getitem_out_of_range by exact Hz. reflexivity.
  - intros z prev Hz Hprev. eexists. split; [|split; [reflexivity|apply hexdigest_hex]].
    replace z with (Z.of_nat (Z.to_nat z)) at 1 by lia.
    rewrite compute_chain_hash_some by (apply lookup_lt_Some in Hprev; exact Hprev).
    unfold expected_hash, verifier_input, verifier_data. rewrite Hprev. reflexivity.
  - eexists. split; [apply compute_chain_hash_none|].
    split; [reflexivity|apply hexdigest_hex].
Qed.

(** *** Time bounds *)

Lemma str_le_trans a : forall b c,
  str_le a b = true -> str_le b c = true -> str_le a c = true.
Proof.
  induction a as [|x a IH]; intros b c Hab Hbc; [reflexivity|].
  destruct b as [|y b]; [discriminate Hab|].
  destruct c as [|z c]; [discriminate Hbc|].
  cbn [str_le] in *.
  destruct (N.ltb_spec x y), (N.ltb_spec y x), (N.ltb_spec y z), (N.ltb_spec z y),
    (N.ltb_spec x z), (N.ltb_spec z x);
    try reflexivity; try discriminate; try lia.
  exact (IH b c Hab Hbc).
Qed.

Lemma filter_none {A} (P : A -> Prop) `{forall x, Decision (P x)} (l : list A) :
  (forall x, ~ P x) -> filter P l = [].
Proof.
  intros HP. induction l as [|x l IH]; [reflexivity|].
  rewrite filter_cons_False by apply HP. exact IH.
Qed.

(** X10: [query_events] with a non-empty [start_time] that is greater than
    a non-empty [end_time] (as strings) returns the empty list, on every
    trail and for every filter: the call does not fail and does not swap
    the bounds. *)
Theorem inverted_bounds_select_nothing self filters a b :
  a <> [] -> b <> [] -> str_le a b = false ->
  query_events self filters (Some a) (Some b) = [].
Proof.
  intros Ha Hb Hab. rewrite query_events_spec. apply filter_none.
  intros e He. unfold selected in He.
  apply andb_true_iff in He as [He Hup]. apply andb_true_iff in He as [_ Hlo].
  destruct a as [|c a]; [contradiction|]. destruct b as [|d b]; [contradiction|].
  cbn [lower_ok upper_ok] in Hlo, Hup. unfold str_ge in Hlo.
  rewrite (str_le_trans _ _ _ Hlo Hup) in Hab. discriminate Hab.
Qed.

Lemma inverted_bounds_select_nothing_witness :
  py "2025" <> [] /\ py "2024" <> []
  /\ str_le (py "2025") (py "2024") = false
  /\ query_events (after [boot_call; decision_call]) None
       (Some (py "2025")) (Some (py "2024")) = [].
Proof.
  assert (py "2025" <> []) as H1 by (vm_compute; discriminate).
  assert (py "2024" <> []) as H2 by (vm_compute; discriminate).
  assert (str_le (py "2025") (py "2024") = false) as H3 by (vm_compute; reflexivity).
  split; [exact H1|]. split; [exact H2|]. split; [exact H3|].
  exact (inverted_bounds_select_nothing _ None _ _ H1 H2 H3).
Defined.

(** *** The public export and the other read paths *)

(** X11: [export_public_audit_data] agrees with the other read paths of
    the same trail: [total_public_events] is the [public_events] count of
    [get_statistics], [events] are the entries that [query_events] returns
    for [{"sensitivity": "public"}], each reduced to its five public keys,
    and [integrity_status] is the result of [verify_integrity]; the export
    always returns. *)
Theorem export_agrees_with_statistics_and_query self now_export now_verify :
  exists r st v,
    export_public_audit_data self now_export now_verify = Ok r
    /\ get_statistics self = Ok st
    /\ verify_integrity self now_verify = Ok v
    /\ total_public_events r = st_public_events st
    /\ events r
       = map public_event
           (query_events self (Some {[py "sensitivity" := py "public"]}) None None)
    /\ integrity_status r = v
    /\ pe_version r = version self
    /\ export_timestamp r = isoformat now_export.
Proof.
  unfold export_public_audit_data.
  rewrite get_statistics_spec, verify_integrity_spec. result_simpl.
  do 3 eexists. split; [reflexivity|]. split; [reflexivity|]. split; [reflexivity|].
  cbn [total_public_events st_public_events events integrity_status pe_version
       export_timestamp].
  split; [apply length_map|]. split; [|auto].
  rewrite query_by_sensitivity. reflexivity.
Qed.

(** X12: the [integrity_status] of the public export covers the whole log,
    not only its public part: its [total_events] is the number of all
    entries (at least the number of exported events), and every entry whose
    stored [chain_hash] differs from the recomputed one has its [event_id]
    in the issues, whatever its sensitivity; every issue names the
    [event_id] of a log entry. *)
Theorem export_integrity_status_covers_every_entry self now_export now_verify :
  exists r,
    export_public_audit_data self now_export now_verify = Ok r
    /\ total_events (integrity_status r) = length (audit_log self)
    /\ (length (events r) <= total_events (integrity_status r))%nat
    /\ (forall e, mismatch_issue e ∈ issues (integrity_status r)
                  -> exists e', e' ∈ audit_log self /\ event_id e' = event_id e)
    /\ (forall i e, audit_log self !! i = Some e ->
          chain_hash e <> Some (expected_hash (audit_log self) i e) ->
          mismatch_issue e ∈ issues (integrity_status r)).
Proof.
  unfold export_public_audit_data. rewrite verify_integrity_spec. result_simpl.
  eexists. split; [reflexivity|].
  cbn [total_events integrity_status events issues].
  split; [reflexivity|]. split; [|split].
  - rewrite length_map. apply length_filter.
  - intros e He. apply list_elem_of_fmap in He as ([i e'] & Hi & Hin).
    apply elem_of_mismatching in Hin as [Hin _].
    exists e'. split; [exact (list_elem_of_lookup_2 _ _ _ Hin)|].
    unfold issue_of, mismatch_issue in Hi. cbn [snd] in Hi. congruence.
  - intros i e Hi Hm. apply list_elem_of_fmap. exists (i, e).
    split; [reflexivity|]. apply elem_of_mismatching. split; [exact Hi|exact Hm].
Qed.

(** *** Time bounds and the clock *)

Lemma decimal_aux_acc fuel : forall n acc,
  decimal_aux fuel n acc = decimal_aux fuel n [] ++ acc.
Proof.
  induction fuel as [|f IH]; intros n acc; [reflexivity|].
  cbn [decimal_aux]. destruct (n <? 10)%N; [reflexivity|].
  rewrite (IH _ (_ :: acc)), (IH _ [_]), <- app_assoc. reflexivity.
Qed.

Lemma digits_zero w : digits w 0 = repeat (digit 0) w.
Proof.
  induction w as [|w IH]; [reflexivity|].
  cbn [digits]. change (0 / 10)%N with 0%N. change (0 mod 10)%N with 0%N.
  rewrite IH. symmetry. apply repeat_cons.
Qed.

Lemma digits_length w : forall n, length (digits w n) = w.
Proof.
  induction w as [|w IH]; intros n; [reflexivity|].
  cbn [digits]. rewrite length_app, IH. cbn [length]. lia.
Qed.

Lemma zero_pad_snoc w x d :
  zero_pad (S w) (x ++ [d]) = zero_pad w x ++ [d].
Proof.
  unfold zero_pad. rewrite length_app. cbn [length].
  replace (S w - (length x + 1))%nat with (w - length x)%nat by lia.
  rewrite app_assoc. reflexivity.
Qed.

Lemma pow10_succ (w : nat) : (10 ^ N.of_nat (S w) = 10 * 10 ^ N.of_nat w)%N.
Proof. rewrite Nat2N.inj_succ, N.pow_succ_r'. reflexivity. Qed.

Lemma zero_pad_decimal_aux w : forall n f,
  (n < 10 ^ N.of_nat (S w))%N -> (n < 10 ^ N.of_nat (S f))%N ->
  zero_pad (S w) (decimal_aux (S f) n []) = digits (S w) n.
Proof.
  induction w as [|w IH]; intros n f Hw Hf.
  - change (10 ^ N.of_nat 1)%N with 10%N in Hw. cbn [decimal_aux digits].
    destruct (N.ltb_spec n 10) as [_|?]; [|lia]. reflexivity.
  - cbn [decimal_aux]. destruct (N.ltb_spec n 10) as [Hn|Hn].
    + cbn [digits]. rewrite (N.div_small n 10) by exact Hn.
      change (digits w (0 / 10) ++ [digit (0 mod 10)]) with (digits (S w) 0).
      rewrite digits_zero. unfold zero_pad. cbn [length].
      replace (S (S w) - 1)%nat with (S w) by lia. reflexivity.
    + destruct f as [|f].
      { change (10 ^ N.of_nat 1)%N with 10%N in Hf. lia. }
      rewrite decimal_aux_acc, zero_pad_snoc. rewrite IH.
      * reflexivity.
      * rewrite pow10_succ in Hw. apply N.Div0.div_lt_upper_bound. exact Hw.
      * rewrite pow10_succ in Hf. apply N.Div0.div_lt_upper_bound. exact Hf.
Qed.

Lemma enough_fuel n : (n < 10 ^ N.of_nat (S (N.to_nat (N.log2 n))))%N.
Proof.
  rewrite Nat2N.inj_succ, N2Nat.id.
  destruct (N.eq_dec n 0%N) as [->|Hn]; [reflexivity|].
  apply N.lt_le_trans with (2 ^ N.succ (N.log2 n))%N.
  - apply N.log2_spec. lia.
  - apply N.pow_le_mono_l. lia.
Qed.

Lemma zero_pad_decimal w n :
  (n < 10 ^ N.of_nat (S w))%N -> zero_pad (S w) (decimal n) = digits (S w) n.
Proof.
  intros Hw. unfold decimal. apply zero_pad_decimal_aux; [exact Hw|apply enough_fuel].
Qed.

Lemma str_le_digits w : forall n m r1 r2,
  (n < 10 ^ N.of_nat w)%N -> (m < 10 ^ N.of_nat w)%N ->
  str_le (digits w n ++ r1) (digits w m ++ r2)
  = if (n <? m)%N then true else if (m <? n)%N then false else str_le r1 r2.
Proof.
  induction w as [|w IH]; intros n m r1 r2 Hn Hm.
  - change (10 ^ N.of_nat 0)%N with 1%N in *.
    assert (n = 0%N) as -> by lia. assert (m = 0%N) as -> by lia. reflexivity.
  - cbn [digits]. rewrite <- !app_assoc. cbn [app].
    rewrite pow10_succ in Hn, Hm.
    rewrite IH by (apply N.Div0.div_lt_upper_bound; assumption).
    cbn [str_le]. unfold digit.
    pose proof (N.Div0.div_mod n 10) as En. pose proof (N.Div0.div_mod m 10) as Em.
    pose proof (N.mod_lt n 10 ltac:(discriminate)) as Ln.
    pose proof (N.mod_lt m 10 ltac:(discriminate)) as Lm.
    remember (n / 10)%N as qn eqn:Hqn. remember (m / 10)%N as qm eqn:Hqm.
    remember (n mod 10)%N as a eqn:Ha. remember (m mod 10)%N as b eqn:Hb.
    clear Hqn Hqm Ha Hb IH.
    destruct (N.ltb_spec qn qm), (N.ltb_spec qm qn), (N.ltb_spec n m), (N.ltb_spec m n),
      (N.ltb_spec (48 + a) (48 + b)), (N.ltb_spec (48 + b) (48 + a));
      try reflexivity; lia.
Qed.

Lemma str_le_sep c a b : str_le (c :: a) (c :: b) = str_le a b.
Proof. cbn [str_le]. rewrite N.ltb_irrefl. reflexivity. Qed.

Lemma pad2 n : (n < 100)%N -> zero_pad 2 (decimal n) = digits 2 n.
Proof. intros H. apply zero_pad_decimal. exact H. Qed.

Lemma pad4 n : (n < 10000)%N -> zero_pad 4 (decimal n) = digits 4 n.
Proof. intros H. apply zero_pad_decimal. exact H. Qed.

Lemma pad6 n : (n < 1000000)%N -> zero_pad 6 (decimal n) = digits 6 n.
Proof. intros H. apply zero_pad_decimal. exact H. Qed.

Lemma isoformat_digits d :
  in_range d ->
  isoformat d
  = digits 4 (year d) ++ 45%N :: digits 2 (month d) ++ 45%N :: digits 2 (day d)
    ++ 84%N :: digits 2 (hour d) ++ 58%N :: digits 2 (minute d)
    ++ 58%N :: digits 2 (second d)
    ++ (if (microsecond d =? 0)%N then []
        else 46%N :: digits 6 (microsecond d)).
Proof.
  intros (Hy & Hmo & Hd & Hh & Hmi & Hs & Hus). unfold isoformat.
  rewrite pad4, !pad2, pad6 by assumption. reflexivity.
Qed.

Lemma isoformat_order d1 d2 :
  in_range d1 -> in_range d2 ->
  str_le (isoformat d1) (isoformat d2) = not_after d1 d2.
Proof.
  intros H1 H2. rewrite !isoformat_digits by assumption.
  destruct H1 as (Hy1 & Hmo1 & Hd1 & Hh1 & Hmi1 & Hs1 & Hus1).
  destruct H2 as (Hy2 & Hmo2 & Hd2 & Hh2 & Hmi2 & Hs2 & Hus2).
  unfold not_after, fields. cbn [lex_le].
  rewrite (str_le_digits 4) by assumption. rewrite str_le_sep.
  rewrite (str_le_digits 2) by assumption. rewrite str_le_sep.
  rewrite (str_le_digits 2) by assumption. rewrite str_le_sep.
  rewrite (str_le_digits 2) by assumption. rewrite str_le_sep.
  rewrite (str_le_digits 2) by assumption. rewrite str_le_sep.
  rewrite (str_le_digits 2) by assumption.
  assert (str_le (if (microsecond d1 =? 0)%N then [] else 46%N :: digits 6 (microsecond d1))
                 (if (microsecond d2 =? 0)%N then [] else 46%N :: digits 6 (microsecond d2))
          = if (microsecond d1 <? microsecond d2)%N then true
            else if (microsecond d2 <? microsecond d1)%N then false else true) as ->.
  { destruct (N.eqb_spec (microsecond d1) 0) as [E1|E1],
             (N.eqb_spec (microsecond d2) 0) as [E2|E2].
    - rewrite E1, E2. reflexivity.
    - rewrite E1. cbn [str_le].
      destruct (N.ltb_spec 0 (microsecond d2)); [reflexivity|lia].
    - rewrite E2. cbn [str_le].
      destruct (N.ltb_spec (microsecond d1) 0); [lia|].
      destruct (N.ltb_spec 0 (microsecond d1)); [reflexivity|lia].
    - rewrite str_le_sep.
      rewrite <- (app_nil_r (digits 6 (microsecond d1))),
              <- (app_nil_r (digits 6 (microsecond d2))).
      rewrite (str_le_digits 6) by assumption. reflexivity. }
  reflexivity.
Qed.

Lemma run_calls_log cs : forall self,
  exists s,
    run_calls cs self = Ok s
    /\ audit_log s
       = audit_log self
         ++ imap (fun k c => entry_of_call (length (audit_log self) + k) c) cs.
Proof.
  induction cs as [|c cs IH]; intros self.
  - exists self. rewrite app_nil_r. split; reflexivity.
  - cbn [run_calls]. unfold do_call. rewrite log_event_ok. result_simpl.
    match goal with
    | |- context [run_calls cs ?s0] => destruct (IH s0) as (s & -> & Hlog)
    end.
    exists s. split; [reflexivity|]. rewrite Hlog.
    cbn [_update_integrity_chain _index_event append_entry audit_log].
    rewrite imap_cons, <- app_assoc, length_app. cbn [app length].
    rewrite Nat.add_0_r.
    rewrite (imap_ext
               (fun k c0 => entry_of_call (length (audit_log self) + 1 + k) c0)
               ((fun k c0 => entry_of_call (length (audit_log self) + k) c0) ∘ S) cs).
    + reflexivity.
    + intros k x _. unfold compose.
      replace (length (audit_log self) + 1 + k)%nat
        with (length (audit_log self) + S k)%nat by lia.
      reflexivity.
Qed.

Lemma after_log cs : audit_log (after cs) = imap entry_of_call cs.
Proof.
  unfold after. destruct (run_calls_log cs init) as (s & -> & Hlog).
  rewrite Hlog. reflexivity.
Qed.

Lemma isoformat_nonempty d : isoformat d <> [].
Proof.
  unfold isoformat. destruct (zero_pad 4 (decimal (year d))); discriminate.
Qed.

(** X26: time bounds given as [isoformat()] texts select by clock time.
    For every sequence of [log_event] calls, the entry written by the
    [i]-th call carries the [isoformat()] of the clock reading of that
    call, and [query_events(None, t0.isoformat(), t1.isoformat())] returns
    it exactly when that reading is not before [t0] and not after [t1]:
    on these texts the string comparison of the source is the order of
    time, also between a reading with and one without microseconds. *)
Theorem time_bounds_select_by_clock_time cs i c t0 t1 :
  cs !! i = Some c ->
  in_range (c_now_ts c) -> in_range t0 -> in_range t1 ->
  exists e,
    audit_log (after cs) !! i = Some e
    /\ timestamp e = isoformat (c_now_ts c)
    /\ (e ∈ query_events (after cs) None (Some (isoformat t0)) (Some (isoformat t1))
        <-> not_after t0 (c_now_ts c) = true /\ not_after (c_now_ts c) t1 = true).
Proof.
  intros Hi Hc H0 H1. exists (entry_of_call i c).
  assert (audit_log (after cs) !! i = Some (entry_of_call i c)) as He.
  { rewrite after_log, list_lookup_imap, Hi. reflexivity. }
  split; [exact He|]. split; [reflexivity|].
  rewrite query_events_spec, list_elem_of_filter.
  unfold selected. cbn [field_ok andb].
  destruct (isoformat t0) as [|a0 r0] eqn:E0; [destruct (isoformat_nonempty _ E0)|].
  destruct (isoformat t1) as [|a1 r1] eqn:E1; [destruct (isoformat_nonempty _ E1)|].
  cbn [lower_ok upper_ok]. rewrite <- E0, <- E1. unfold str_ge.
  change (timestamp (entry_of_call i c)) with (isoformat (c_now_ts c)).
  rewrite !isoformat_order by assumption. rewrite andb_true_iff.
  split; [tauto|]. intros H. split; [exact H|].
  exact (list_elem_of_lookup_2 _ _ _ He).
Qed.

Lemma time_bounds_select_by_clock_time_witness :
  let cs := [boot_call; decision_call] in
  let t0 := Datetime 2024 1 2 3 4 6 0 in
  let t1 := Datetime 2024 12 31 0 0 0 0 in
  cs !! 1%nat = Some decision_call
  /\ in_range (c_now_ts decision_call) /\ in_range t0 /\ in_range t1
  /\ exists e,
       audit_log (after cs) !! 1%nat = Some e
       /\ timestamp e = isoformat (c_now_ts decision_call)
       /\ (e ∈ query_events (after cs) None (Some (isoformat t0)) (Some (isoformat t1))
           <-> not_after t0 (c_now_ts decision_call) = true
               /\ not_after (c_now_ts decision_call) t1 = true).
Proof.
  cbv zeta.
  assert (in_range (c_now_ts decision_call)) as Hc by (repeat split; reflexivity).
  assert (in_range (Datetime 2024 1 2 3 4 6 0)) as H0 by (repeat split; reflexivity).
  assert (in_range (Datetime 2024 12 31 0 0 0 0)) as H1 by (repeat split; reflexivity).
  split; [reflexivity|]. split; [exact Hc|]. split; [exact H0|]. split; [exact H1|].
  exact (time_bounds_select_by_clock_time [boot_call; decision_call] 1 decision_call
           _ _ eq_refl Hc H0 H1).
Defined.

End AuditTrailFacts.

(** ** verify-chain.py: what the verdict depends on, and the report *)

Module VerifyChainReportFacts.
Import VerifyChain VerifyChainFacts ChainVocabulary.

(** *** The verdict *)

Lemma links_ok_app prev a : forall b,
  links_ok prev (a ++ b)
  = links_ok prev a
    && links_ok (match last a with Some x => Some (f_hash x) | None => prev end) b.
Proof.
  revert prev. induction a as [|x a IH]; intros prev b; [reflexivity|].
  cbn [app links_ok]. rewrite IH, andb_assoc.
  destruct a as [|y a]; [reflexivity|]. rewrite last_cons_cons.
  destruct (last (y :: a)) eqn:Hl; [reflexivity|].
  apply last_None in Hl. discriminate.
Qed.

Lemma links_ok_forget prev es : links_ok prev es = true -> links_ok None es = true.
Proof.
  destruct es as [|e r]; [reflexivity|]. cbn [links_ok link_ok].
  intros Hl. apply andb_true_iff in Hl. exact (proj2 Hl).
Qed.

Lemma links_ok_segment es n m :
  links_ok None es = true -> links_ok None (take m (drop n es)) = true.
Proof.
  intros Hl. rewrite <- (take_drop n es) in Hl. rewrite links_ok_app in Hl.
  apply andb_true_iff in Hl as [_ Hl]. apply links_ok_forget in Hl.
  rewrite <- (take_drop m (drop n es)) in Hl. rewrite links_ok_app in Hl.
  apply andb_true_iff in Hl. exact (proj1 Hl).
Qed.

Lemma links_ok_columns es : forall es' prev prev',
  map f_hash es = map f_hash es' ->
  map f_previous_hash es = map f_previous_hash es' ->
  prev = prev' ->
  links_ok prev es = links_ok prev' es'.
Proof.
  induction es as [|e r IH]; intros [|e' r'] prev prev' Hh Hp Hprev;
    try discriminate; [reflexivity|].
  injection Hh as Hh Hh'. injection Hp as Hp Hp'. subst prev'.
  cbn [links_ok]. f_equal.
  - unfold link_ok. rewrite Hp. reflexivity.
  - apply IH; congruence.
Qed.

(** Every text of a number is made of digits. *)
Lemma decimal_aux_all (p : N -> bool) :
  (forall d, (d < 10)%N -> p (digit d) = true) ->
  forall fuel n acc,
    forallb p acc = true -> forallb p (decimal_aux fuel n acc) = true.
Proof.
  intros Hp. induction fuel as [|f IH]; intros n acc Hacc; [exact Hacc|].
  cbn [decimal_aux].
  assert (forallb p (digit (n mod 10) :: acc) = true) as Hnext.
  { cbn [forallb]. rewrite Hacc, Hp; [reflexivity|]. apply N.mod_lt. discriminate. }
  destruct (n <? 10)%N; [exact Hnext|]. apply IH, Hnext.
Qed.

Lemma digit_cases (P : N -> Prop) :
  P 0%N -> P 1%N -> P 2%N -> P 3%N -> P 4%N -> P 5%N -> P 6%N -> P 7%N ->
  P 8%N -> P 9%N -> forall d, (d < 10)%N -> P d.
Proof.
  intros H0 H1 H2 H3 H4 H5 H6 H7 H8 H9 d Hd.
  destruct d as [|p]; [exact H0|].
  do 4 (destruct p as [p|p|]; try (exfalso; lia); try assumption).
Qed.

Lemma single_line_decimal n : single_line (decimal n) = true.
Proof.
  unfold decimal, single_line. apply decimal_aux_all; [|reflexivity].
  apply digit_cases; reflexivity.
Qed.

Lemma single_line_app a b : single_line (a ++ b) = single_line a && single_line b.
Proof. apply forallb_app. Qed.

Section Reports.
Context `{Environment}.

Lemma encodes_decimal n : encodes (decimal n) = true.
Proof.
  unfold decimal, encodes. apply decimal_aux_all; [|reflexivity].
  apply digit_cases; reflexivity.
Qed.

(** *** Which texts are encoded *)

Lemma encodes_numbered a n b :
  encodes (a ++ decimal n ++ b) = encodes a && encodes b.
Proof. rewrite !encodes_app, encodes_decimal. reflexivity. Qed.

Lemma reports_renumber es : forall i j prev,
  forallb encodes (reports i prev es) = forallb encodes (reports j prev es).
Proof.
  induction es as [|e r IH]; intros i j prev; [reflexivity|].
  cbn [reports]. rewrite !forallb_app, (IH (S i) (S j)).
  unfold entry_report. cbn [forallb]. rewrite !encodes_numbered. reflexivity.
Qed.

Lemma reports_take es : forall m i prev,
  forallb encodes (reports i prev es) = true ->
  forallb encodes (reports i prev (take m es)) = true.
Proof.
  induction es as [|e r IH]; intros [|m] i prev Hall; try reflexivity.
  cbn [take reports] in *. rewrite forallb_app in *.
  apply andb_true_iff in Hall as [-> Hr]. exact (IH m _ _ Hr).
Qed.

Lemma reports_genesis e r i prev j :
  encodes (link_line None e) = true ->
  forallb encodes (reports i prev (e :: r)) = true ->
  forallb encodes (reports j None (e :: r)) = true.
Proof.
  intros Hg. cbn [reports]. rewrite !forallb_app, (reports_renumber r (S j) (S i)).
  intros Hall. apply andb_true_iff in Hall as [He ->]. rewrite andb_true_r.
  unfold entry_report in *. cbn [forallb] in *. rewrite !encodes_numbered in *.
  rewrite Hg.
  destruct (encodes (py "Entry ")); [|discriminate He].
  destruct (encodes (py ": " ++ str (f_entry_id e))); [|discriminate He].
  destruct (encodes (py "  Timestamp: " ++ str (f_timestamp e))); [|discriminate He].
  destruct (encodes (py "  Event: " ++ str (f_event_type e))); [|discriminate He].
  destruct (encodes (py "  Hash: " ++ str (f_hash e))); [|discriminate He].
  reflexivity.
Qed.

Lemma reports_drop es : forall n i prev j,
  encodes (link_line None (FullEntry JNull JNull JNull JNull JNull)) = true ->
  forallb encodes (reports i prev es) = true ->
  forallb encodes (reports j None (drop n es)) = true.
Proof.
  induction es as [|e r IH]; intros n i prev j Hg Hall; [destruct n; reflexivity|].
  destruct n as [|n].
  - exact (reports_genesis e r i prev j Hg Hall).
  - cbn [drop]. cbn [reports] in Hall. rewrite forallb_app in Hall.
    apply andb_true_iff in Hall as [_ Hr]. exact (IH n _ _ j Hg Hr).
Qed.

Lemma reports_segment es n m :
  forallb encodes (reports 0 None es) = true ->
  forallb encodes (reports 0 None (take m (drop n es))) = true.
Proof.
  intros Hall. apply reports_take.
  destruct es as [|e r]; [destruct n; reflexivity|].
  apply (reports_drop (e :: r) n 0%nat None); [|exact Hall].
  cbn [reports] in Hall. rewrite forallb_app in Hall.
  apply andb_true_iff in Hall as [He _]. unfold entry_report in He.
  cbn [forallb] in He.
  do 4 (apply andb_true_iff in He as [_ He]).
  apply andb_true_iff in He as [He _]. exact He.
Qed.

Lemma segment_encoded l n m :
  encodes (chain_report l) = true ->
  links_ok None (f_entries l) = true ->
  encodes (chain_report (with_entries l (take m (drop n (f_entries l))))) = true.
Proof.
  unfold chain_report. rewrite !encodes_unlines. unfold report_texts.
  cbn [with_entries f_chain_id f_genesis_timestamp f_active f_verified f_public
       f_entries].
  intros Hall Hl. rewrite (links_ok_segment _ n m Hl). rewrite Hl in Hall.
  rewrite !forallb_app in *. cbn [forallb] in *. rewrite !encodes_numbered in *.
  apply andb_true_iff in Hall as [Hhead Hall].
  apply andb_true_iff in Hall as [Hreports Hall].
  rewrite Hhead, Hall, (reports_segment _ n m Hreports). reflexivity.
Qed.

Lemma run_of_full l out :
  verify_chain (log_of_full l) out
  = if encodes (chain_report l)
    then (out ++ chain_report l, Ok (links_ok None (f_entries l)))
    else (out ++ unlines (encoded_prefix (report_texts l)),
          Raise UnicodeEncodeError).
Proof. apply verify_chain_full, full_of_log_of_full. Qed.

(** X14: every contiguous segment of an accepted export is accepted. If
    [verify_chain] returns true on an export, it returns true on the same
    export with its entries cut to any [entries[n:n+m]]: entries removed at
    the end or at the start are not missed, the first entry left is taken
    as the genesis block. *)
Theorem every_segment_of_an_accepted_chain_is_accepted l n m out out' :
  verify_chain (log_of_full l) out = (out', Ok true) ->
  verify_chain (log_of_full (with_entries l (take m (drop n (f_entries l))))) out
  = (out ++ chain_report (with_entries l (take m (drop n (f_entries l)))), Ok true).
Proof.
  intros Hrun. rewrite run_of_full in Hrun.
  destruct (encodes (chain_report l)) eqn:Henc; [|discriminate Hrun].
  injection Hrun as _ Hl.
  rewrite run_of_full, (segment_encoded l n m Henc Hl).
  cbn [with_entries f_entries]. rewrite (links_ok_segment _ n m Hl). reflexivity.
Qed.

(** X15: the verdict on an export with entries appended is the verdict on
    the export as it was, and on the appended entries checked from the
    stored hash of its last entry on (from nothing when it had no entry).
    It is returned when standard output encodes the report; otherwise the
    run raises [UnicodeEncodeError]. *)
Theorem verdict_of_appended_entries l es out :
  (verify_chain (log_of_full (with_entries l (f_entries l ++ es))) out).2
  = if encodes (chain_report (with_entries l (f_entries l ++ es)))
    then Ok (links_ok None (f_entries l)
             && links_ok (f_hash <$> last (f_entries l)) es)
    else Raise UnicodeEncodeError.
Proof.
  rewrite run_of_full.
  destruct (encodes (chain_report (with_entries l (f_entries l ++ es))));
    [|reflexivity].
  cbn [snd with_entries f_entries]. rewrite links_ok_app.
  destruct (last (f_entries l)); reflexivity.
Qed.

(** X16: the verdict of [verify_chain] depends only on the [hash] values
    of the entries and the [previous_hash] values of the entries after the
    first: two exports that agree on these, and whose reports standard
    output encodes, return the same verdict, whatever their ids,
    timestamps, event types, chain id, declared [chain_status] and first
    [previous_hash]. *)
Theorem verdict_reads_only_the_hash_columns l l' out out' :
  map f_hash (f_entries l) = map f_hash (f_entries l') ->
  map f_previous_hash (drop 1 (f_entries l))
  = map f_previous_hash (drop 1 (f_entries l')) ->
  encodes (chain_report l) = true ->
  encodes (chain_report l') = true ->
  (verify_chain (log_of_full l) out).2 = (verify_chain (log_of_full l') out').2
  /\ (verify_chain (log_of_full l) out).2 = Ok (links_ok None (f_entries l)).
Proof.
  intros Hh Hp Henc Henc'. rewrite !run_of_full, Henc, Henc'. cbn [snd].
  split; [|reflexivity]. f_equal.
  destruct (f_entries l) as [|e r], (f_entries l') as [|e' r']; try discriminate;
    [reflexivity|].
  cbn [links_ok link_ok andb drop] in *. injection Hh as Hh Hh'.
  rewrite !drop_0 in Hp. apply links_ok_columns; congruence.
Qed.

(** *** The lines of the report *)

Lemma reports_length es : forall i prev, length (reports i prev es) = (6 * length es)%nat.
Proof.
  induction es as [|e r IH]; intros i prev; [reflexivity|].
  cbn [reports]. rewrite length_app, IH. cbn [length entry_report]. lia.
Qed.

Lemma reports_lookup es : forall k prev i e,
  es !! i = Some e ->
  reports k prev es !! (6 * i)%nat = Some (entry_line (k + i) e)
  /\ reports k prev es !! (6 * i + 4)%nat
     = Some (link_line (match i with
                        | O => prev
                        | S j => f_hash <$> es !! j
                        end) e).
Proof.
  induction es as [|x r IH]; intros k prev i e Hi; [discriminate|].
  destruct i as [|i].
  - injection Hi as ->. rewrite Nat.add_0_r. split; reflexivity.
  - cbn [lookup list_lookup] in Hi. cbn [reports].
    replace (6 * S i)%nat with (length (entry_report k prev x) + 6 * i)%nat
      by (cbn [length entry_report]; lia).
    rewrite <- Nat.add_assoc, !lookup_app_r by lia.
    replace (length (entry_report k prev x) + 6 * i - length (entry_report k prev x))%nat
      with (6 * i)%nat by lia.
    replace (length (entry_report k prev x) + (6 * i + 4)
             - length (entry_report k prev x))%nat with (6 * i + 4)%nat by lia.
    destruct (IH (S k) (Some (f_hash x)) i e Hi) as [H1 H2].
    rewrite H1, H2. replace (S k + i)%nat with (k + S i)%nat by lia.
    split; [reflexivity|]. destruct i; reflexivity.
Qed.

Lemma lines_each texts :
  forallb single_line texts = true ->
  flat_map (fun text => lines (text ++ newline)) texts = texts.
Proof.
  induction texts as [|text r IH]; [reflexivity|]. cbn [forallb flat_map].
  intros Hall. apply andb_true_iff in Hall as [Ht Hr].
  rewrite (lines_single text Ht), (IH Hr). reflexivity.
Qed.

Lemma single_line_link_line prev e : single_line (link_line prev e) = true.
Proof.
  destruct prev as [ph|]; cbn [link_line]; [|reflexivity].
  destruct (py_eq (f_previous_hash e) ph); reflexivity.
Qed.

Lemma reports_single es : forall i prev,
  forallb (fun v => single_line (str v))
          (flat_map (fun e => [f_entry_id e; f_timestamp e; f_event_type e; f_hash e])
                    es) = true ->
  forallb single_line (reports i prev es) = true.
Proof.
  induction es as [|e r IH]; intros i prev Hall; [reflexivity|].
  cbn [flat_map app forallb] in Hall. cbn [reports]. rewrite forallb_app.
  apply andb_true_iff in Hall as [Hid Hall].
  apply andb_true_iff in Hall as [Hts Hall].
  apply andb_true_iff in Hall as [Hev Hall].
  apply andb_true_iff in Hall as [Hh Hall].
  rewrite (IH _ _ Hall), andb_true_r. unfold entry_report. cbn [forallb].
  rewrite !single_line_app, single_line_decimal, single_line_link_line,
    Hid, Hts, Hev, Hh.
  reflexivity.
Qed.

Lemma lines_two a : single_line a = true -> lines ((a ++ newline) ++ newline) = [a; []].
Proof.
  intros Ha. rewrite <- app_assoc. unfold lines at 1.
  rewrite lines_from_newline. fold (lines (a ++ newline)).
  rewrite (lines_single a Ha). reflexivity.
Qed.

(** The report of an export whose printed values hold no line boundary
    has the lines [report_lines]. *)
Lemma lines_of_report l :
  forallb (fun v => single_line (str v)) (printed_values l) = true ->
  lines (chain_report l) = report_lines l.
Proof.
  unfold printed_values. cbn [app forallb]. intros Hall.
  apply andb_true_iff in Hall as [Hc Hall].
  apply andb_true_iff in Hall as [Hg Hall].
  apply andb_true_iff in Hall as [Ha Hall].
  apply andb_true_iff in Hall as [Hv Hall].
  apply andb_true_iff in Hall as [Hp Hes].
  unfold chain_report, report_texts, report_lines.
  rewrite lines_unlines, !flat_map_app.
  rewrite (lines_each (reports 0 None (f_entries l)))
    by (apply reports_single, Hes).
  cbn [flat_map].
  rewrite (lines_single (link_symbol :: py " Verifying OR1ON Audit Chain..."))
    by reflexivity.
  rewrite (lines_single (py "Chain ID: " ++ str (f_chain_id l)))
    by (rewrite single_line_app, Hc; reflexivity).
  rewrite (lines_single (py "Genesis: " ++ str (f_genesis_timestamp l)))
    by (rewrite single_line_app, Hg; reflexivity).
  rewrite (app_assoc (py "Total Entries: ") _ newline).
  rewrite (lines_two (py "Total Entries: " ++ decimal (N.of_nat (length (f_entries l)))))
    by (rewrite single_line_app, single_line_decimal; reflexivity).
  change (lines ((newline ++ py "Chain Status:") ++ newline))
    with [[]; py "Chain Status:"].
  rewrite (lines_single (py "  Active: " ++ str (f_active l)))
    by (rewrite single_line_app, Ha; reflexivity).
  rewrite (lines_single (py "  Verified: " ++ str (f_verified l)))
    by (rewrite single_line_app, Hv; reflexivity).
  rewrite (lines_single (py "  Public: " ++ str (f_public l)))
    by (rewrite single_line_app, Hp; reflexivity).
  destruct (links_ok None (f_entries l)); reflexivity.
Qed.

(** X17: [verify_chain] reports every entry, also after a failed link. On
    an export of [n] entries whose report standard output encodes and whose
    printed values hold no line boundary, it prints [11 + 6 n] lines and
    then two (success) or one (failure) more; the block of the entry at
    position [i] starts at line [5 + 6 i] with its number and id, and its
    line [9 + 6 i] is the verdict on its own link. *)
Theorem every_entry_is_reported l out :
  encodes (chain_report l) = true ->
  forallb (fun v => single_line (str v)) (printed_values l) = true ->
  verify_chain (log_of_full l) out
  = (out ++ chain_report l, Ok (links_ok None (f_entries l)))
  /\ length (lines (chain_report l))
     = (11 + 6 * length (f_entries l)
        + (if links_ok None (f_entries l) then 2 else 1))%nat
  /\ forall i e, f_entries l !! i = Some e ->
       lines (chain_report l) !! (5 + 6 * i)%nat = Some (entry_line i e)
       /\ lines (chain_report l) !! (9 + 6 * i)%nat
          = Some (link_line (stored_before (f_entries l) i) e).
Proof.
  intros Henc Hsingle. rewrite run_of_full, Henc, (lines_of_report l Hsingle).
  split; [reflexivity|]. split.
  - unfold report_lines. rewrite !length_app, reports_length.
    destruct (links_ok None (f_entries l)); cbn [length]; lia.
  - intros i e Hi. unfold report_lines.
    destruct (reports_lookup _ 0%nat None i e Hi) as [H1 H2].
    assert (6 * i + 4 < length (reports 0 None (f_entries l)))%nat as Hlt.
    { rewrite reports_length. apply lookup_lt_Some in Hi. lia. }
    split.
    + rewrite lookup_app_r by (cbn [length]; lia). cbn [length].
      replace (5 + 6 * i - 5)%nat with (6 * i)%nat by lia.
      rewrite lookup_app_l by lia. exact H1.
    + rewrite lookup_app_r by (cbn [length]; lia). cbn [length].
      replace (9 + 6 * i - 5)%nat with (6 * i + 4)%nat by lia.
      rewrite lookup_app_l by lia. rewrite H2. unfold stored_before.
      destruct i; reflexivity.
Qed.

(** *** Lines printed before an exception *)

Section Plain.
Variable v : pystr.
Hypothesis Hv : v = success_line \/ v = failure_line.

Lemma plain_nil : plain v [].
Proof. intros Heq. destruct Hv as [->| ->]; discriminate Heq. Qed.

Lemma plain_head c rest :
  (c =? check_mark)%N = false -> (c =? cross_mark)%N = false ->
  plain v (c :: rest).
Proof.
  intros H1 H2 Heq. apply N.eqb_neq in H1, H2.
  destruct Hv as [->| ->]; injection Heq as Hc _; [exact (H1 Hc)|exact (H2 Hc)].
Qed.

Lemma plain_error text : plain v (cross_mark :: py " Error: " ++ text).
Proof.
  intros Heq. destruct Hv as [->| ->].
  - injection Heq as Hc _. vm_compute in Hc. discriminate Hc.
  - apply (f_equal (fun line => line !! 2%nat)) in Heq. vm_compute in Heq.
    discriminate Heq.
Qed.

Lemma plain_text_one line :
  single_line line = true -> plain v line -> plain_text v line.
Proof.
  intros Hs Hp. unfold plain_text. rewrite (lines_single line Hs).
  constructor; [exact Hp|constructor].
Qed.

Lemma plain_text_nil : plain_text v [].
Proof. apply plain_text_one; [reflexivity|apply plain_nil]. Qed.

Lemma plain_text_after_newline text :
  plain_text v text -> plain_text v (newline ++ text).
Proof. intros Ht. constructor; [apply plain_nil|exact Ht]. Qed.

Lemma plain_text_before_newline line :
  single_line line = true -> plain v line -> plain_text v (line ++ newline).
Proof.
  intros Hs Hp. unfold plain_text. rewrite (lines_two line Hs).
  constructor; [exact Hp|]. constructor; [apply plain_nil|constructor].
Qed.

Lemma plainly_ret {A} (a : A) : plainly v (io_ret a).
Proof.
  intros out. exists []. cbn [unlines flat_map]. rewrite app_nil_r.
  split; [reflexivity|constructor].
Qed.

Lemma plainly_raise {A} e : plainly v (@raise A e).
Proof.
  intros out. exists []. cbn [unlines flat_map]. rewrite app_nil_r.
  split; [reflexivity|constructor].
Qed.

Lemma plainly_print text : plain_text v text -> plainly v (print text).
Proof.
  intros Ht out. rewrite print_run. destruct (encodes text).
  - exists [text]. cbn [fst unlines flat_map]. rewrite app_nil_r.
    split; [reflexivity|]. constructor; [exact Ht|constructor].
  - exists []. cbn [fst unlines flat_map]. rewrite app_nil_r.
    split; [reflexivity|constructor].
Qed.

Lemma plainly_bind {A B} (m : IO A) (k : A -> IO B) :
  plainly v m -> (forall a, plainly v (k a)) -> plainly v (io_bind m k).
Proof.
  intros Hm Hk out. destruct (Hm out) as (a1 & E1 & P1). unfold io_bind.
  destruct (m out) as [out1 [a|e]]; cbn [fst] in E1; subst out1.
  - destruct (Hk a (out ++ unlines a1)) as (a2 & E2 & P2). exists (a1 ++ a2).
    rewrite E2, unlines_app, app_assoc. split; [reflexivity|].
    apply Forall_app_2; assumption.
  - exists a1. split; [reflexivity|exact P1].
Qed.

Lemma plainly_after {A B} (r : result A) (k : A -> IO B) :
  (forall a, r = Ok a -> plainly v (k a)) -> plainly v (io_bind (lift r) k).
Proof.
  intros Hk. destruct r as [a|e]; [exact (Hk a eq_refl)|].
  intros out. exists []. cbn [unlines flat_map]. rewrite app_nil_r.
  split; [reflexivity|constructor].
Qed.

Lemma quiet_bind {A B} (m : IO A) (k : A -> IO B) :
  plainly v m -> (forall a, quiet v (k a)) -> quiet v (io_bind m k).
Proof.
  intros Hm Hk out. destruct (Hm out) as (a1 & E1 & P1). unfold io_bind.
  destruct (m out) as [out1 [a|e]]; cbn [fst] in E1; subst out1.
  - destruct (Hk a (out ++ unlines a1)) as (a2 & E2 & P2). exists (a1 ++ a2).
    rewrite E2, unlines_app, app_assoc. split; [reflexivity|].
    intros He. apply Forall_app_2; [exact P1|exact (P2 He)].
  - exists a1. split; [reflexivity|]. intros _. exact P1.
Qed.

Lemma quiet_after {A B} (r : result A) (k : A -> IO B) :
  (forall a, r = Ok a -> quiet v (k a)) -> quiet v (io_bind (lift r) k).
Proof.
  intros Hk. destruct r as [a|e]; [exact (Hk a eq_refl)|].
  intros out. exists []. cbn [unlines flat_map]. rewrite app_nil_r.
  split; [reflexivity|]. intros _. constructor.
Qed.

Lemma labelled c label s :
  (c =? check_mark)%N = false -> (c =? cross_mark)%N = false ->
  single_line (c :: label) = true -> single_line s = true ->
  plain_text v ((c :: label) ++ s).
Proof.
  intros H1 H2 Hl Hs. apply plain_text_one.
  - rewrite single_line_app, Hl, Hs. reflexivity.
  - exact (plain_head c (label ++ s) H1 H2).
Qed.

Lemma member_found e key x : subscript e key = Ok x -> member e key = [x].
Proof. unfold member. intros ->. reflexivity. Qed.

Lemma member_value (P : json -> bool) e key x :
  forallb P (member e key) = true -> subscript e key = Ok x -> P x = true.
Proof.
  unfold member. intros Hall Hx. rewrite Hx in Hall. cbn [forallb] in Hall.
  apply andb_true_iff in Hall. exact (proj1 Hall).
Qed.

Lemma verify_loop_plainly entries rest : forall i verified,
  forallb (fun x => single_line (str x))
          (flat_map (fun e => member e (py "entry_id") ++ member e (py "timestamp")
                              ++ member e (py "event_type") ++ member e (py "hash"))
                    rest) = true ->
  plainly v (verify_loop entries i rest verified).
Proof.
  induction rest as [|e rest IH]; intros i verified Hall; cbn [verify_loop].
  - apply plainly_ret.
  - cbn [flat_map] in Hall. rewrite !forallb_app in Hall.
    apply andb_true_iff in Hall as [Hall Hrest].
    apply andb_true_iff in Hall as [Mid Hall].
    apply andb_true_iff in Hall as [Mts Hall].
    apply andb_true_iff in Hall as [Mev Mh].
    apply plainly_after. intros eid Hid. apply plainly_after. intros h Hh.
    apply plainly_after. intros p Hp.
    apply plainly_bind.
    { apply plainly_print, (labelled 69%N); try reflexivity.
      rewrite !single_line_app, single_line_decimal, (member_value _ _ _ _ Mid Hid).
      reflexivity. }
    intros _. apply plainly_after. intros ts Hts.
    apply plainly_bind.
    { apply plainly_print, (labelled 32%N); try reflexivity.
      exact (member_value _ _ _ _ Mts Hts). }
    intros _. apply plainly_after. intros ev Hev.
    apply plainly_bind.
    { apply plainly_print, (labelled 32%N); try reflexivity.
      exact (member_value _ _ _ _ Mev Hev). }
    intros _. apply plainly_bind.
    { apply plainly_print, (labelled 32%N); try reflexivity.
      exact (member_value _ _ _ _ Mh Hh). }
    intros _. apply plainly_bind.
    { destruct (0 <? i)%nat.
      - apply plainly_after. intros previous _. apply plainly_after.
        intros expected _.
        destruct (py_eq p expected); (apply plainly_bind;
          [apply plainly_print, plain_text_one;
           [reflexivity|apply plain_head; reflexivity]
          |intros _; apply plainly_ret]).
      - apply plainly_bind; [|intros _; apply plainly_ret].
        apply plainly_print, plain_text_one;
          [reflexivity|apply plain_head; reflexivity]. }
    intros verified'. apply plainly_bind; [apply plainly_print, plain_text_nil|].
    intros _. apply IH, Hrest.
Qed.

Hypothesis Hseal : v = success_line -> encodes seal_line = true.

Lemma quiet_verdict (verified : bool) :
  quiet v ((if verified then
              print (newline ++ check_mark
                     :: py " AUDIT CHAIN VERIFICATION SUCCESSFUL") ;;;
              print (resonance_seal ++ py " Chain integrity confirmed")
            else
              print (newline ++ cross_mark
                     :: py " AUDIT CHAIN VERIFICATION FAILED")) ;;;
           io_ret verified).
Proof.
  intros out. destruct verified.
  - rewrite bind_assoc, bind_print.
    destruct (encodes (newline ++ check_mark
                       :: py " AUDIT CHAIN VERIFICATION SUCCESSFUL")).
    + rewrite bind_print.
      destruct (encodes (resonance_seal ++ py " Chain integrity confirmed"))
        eqn:Henc.
      * exists [newline ++ check_mark :: py " AUDIT CHAIN VERIFICATION SUCCESSFUL";
                resonance_seal ++ py " Chain integrity confirmed"].
        cbn [fst snd unlines flat_map].
        rewrite app_nil_r, <- !app_assoc. split; [reflexivity|].
        intros [e He]. discriminate He.
      * exists [newline ++ check_mark :: py " AUDIT CHAIN VERIFICATION SUCCESSFUL"].
        cbn [fst snd unlines flat_map]. rewrite app_nil_r.
        split; [reflexivity|]. intros _. constructor; [|constructor].
        destruct Hv as [Hs| ->].
        -- change (encodes seal_line = false) in Henc.
           rewrite (Hseal Hs) in Henc. discriminate Henc.
        -- constructor; [discriminate|]. constructor; [|constructor].
           intros Heq. injection Heq as Hc _. vm_compute in Hc. discriminate Hc.
    + exists []. cbn [fst snd unlines flat_map]. rewrite app_nil_r.
      split; [reflexivity|]. intros _. constructor.
  - rewrite bind_print.
    destruct (encodes (newline ++ cross_mark
                       :: py " AUDIT CHAIN VERIFICATION FAILED")).
    + exists [newline ++ cross_mark :: py " AUDIT CHAIN VERIFICATION FAILED"].
      cbn [fst snd unlines flat_map]. rewrite app_nil_r.
      split; [reflexivity|]. intros [e He]. discriminate He.
    + exists []. cbn [fst snd unlines flat_map]. rewrite app_nil_r.
      split; [reflexivity|]. intros _. constructor.
Qed.

Lemma verify_chain_quiet log :
  forallb (fun x => single_line (str x)) (interpolated log) = true ->
  quiet v (verify_chain log).
Proof.
  unfold interpolated. rewrite !forallb_app. intros Hall.
  apply andb_true_iff in Hall as [Mc Hall].
  apply andb_true_iff in Hall as [Mg Hall].
  apply andb_true_iff in Hall as [Mes Mst].
  unfold verify_chain.
  apply quiet_after. intros es Hes.
  apply quiet_bind.
  { apply plainly_print, plain_text_one; [reflexivity|apply plain_head; reflexivity]. }
  intros _. apply quiet_after. intros c Hc.
  apply quiet_bind.
  { apply plainly_print, (labelled 67%N); try reflexivity.
    exact (member_value _ _ _ _ Mc Hc). }
  intros _. apply quiet_after. intros g Hg.
  apply quiet_bind.
  { apply plainly_print, (labelled 71%N); try reflexivity.
    exact (member_value _ _ _ _ Mg Hg). }
  intros _. apply quiet_after. intros n Hn.
  apply quiet_bind.
  { apply plainly_print. rewrite app_assoc. apply plain_text_before_newline.
    - rewrite single_line_app, single_line_decimal. reflexivity.
    - apply plain_head; reflexivity. }
  intros _. apply quiet_after. intros items Hit.
  rewrite (member_found _ _ _ Hes) in Mes. cbn [flat_map] in Mes.
  rewrite app_nil_r in Mes. unfold items_of in Mes. rewrite Hit in Mes.
  apply quiet_bind; [apply verify_loop_plainly, Mes|].
  intros verified. apply quiet_after. intros st Hst.
  rewrite (member_found _ _ _ Hst) in Mst. cbn [flat_map] in Mst.
  rewrite app_nil_r, !forallb_app in Mst.
  apply andb_true_iff in Mst as [Ma Mst].
  apply andb_true_iff in Mst as [Mv Mp].
  apply quiet_bind.
  { apply plainly_print, plain_text_after_newline, plain_text_one;
      [reflexivity|apply plain_head; reflexivity]. }
  intros _. apply quiet_after. intros a Ha.
  apply quiet_bind.
  { apply plainly_print, (labelled 32%N); try reflexivity.
    exact (member_value _ _ _ _ Ma Ha). }
  intros _. apply quiet_after. intros vf Hvf.
  apply quiet_bind.
  { apply plainly_print, (labelled 32%N); try reflexivity.
    exact (member_value _ _ _ _ Mv Hvf). }
  intros _. apply quiet_after. intros p Hp.
  apply quiet_bind.
  { apply plainly_print, (labelled 32%N); try reflexivity.
    exact (member_value _ _ _ _ Mp Hp). }
  intros _. apply quiet_verdict.
Qed.

Lemma not_a_line texts : Forall (plain_text v) texts -> v ∉ lines (unlines texts).
Proof.
  intros Hall Hin. rewrite lines_unlines in Hin.
  apply list_elem_of_In, in_flat_map in Hin as (text & Ht & Hl).
  apply list_elem_of_In in Ht, Hl.
  rewrite Forall_forall in Hall. specialize (Hall text Ht).
  unfold plain_text in Hall. rewrite Forall_forall in Hall.
  exact (Hall v Hl eq_refl).
Qed.

Lemma not_a_line_of_message text :
  single_line text = true ->
  v ∉ lines (written (cross_mark :: py " Error: " ++ text)).
Proof.
  intros Hs. unfold written.
  destruct (encodes (cross_mark :: py " Error: " ++ text)).
  - rewrite lines_single; [|exact Hs].
    intros Hin. apply list_elem_of_singleton in Hin.
    exact (plain_error text (eq_sym Hin)).
  - intros Hin. inversion Hin.
Qed.

Lemma no_such_line argv fs :
  (main argv fs).2 = 1%Z ->
  single_lined (fs (py "audit-log.json")) ->
  v ∉ lines (main argv fs).1.
Proof.
  rewrite (main_not_loaded argv fs).
  destruct (fs (py "audit-log.json")) as [|f|message|data]; cbn [single_lined].
  - intros _ _. cbn [fst].
    apply (not_a_line_of_message
             (py "Audit log file not found at " ++ py "audit-log.json")).
    reflexivity.
  - intros _ _ Hin. inversion Hin.
  - intros _ Hs. cbn [fst].
    apply (not_a_line_of_message (py "Invalid JSON in audit log: " ++ message)).
    rewrite single_line_app, Hs. reflexivity.
  - unfold member. destruct (subscript data (py "audit_log")) as [log|e].
    + cbn [flat_map]. rewrite app_nil_r. intros Hexit Hs.
      destruct (verify_chain_quiet log Hs []) as (texts & Hout & Hplain).
      destruct (verify_chain log []) as [out [b|e]]; [discriminate Hexit|].
      cbn [fst snd] in *. subst out. cbn [app].
      apply not_a_line, Hplain. eauto.
    + intros _ _.
      destruct e; [intros Hin; inversion Hin| |intros Hin; inversion Hin..].
      apply (not_a_line_of_message
               (py "Invalid audit log format - missing 'audit_log' key")).
      reflexivity.
Qed.

End Plain.

(** X18: when the tool ends with exit status 1 and no text that it
    interpolated holds a line boundary, no line of its output is the line
    of a failed verification; none is the line of a successful verification
    either, as long as standard output encodes the line that follows it.
    A [KeyError], a [TypeError] or a [UnicodeEncodeError] in the middle of
    the report leaves the entries printed so far without any verdict. *)
Theorem no_verdict_line_when_the_tool_fails argv fs :
  (main argv fs).2 = 1%Z ->
  single_lined (fs (py "audit-log.json")) ->
  (failure_line ∉ lines (main argv fs).1)
  /\ (encodes seal_line = true -> success_line ∉ lines (main argv fs).1).
Proof.
  intros Hexit Hs. split.
  - apply (no_such_line failure_line); auto. intros Heq. discriminate Heq.
  - intros Hseal. apply (no_such_line success_line); auto.
Qed.

End Reports.

Section Examples.
#[local] Existing Instance utf8_stdout.

Lemma every_segment_of_an_accepted_chain_is_accepted_witness :
  verify_chain (log_of_full linked_full) [] = (chain_report linked_full, Ok true)
  /\ verify_chain
       (log_of_full (with_entries linked_full (take 1 (drop 1 (f_entries linked_full)))))
       []
     = ([] ++ chain_report
                (with_entries linked_full (take 1 (drop 1 (f_entries linked_full)))),
        Ok true).
Proof.
  assert (verify_chain (log_of_full linked_full) [] = (chain_report linked_full, Ok true))
    as Hrun by (vm_compute; reflexivity).
  split; [exact Hrun|].
  exact (every_segment_of_an_accepted_chain_is_accepted linked_full 1 1 [] _ Hrun).
Defined.

Lemma verdict_reads_only_the_hash_columns_witness :
  map f_hash (f_entries linked_full) = map f_hash (f_entries relabelled_full)
  /\ map f_previous_hash (drop 1 (f_entries linked_full))
     = map f_previous_hash (drop 1 (f_entries relabelled_full))
  /\ encodes (chain_report linked_full) = true
  /\ encodes (chain_report relabelled_full) = true
  /\ (verify_chain (log_of_full linked_full) []).2
     = (verify_chain (log_of_full relabelled_full) []).2
  /\ (verify_chain (log_of_full linked_full) []).2
     = Ok (links_ok None (f_entries linked_full)).
Proof.
  assert (encodes (chain_report linked_full) = true) as H1
    by (vm_compute; reflexivity).
  assert (encodes (chain_report relabelled_full) = true) as H2
    by (vm_compute; reflexivity).
  split; [reflexivity|]. split; [reflexivity|]. split; [exact H1|].
  split; [exact H2|].
  exact (verdict_reads_only_the_hash_columns linked_full relabelled_full [] []
           eq_refl eq_refl H1 H2).
Defined.

Lemma every_entry_is_reported_witness :
  encodes (chain_report linked_full) = true
  /\ forallb (fun v => single_line (str v)) (printed_values linked_full) = true
  /\ length (lines (chain_report linked_full)) = 25%nat
  /\ lines (chain_report linked_full) !! 11%nat
     = Some (py "Entry 2: e-2")
  /\ lines (chain_report linked_full) !! 15%nat
     = Some (py "  " ++ check_mark :: py " Chain link verified").
Proof.
  assert (encodes (chain_report linked_full) = true) as H1
    by (vm_compute; reflexivity).
  assert (forallb (fun v => single_line (str v)) (printed_values linked_full) = true)
    as H2 by (vm_compute; reflexivity).
  split; [exact H1|]. split; [exact H2|].
  destruct (every_entry_is_reported linked_full [] H1 H2) as (_ & Hlen & Hat).
  split; [exact Hlen|].
  exact (Hat 1%nat _ eq_refl).
Defined.

Lemma no_verdict_line_when_the_tool_fails_witness :
  (main [] keyless_fs).2 = 1%Z
  /\ single_lined (keyless_fs (py "audit-log.json"))
  /\ (failure_line ∉ lines (main [] keyless_fs).1)
  /\ (success_line ∉ lines (main [] keyless_fs).1).
Proof.
  assert ((main [] keyless_fs).2 = 1%Z) as H1 by (vm_compute; reflexivity).
  assert (single_lined (keyless_fs (py "audit-log.json"))) as H2
    by (vm_compute; reflexivity).
  split; [exact H1|]. split; [exact H2|].
  destruct (no_verdict_line_when_the_tool_fails [] keyless_fs H1 H2) as [Hf Hs].
  split; [exact Hf|]. apply Hs. vm_compute. reflexivity.
Defined.

(** The condition on line boundaries is needed: a [chain_id] of two lines
    puts the line of a successful verification in the output of a run that
    ends with a [KeyError] and exit status 1. *)
Lemma a_value_can_read_as_the_verdict :
  (main [] mimicking_fs).2 = 1%Z
  /\ success_line ∈ lines (main [] mimicking_fs).1.
Proof.
  split; [vm_compute; reflexivity|].
  apply list_elem_of_In. vm_compute. tauto.
Qed.

(** Nor does every export with all its keys get a verdict: the run stops
    with [UnicodeEncodeError] on an id that UTF-8 does not encode, and with
    [TypeError] on [entries] that are a number. *)
Lemma exports_without_a_verdict :
  (verify_chain (log_of_full surrogate_full) []).2 = Raise UnicodeEncodeError
  /\ (verify_chain numbered_log []).2 = Raise TypeError.
Proof. split; vm_compute; reflexivity. Qed.

End Examples.

End VerifyChainReportFacts.

(** ** public_interface.py *)

Module PublicInterfaceFacts.
Import AuditSystem AuditSystemFacts AuditVocabulary AuditTrailFacts PublicInterface.

(** *** The access log *)

Lemma newest_short {A} n (l : list A) : (length l <= n)%nat -> newest n l = l.
Proof.
  intros H. unfold newest. replace (length l - n)%nat with 0%nat by lia.
  reflexivity.
Qed.

Lemma newest_length {A} n (l : list A) : length (newest n l) = Nat.min n (length l).
Proof. unfold newest. rewrite length_drop. lia. Qed.

Lemma newest_snoc {A} n (l k : list A) :
  (length k <= n)%nat -> newest n (newest n l ++ k) = newest n (l ++ k).
Proof.
  intros Hk. unfold newest. rewrite !length_app, length_drop.
  rewrite !drop_app, length_drop.
  destruct (Nat.le_gt_cases (length l) n) as [Hl|Hl].
  - replace (length l - n)%nat with 0%nat by lia. rewrite !drop_0.
    replace (length l - 0)%nat with (length l) by lia. reflexivity.
  - replace (length l - (length l - n) + length k - n)%nat with (length k) by lia.
    rewrite drop_drop.
    replace (length l - n + length k)%nat with (length l + length k - n)%nat by lia.
    replace (length k - (length l - (length l - n)))%nat with 0%nat by lia.
    replace (length l + length k - n - length l)%nat with 0%nat by lia.
    rewrite !drop_0. reflexivity.
Qed.

Lemma slice_is_newest {A} (l : list A) :
  slice_from (-10000) l = newest limit l.
Proof.
  unfold slice_from, newest, limit. cbn [Z.ltb Z.compare]. f_equal. lia.
Qed.

Lemma log_access_spec t d s :
  _log_access t d s
  = (later s 1 (newest limit (access_log s ++ [logged s (ticks s) t d])), Ok tt).
Proof.
  unfold _log_access, bind, utcnow, attribute. cbn [access_log clock ticks].
  destruct (Z.ltb_spec 10000
              (Z.of_nat (length (access_log s
                                 ++ [AccessEntry (isoformat (clock s (ticks s))) t d]))))
    as [H|H];
    unfold set_access_log, later, logged;
    cbn [clock ticks audit_trail pi_version kernel_version access_log Nat.add].
  - rewrite slice_is_newest. reflexivity.
  - rewrite newest_short by (unfold limit; lia). reflexivity.
Qed.

(** *** The methods, one by one *)

Ltac run :=
  unfold bind, utcnow, attribute, on_trail, ret;
  cbn [clock ticks audit_trail pi_version kernel_version access_log];
  repeat (rewrite log_access_spec;
          unfold later, logged;
          cbn [clock ticks audit_trail pi_version kernel_version access_log]).

Lemma get_system_status_spec s :
  get_system_status s
  = (later s 2 (newest limit
                  (access_log s
                   ++ [logged s (S (ticks s)) (py "SYSTEM_STATUS")
                              (py "Public system status query")])),
     Ok (SystemStatus (isoformat (clock s (ticks s)))
           (default (py "unknown") (kernel_version s)) (py "active") true (py "full"))).
Proof.
  unfold get_system_status. run. reflexivity.
Qed.

Lemma get_audit_summary_eq w s st :
  get_statistics (audit_trail s) = Ok st ->
  get_audit_summary w s
  = (later s 2 (newest limit
                  (access_log s
                   ++ [logged s (S (ticks s)) (py "AUDIT_SUMMARY")
                         (py "Audit summary requested for "
                          ++ format_optional_int w ++ py "h window")])),
     Ok (AuditSummary (isoformat (clock s (ticks s))) w st)).
Proof.
  intros Hst. unfold get_audit_summary. run. rewrite Hst. run. reflexivity.
Qed.

Lemma get_ethical_compliance_report_spec s :
  get_ethical_compliance_report s
  = (later s 2 (newest limit
                  (access_log s
                   ++ [logged s (S (ticks s)) (py "ETHICAL_REPORT")
                         (py "Ethical compliance report requested")])),
     Ok (ComplianceReport (isoformat (clock s (ticks s))) (py "compliant")
           [ py "transparency"; py "accountability"; py "harm_prevention";
             py "privacy_preservation"; py "fairness" ] [])).
Proof. unfold get_ethical_compliance_report. run. reflexivity. Qed.

Lemma get_sentient_systems_status_spec s :
  exists r,
    get_sentient_systems_status s
    = (later s 2 (newest limit
                    (access_log s
                     ++ [logged s (S (ticks s)) (py "SENTIENT_STATUS")
                           (py "Sentient systems status requested")])),
       Ok r)
    /\ sn_timestamp r = isoformat (clock s (ticks s))
    /\ map fst (sentient_systems r) = [py "eira"; py "orion"].
Proof.
  eexists. split; [unfold get_sentient_systems_status; run; reflexivity|].
  split; reflexivity.
Qed.

Lemma verify_system_integrity_eq s v :
  verify_integrity (audit_trail s) (clock s (S (ticks s))) = Ok v ->
  verify_system_integrity s
  = (later s 3 (newest limit
                  (access_log s
                   ++ [logged s (S (S (ticks s))) (py "INTEGRITY_CHECK")
                         (py "System integrity verification performed")])),
     Ok (IntegrityVerification (isoformat (clock s (ticks s))) (py "completed") v)).
Proof.
  intros Hv. unfold verify_system_integrity. run. rewrite Hv. run. reflexivity.
Qed.

Lemma get_access_statistics_spec s :
  get_access_statistics s
  = (later s 1 (access_log s),
     Ok (AccessStatistics (length (access_log s)) (count_access_types (access_log s))
           (isoformat (clock s (ticks s))))).
Proof. unfold get_access_statistics. run. reflexivity. Qed.

Lemma get_public_audit_report_spec s st v :
  get_statistics (audit_trail s) = Ok st ->
  verify_integrity (audit_trail s) (clock s (10 + ticks s)) = Ok v ->
  exists sentient,
  get_public_audit_report s
  = (later s 13
       (newest limit
          (access_log s
           ++ [ logged s (2 + ticks s) (py "SYSTEM_STATUS")
                  (py "Public system status query");
                logged s (4 + ticks s) (py "AUDIT_SUMMARY")
                  (py "Audit summary requested for 24h window");
                logged s (6 + ticks s) (py "ETHICAL_REPORT")
                  (py "Ethical compliance report requested");
                logged s (8 + ticks s) (py "SENTIENT_STATUS")
                  (py "Sentient systems status requested");
                logged s (11 + ticks s) (py "INTEGRITY_CHECK")
                  (py "System integrity verification performed");
                logged s (12 + ticks s) (py "FULL_REPORT")
                  (py "Comprehensive public audit report generated") ])),
     Ok (PublicAuditReport (isoformat (clock s (ticks s))) (pi_version s)
           (SystemStatus (isoformat (clock s (1 + ticks s)))
              (default (py "unknown") (kernel_version s)) (py "active") true (py "full"))
           (AuditSummary (isoformat (clock s (3 + ticks s))) (Some 24%Z) st)
           (ComplianceReport (isoformat (clock s (5 + ticks s))) (py "compliant")
              [ py "transparency"; py "accountability"; py "harm_prevention";
                py "privacy_preservation"; py "fairness" ] [])
           sentient
           (IntegrityVerification (isoformat (clock s (9 + ticks s)))
              (py "completed") v)))
  /\ sn_timestamp sentient = isoformat (clock s (7 + ticks s))
  /\ map fst (sentient_systems sentient) = [py "eira"; py "orion"].
Proof.
  intros Hst Hv. unfold get_public_audit_report.
  unfold bind at 1 2, utcnow at 1, attribute at 1.
  cbn [clock ticks audit_trail pi_version kernel_version access_log].
  unfold bind at 1. rewrite get_system_status_spec. unfold later, logged.
  cbn [clock ticks audit_trail pi_version kernel_version access_log].
  unfold bind at 1. rewrite (get_audit_summary_eq _ _ st) by exact Hst.
  unfold later, logged.
  cbn [clock ticks audit_trail pi_version kernel_version access_log].
  unfold bind at 1. rewrite get_ethical_compliance_report_spec. unfold later, logged.
  cbn [clock ticks audit_trail pi_version kernel_version access_log].
  unfold bind at 1.
  match goal with
  | |- context [get_sentient_systems_status ?s0] =>
      destruct (get_sentient_systems_status_spec s0) as (sentient & -> & Hts & Hkeys)
  end.
  exists sentient. unfold later, logged.
  cbn [clock ticks audit_trail pi_version kernel_version access_log] in *.
  unfold bind at 1. rewrite (verify_system_integrity_eq _ v) by exact Hv.
  unfold later, logged.
  cbn [clock ticks audit_trail pi_version kernel_version access_log].
  unfold bind at 1. rewrite log_access_spec. unfold later, logged, ret.
  cbn [clock ticks audit_trail pi_version kernel_version access_log Nat.add].
  split; [|split; [exact Hts|exact Hkeys]].
  f_equal. f_equal.
  do 5 (rewrite newest_snoc by (unfold limit; cbn [length]; lia);
        rewrite <- app_assoc; cbn [app]).
  reflexivity.
Qed.

Lemma as_filters_setitem k v d :
  as_filters (setitem k v d) = <[k := v]> (as_filters d).
Proof.
  unfold as_filters. induction d as [|[k' v'] r IH]; [reflexivity|].
  cbn [setitem]. destruct (decide (k' = k)) as [->|Hne].
  - rewrite bool_decide_eq_true_2 by reflexivity.
    rewrite !list_to_map_cons, insert_insert_eq. reflexivity.
  - rewrite bool_decide_eq_false_2 by exact Hne.
    rewrite !list_to_map_cons, IH. apply insert_insert_ne. exact Hne.
Qed.

Lemma query_public_events_spec repr filters s :
  query_public_events repr filters s
  = (later s 2
       (newest limit
          (access_log s
           ++ [logged s (S (ticks s)) (py "PUBLIC_EVENTS")
                 (py "Public events queried with filters: "
                  ++ format_filters repr (formatted filters))])),
     Ok (PublicEvents (isoformat (clock s (ticks s))) (final_store filters).1
           (query_events (audit_trail s)
              (Some (<[py "sensitivity" := py "public"]>
                       (as_filters (default [] filters)))) None None),
         (final_store filters).2)).
Proof.
  unfold query_public_events.
  destruct filters as [[|kv d]|]; cbn [or_new_dict lookup list_lookup length app alter
    list_alter mbind option_bind fmap option_fmap option_map default final_store
    formatted fst snd].
  - run. reflexivity.
  - run. rewrite as_filters_setitem. reflexivity.
  - run. reflexivity.
Qed.

(** *** Properties of the interface *)

Lemma newest_last {A} n (l : list A) x :
  (0 < n)%nat -> last (newest n (l ++ [x])) = Some x.
Proof.
  intros Hn. unfold newest. rewrite last_lookup, length_drop, lookup_drop, length_app.
  cbn [length].
  replace (length l + 1 - n + Nat.pred (length l + 1 - (length l + 1 - n)))%nat
    with (length l + 0)%nat by lia.
  rewrite lookup_app_r by lia. replace (length l + 0 - length l)%nat with 0%nat by lia.
  reflexivity.
Qed.

(** X19: [_log_access] always returns; it reads the clock once and leaves
    the access log as the newest 10000 items of the old log with the new
    entry appended: the new entry is last, the length is the smaller of
    10000 and the old length plus one, and the audit trail is not
    touched. *)
Theorem log_access_keeps_the_newest_entries t d s :
  exists s',
    _log_access t d s = (s', Ok tt)
    /\ access_log s'
       = newest limit (access_log s ++ [AccessEntry (isoformat (clock s (ticks s))) t d])
    /\ length (access_log s') = Nat.min limit (S (length (access_log s)))
    /\ last (access_log s') = Some (AccessEntry (isoformat (clock s (ticks s))) t d)
    /\ ticks s' = S (ticks s)
    /\ audit_trail s' = audit_trail s.
Proof.
  rewrite log_access_spec. eexists. split; [reflexivity|].
  unfold later, logged. cbn [access_log ticks audit_trail].
  split; [reflexivity|]. split; [|split; [|split; reflexivity]].
  - rewrite newest_length, length_app. cbn [length]. lia.
  - apply newest_last. unfold limit. lia.
Qed.

Lemma served (s : state) k entries :
  (length (access_log s) <= limit)%nat ->
  (0 < k)%nat ->
  forall (types : list pystr), map access_type entries = types ->
  exists s' entries',
    (later s k (newest limit (access_log s ++ entries)), Ok tt) = (s', Ok tt)
    /\ audit_trail s' = audit_trail s
    /\ clock s' = clock s
    /\ pi_version s' = pi_version s
    /\ kernel_version s' = kernel_version s
    /\ (ticks s < ticks s')%nat
    /\ access_log s' = newest limit (access_log s ++ entries')
    /\ map access_type entries' = types
    /\ (length (access_log s') <= limit)%nat.
Proof.
  intros Hlen Hk types Htypes. eexists _, entries. split; [reflexivity|].
  unfold later. cbn [audit_trail clock pi_version kernel_version ticks access_log].
  repeat (split; [reflexivity || lia || exact Htypes|]).
  rewrite newest_length. lia.
Qed.

Lemma bind_ret_tt {A} (m : M A) s s' a :
  m s = (s', Ok a) -> (m ;;; ret tt) s = (s', Ok tt).
Proof. intros H. unfold bind. rewrite H. reflexivity. Qed.

(** X20: every call of the interface (system status, audit summary,
    ethical report, sentient status, public events, integrity check, full
    report, access statistics) returns without raising, leaves the audit
    trail, the clock sequence and the versions as they were, and records
    its access types in order at the end of the access log, of which the
    newest 10000 items are kept; [get_access_statistics] records nothing.
    An access log of at most 10000 items stays so. *)
Theorem interface_calls_only_extend_the_access_log q s :
  (length (access_log s) <= limit)%nat ->
  exists s' entries,
    serve q s = (s', Ok tt)
    /\ audit_trail s' = audit_trail s
    /\ clock s' = clock s
    /\ pi_version s' = pi_version s
    /\ kernel_version s' = kernel_version s
    /\ (ticks s < ticks s')%nat
    /\ access_log s' = newest limit (access_log s ++ entries)
    /\ map access_type entries = recorded q
    /\ (length (access_log s') <= limit)%nat.
Proof.
  intros Hlen.
  pose proof (get_statistics_spec (audit_trail s)) as Hst.
  destruct q as [|w| | |repr filters| | |]; cbn [serve recorded].
  - rewrite (bind_ret_tt _ _ _ _ (get_system_status_spec s)).
    apply served; [exact Hlen|lia|reflexivity].
  - rewrite (bind_ret_tt _ _ _ _ (get_audit_summary_eq w s _ Hst)).
    apply served; [exact Hlen|lia|reflexivity].
  - rewrite (bind_ret_tt _ _ _ _ (get_ethical_compliance_report_spec s)).
    apply served; [exact Hlen|lia|reflexivity].
  - destruct (get_sentient_systems_status_spec s) as (r & Hr & _).
    rewrite (bind_ret_tt _ _ _ _ Hr).
    apply served; [exact Hlen|lia|reflexivity].
  - rewrite (bind_ret_tt _ _ _ _ (query_public_events_spec repr filters s)).
    apply served; [exact Hlen|lia|reflexivity].
  - rewrite (bind_ret_tt _ _ _ _
               (verify_system_integrity_eq s _ (verify_integrity_spec _ _))).
    apply served; [exact Hlen|lia|reflexivity].
  - destruct (get_public_audit_report_spec s _ _ Hst (verify_integrity_spec _ _))
      as (sn & Hr & _).
    rewrite (bind_ret_tt _ _ _ _ Hr).
    apply served; [exact Hlen|lia|reflexivity].
  - rewrite (bind_ret_tt _ _ _ _ (get_access_statistics_spec s)).
    exists (later s 1 (access_log s)), []. split; [reflexivity|].
    unfold later. cbn [audit_trail clock pi_version kernel_version ticks access_log].
    rewrite app_nil_r, newest_short by exact Hlen.
    repeat (split; [reflexivity || lia|]). exact Hlen.
Qed.

Lemma interface_calls_only_extend_the_access_log_witness :
  let s := PublicInterface.init noon AuditSystem.init None in
  (length (access_log s) <= limit)%nat
  /\ exists s' entries,
       serve GetPublicAuditReport s = (s', Ok tt)
       /\ audit_trail s' = audit_trail s
       /\ clock s' = clock s
       /\ pi_version s' = pi_version s
       /\ kernel_version s' = kernel_version s
       /\ (ticks s < ticks s')%nat
       /\ access_log s' = newest limit (access_log s ++ entries)
       /\ map access_type entries = recorded GetPublicAuditReport
       /\ (length (access_log s') <= limit)%nat.
Proof.
  cbv zeta.
  assert (length (access_log (PublicInterface.init noon AuditSystem.init None))
          <= limit)%nat as H
    by (unfold limit; cbn [length access_log PublicInterface.init]; lia).
  split; [exact H|].
  exact (interface_calls_only_extend_the_access_log GetPublicAuditReport _ H).
Defined.

(** X21: [get_public_audit_report] returns a report whose
    [audit_summary] holds the value of [get_statistics] of the trail with a
    time window of 24, whose [integrity_verification] holds the value of
    [verify_integrity] of the trail (at the eleventh clock reading of the
    call), whose [system_status] has the kernel's version or ["unknown"],
    and whose [report_version] is the interface's version; the call reads
    the clock 13 times and the last six access-log entries are the five
    sub-reports and [FULL_REPORT], in this order. *)
Theorem public_audit_report_embeds_the_direct_results s :
  exists s' r st v,
    get_public_audit_report s = (s', Ok r)
    /\ get_statistics (audit_trail s) = Ok st
    /\ verify_integrity (audit_trail s) (clock s (10 + ticks s)) = Ok v
    /\ audit_statistics (pr_audit_summary r) = st
    /\ time_window_hours (pr_audit_summary r) = Some 24%Z
    /\ iv_result (pr_integrity_verification r) = v
    /\ system_version (pr_system_status r) = default (py "unknown") (kernel_version s)
    /\ report_version r = pi_version s
    /\ pr_timestamp r = isoformat (clock s (ticks s))
    /\ ticks s' = (13 + ticks s)%nat
    /\ map access_type (drop (length (access_log s') - 6) (access_log s'))
       = recorded GetPublicAuditReport.
Proof.
  destruct (get_public_audit_report_spec s _ _ (get_statistics_spec _)
              (verify_integrity_spec _ _)) as (sn & Hr & _).
  rewrite Hr. do 4 eexists. split; [reflexivity|].
  split; [apply get_statistics_spec|]. split; [apply verify_integrity_spec|].
  cbn [pr_audit_summary audit_statistics time_window_hours pr_integrity_verification
       iv_result pr_system_status system_version report_version pr_timestamp
       later ticks access_log].
  repeat (split; [reflexivity|]).
  set (new := [_; _; _; _; _; _]).
  assert (length new = 6%nat) as Hnew by reflexivity.
  unfold newest. rewrite length_drop, drop_drop, length_app, Hnew.
  replace (length (access_log s) + 6 - limit
           + (length (access_log s) + 6 - (length (access_log s) + 6 - limit) - 6))%nat
    with (length (access_log s)) by (unfold limit; lia).
  rewrite drop_app_length. reflexivity.
Qed.

(** X22: [get_access_statistics] returns [total_accesses] as the length of
    the access log and [access_by_type] with, for each access type that
    occurs, the number of its entries (no key for a type that does not
    occur); the call itself is not recorded in the access log. *)
Theorem access_statistics_count_the_access_log s :
  exists s' st,
    get_access_statistics s = (s', Ok st)
    /\ total_accesses st = length (access_log s)
    /\ (forall k, access_by_type st !! k
                  = positive (length (of_access_type k (access_log s))))
    /\ xs_timestamp st = isoformat (clock s (ticks s))
    /\ access_log s' = access_log s
    /\ ticks s' = S (ticks s).
Proof.
  rewrite get_access_statistics_spec. do 2 eexists. split; [reflexivity|].
  cbn [total_accesses access_by_type xs_timestamp later access_log ticks].
  split; [reflexivity|]. split; [|repeat split].
  intros k. unfold count_access_types, of_access_type.
  rewrite (count_by_key access_type), lookup_empty.
  destruct (length _); reflexivity.
Qed.

Lemma field_ok_public (m : gmap (list N) (list N)) key x :
  key <> py "sensitivity" ->
  field_ok (Some (<[py "sensitivity" := py "public"]> m)) key x
  = match m !! key with Some v => bool_decide (x = v) | None => true end.
Proof.
  intros Hk. unfold field_ok. rewrite lookup_insert_ne by (intros H; auto).
  reflexivity.
Qed.

(** X23: [query_public_events] returns, in log order, exactly the entries
    of the trail whose sensitivity is ["public"] and that match the caller's
    [event_type] and [actor] filters when given; a [sensitivity] filter of
    the caller is overridden, other keys are ignored. *)
Theorem query_public_events_returns_public_matches repr filters s :
  exists s' r store,
    query_public_events repr filters s = (s', Ok (r, store))
    /\ pe_events r
       = query_events (audit_trail s)
           (Some (<[py "sensitivity" := py "public"]> (as_filters (default [] filters))))
           None None
    /\ sublist (pe_events r) (audit_log (audit_trail s))
    /\ (forall e, e ∈ pe_events r
                  <-> e ∈ audit_log (audit_trail s) /\ publicly_selected filters e)
    /\ pe_timestamp r = isoformat (clock s (ticks s)).
Proof.
  rewrite query_public_events_spec. do 3 eexists. split; [reflexivity|].
  cbn [pe_events pe_timestamp]. split; [reflexivity|].
  rewrite query_events_spec. split; [apply sublist_filter|]. split; [|reflexivity].
  intros e. rewrite list_elem_of_filter.
  destruct keys_differ as (_ & H2 & H3).
  unfold selected, publicly_selected. cbn [lower_ok upper_ok].
  rewrite !andb_true_r, !andb_true_iff.
  rewrite !field_ok_public by assumption.
  unfold field_ok. rewrite lookup_insert_eq.
  assert (forall key, (filters ≫= fun d => as_filters d !! key)
                      = as_filters (default [] filters) !! key) as Hlook.
  { intros key. destruct filters; [reflexivity|]. cbn. symmetry. apply lookup_empty. }
  rewrite !Hlook.
  destruct (as_filters (default [] filters) !! py "event_type") as [t|],
           (as_filters (default [] filters) !! py "actor") as [a|];
    rewrite ?bool_decide_eq_true; split.
  all: try (intros [[[H1t H1a] H1s] Hin]; split; [exact Hin|];
            repeat split; try assumption; intros ? [= <-]; assumption).
  all: try (intros [Hin (H1t & H1a & H1s)]; split; [|exact Hin];
            repeat split; auto).
  all: try (intros [[[H1t H1a] H1s] Hin]; split; [exact Hin|];
            repeat split; try assumption; intros ? [=]).
Qed.

(** X24: [query_public_events] writes into the caller's dict. When
    [filters] is a non-empty dict, the call sets its [sensitivity] key to
    ["public"] in place: [filters_applied] of the result is that same dict,
    and the access-log description shows it with the key set. When
    [filters] is an empty dict or [None], the caller's object is left as it
    was and [filters_applied] is a new empty dict, although the query ran
    with the [sensitivity] filter. *)
Theorem query_public_events_writes_into_the_callers_dict repr filters s :
  exists s' r store,
    query_public_events repr filters s = (s', Ok (r, store))
    /\ match filters with
       | Some (kv :: d) =>
           filters_applied r = 0%nat
           /\ store !! 0%nat = Some (setitem (py "sensitivity") (py "public") (kv :: d))
           /\ as_filters (setitem (py "sensitivity") (py "public") (kv :: d))
              !! py "sensitivity" = Some (py "public")
           /\ a_description <$> last (access_log s')
              = Some (py "Public events queried with filters: "
                      ++ repr (setitem (py "sensitivity") (py "public") (kv :: d)))
       | Some [] =>
           store !! 0%nat = Some []
           /\ filters_applied r <> 0%nat
           /\ store !! filters_applied r = Some []
           /\ a_description <$> last (access_log s')
              = Some (py "Public events queried with filters: " ++ repr [])
       | None =>
           store !! filters_applied r = Some []
           /\ a_description <$> last (access_log s')
              = Some (py "Public events queried with filters: " ++ py "None")
       end.
Proof.
  rewrite query_public_events_spec. do 3 eexists. split; [reflexivity|].
  cbn [filters_applied later access_log].
  rewrite newest_last by (unfold limit; lia).
  destruct filters as [[|kv d]|]; cbn [final_store formatted format_filters fst snd
    fmap option_fmap option_map logged a_description].
  - repeat split. discriminate.
  - rewrite as_filters_setitem, lookup_insert_eq. repeat split.
  - repeat split.
Qed.

(** X25: [get_audit_summary] does not apply its time window: for every
    [time_window] the returned [audit_statistics] is the value of
    [get_statistics] over the whole log; the window only appears in
    [time_window_hours] and in the access-log description. *)
Theorem audit_summary_ignores_the_time_window w w' s :
  exists s1 r s2 r',
    get_audit_summary w s = (s1, Ok r)
    /\ get_audit_summary w' s = (s2, Ok r')
    /\ get_statistics (audit_trail s) = Ok (audit_statistics r)
    /\ audit_statistics r' = audit_statistics r
    /\ time_window_hours r = w
    /\ st_total_events (audit_statistics r) = length (audit_log (audit_trail s))
    /\ a_description <$> last (access_log s1)
       = Some (py "Audit summary requested for " ++ format_optional_int w
               ++ py "h window").
Proof.
  pose proof (get_statistics_spec (audit_trail s)) as Hst.
  rewrite !(get_audit_summary_eq _ s _ Hst). do 4 eexists.
  split; [reflexivity|]. split; [reflexivity|].
  cbn [audit_statistics time_window_hours st_total_events later access_log].
  split; [exact Hst|]. repeat (split; [reflexivity|]).
  rewrite newest_last by (unfold limit; lia). reflexivity.
Qed.

End PublicInterfaceFacts.
